(** * lib_atlas serial transport: a shallow embedding of
      [src/lib_atlas/io/details/serial_impl_inl.h] and its properties.

    The member functions of [Serial::SerialImpl] are embedded as functions in
    a small state / exception / event-log monad.  The operating system is an
    explicit argument: every function receives the replies the kernel gives
    to the system calls it issues, and logs the calls it makes. *)

From Stdlib Require Import ZArith List String Bool Lia.
Import ListNotations.
Local Open Scope string_scope.
Local Open Scope list_scope.
Local Open Scope Z_scope.

(** ** Machine integers (LP64) *)

Module CInt.

Definition UINT32_MOD : Z := 2 ^ 32.
Definition UINT64_MOD : Z := 2 ^ 64.
Definition LONG_MAX : Z := 2 ^ 63 - 1.

(** Conversion to [uint32_t] / [size_t]: reduction modulo the word size. *)
Definition to_uint32 (z : Z) : Z := z mod UINT32_MOD.
Definition to_size_t (z : Z) : Z := z mod UINT64_MOD.

(** Conversion to [long] / [int]: two's complement.  Signed overflow is
    undefined in C++; the embedding shows what the usual targets do. *)
Definition to_long (z : Z) : Z := (z + 2 ^ 63) mod UINT64_MOD - 2 ^ 63.
Definition to_int (z : Z) : Z := (z + 2 ^ 31) mod UINT32_MOD - 2 ^ 31.

End CInt.
Import CInt.

(** ** Exceptions and outcomes *)

(** Modelled from the spec: the exception classes and the [ATLAS_THROW]
    macro (lib_atlas/exceptions.h is not among the sources).  The spec names
    the conditions: invalid argument, "port not open", a generic I/O
    condition carrying the OS error code or a text, and the transport fault
    ([SerialException]); [ATLAS_THROW] throws the named class. *)
Inductive exn : Type :=
| invalid_argument (what : string)
| SerialException (what : string)
| IOException (description : string)      (* ATLAS_THROW(IOException, "...") *)
| IOException_errno (code : Z)            (* ATLAS_THROW(IOException, errno) *)
| PortNotOpenedException (what : string).

(** What a call has done once the given OS replies are used up. *)
Inductive outcome (A : Type) : Type :=
| Returned (a : A)
| Thrown (e : exn)
| Trapped            (* integer division by zero *)
| Pending.           (* still inside a loop: the scripted replies ran out *)

Arguments Returned {A} a.
Arguments Thrown {A} e.
Arguments Trapped {A}.
Arguments Pending {A}.

(** ** Configuration types (enumerations kept as their integer values) *)

(** Modelled from the spec: the enumerators of [bytesize_t], [parity_t],
    [stopbits_t] and [flowcontrol_t] and the [Timeout] structure are declared
    in serial.h, which is not among the sources.  Spec section 3 lists
    byte_size {5,6,7,8}, parity {none, odd, even, mark, space} and
    stop_bits {1, 1.5, 2}; the source's own comment fixes
    [stopbits_one_point_five] to the integer 3.  Parities are numbered in the
    order the spec lists them. *)
Definition fivebits : Z := 5.
Definition sixbits : Z := 6.
Definition sevenbits : Z := 7.
Definition eightbits : Z := 8.

Definition parity_none : Z := 0.
Definition parity_odd : Z := 1.
Definition parity_even : Z := 2.
Definition parity_mark : Z := 3.
Definition parity_space : Z := 4.

Definition stopbits_one : Z := 1.
Definition stopbits_two : Z := 2.
Definition stopbits_one_point_five : Z := 3.

Definition flowcontrol_none : Z := 0.
Definition flowcontrol_software : Z := 1.
Definition flowcontrol_hardware : Z := 2.

(** Modelled from the spec: [Timeout] (serial.h): five non-negative
    millisecond fields, of the [uint32_t] type that [std::min] in [Read]
    forces on [inter_byte_timeout]. *)
Record Timeout : Type := {
  inter_byte_timeout : Z;
  read_timeout_constant : Z;
  read_timeout_multiplier : Z;
  write_timeout_constant : Z;
  write_timeout_multiplier : Z
}.

(** Modelled from the spec: [Timeout::max()] (serial.h), the "maximum"
    sentinel of [inter_byte_timeout]: the largest [uint32_t]. *)
Definition Timeout_max : Z := UINT32_MOD - 1.

(** Modelled from the spec: [MilliTimer] (lib_atlas/sys/timer.h is not among
    the sources): the total timeout is "enforced by a monotonic deadline".
    The timer stores the expiry instant; [Remaining] is the distance from the
    clock reading to it, in milliseconds. *)
Record MilliTimer : Type := { expiry : Z }.

Definition MilliTimer_new (now ms : Z) : MilliTimer := {| expiry := now + ms |}.
Definition Remaining (t : MilliTimer) (now : Z) : Z := expiry t - now.

(** ** termios (Linux values of the flag macros) *)

Record termios : Type := {
  c_iflag : Z;
  c_oflag : Z;
  c_cflag : Z;
  c_lflag : Z;
  c_cc_VMIN : Z;
  c_cc_VTIME : Z;
  c_ispeed : Z;
  c_ospeed : Z
}.

Module Flag.
Definition IGNBRK := 1.
Definition PARMRK := 8.
Definition INPCK := 16.
Definition ISTRIP := 32.
Definition INLCR := 64.
Definition IGNCR := 128.
Definition ICRNL := 256.
Definition IUCLC := 512.
Definition IXON := 1024.
Definition IXANY := 2048.
Definition IXOFF := 4096.
Definition OPOST := 1.
Definition CSIZE := 48.
Definition CS5 := 0.
Definition CS6 := 16.
Definition CS7 := 32.
Definition CS8 := 48.
Definition CSTOPB := 64.
Definition CREAD := 128.
Definition PARENB := 256.
Definition PARODD := 512.
Definition HUPCL := 1024.
Definition CLOCAL := 2048.
Definition CMSPAR := 1073741824.
Definition CRTSCTS := 2147483648.
Definition CBAUD := 4111.
Definition CBAUDEX := 4096.
Definition IBAUD0 := 2147483648.
Definition ISIG := 1.
Definition ICANON := 2.
Definition ECHO := 8.
Definition ECHOE := 16.
Definition ECHOK := 32.
Definition ECHONL := 64.
Definition IEXTEN := 32768.
Definition ASYNC_SPD_MASK := 4144.
Definition ASYNC_SPD_CUST := 48.
Definition TIOCM_CTS := 32.
Definition TIOCM_CD := 64.
Definition TIOCM_RI := 128.
Definition TIOCM_DSR := 256.
End Flag.

(** [f |= m] and [f &= (tcflag_t)~m] on 32-bit flag words. *)
Definition set_bits (f m : Z) : Z := Z.lor f m.
Definition clear_bits (f m : Z) : Z := Z.land f (to_uint32 (Z.lnot m)).

(** ** The host: what the preprocessor sees *)

Inductive custom_baud_path : Type :=
| IOSSIOSPEED_path       (* OS X 10.4 and later *)
| TIOCSSERIAL_path       (* Linux with TIOCSSERIAL *)
| no_custom_path.

Record host : Type := {
  B_macro : Z -> option Z;         (* [Some b] when macro B<rate> is defined *)
  custom_baud : custom_baud_path;
  has_CMSPAR : bool;
  has_TIOCMIWAIT : bool
}.

(** The rates the [switch (baudrate_)] has a case for. *)
Definition switch_rates : list Z :=
  [0; 50; 75; 110; 134; 150; 200; 300; 600; 1200; 1800; 2400; 4800; 7200;
   9600; 14400; 19200; 28800; 57600; 76800; 38400; 115200; 128000; 153600;
   230400; 256000; 460800; 576000; 921600; 1000000; 1152000; 1500000;
   2000000; 2500000; 3000000; 3500000; 4000000].

Definition enumerated_baud (h : host) (baudrate : Z) : option Z :=
  if existsb (Z.eqb baudrate) switch_rates then B_macro h baudrate else None.

(** ** System calls and their replies *)

Inductive event : Type :=
| enter (function : string)
| leave (function : string)
| sys_open (path : string)
| sys_close (fd : Z)
| sys_tcgetattr (fd : Z)
| sys_tcsetattr (fd : Z) (options : termios)
| sys_ioctl_IOSSIOSPEED (fd : Z) (speed : Z)
| sys_ioctl_TIOCGSERIAL (fd : Z)
| sys_ioctl_TIOCSSERIAL (fd : Z) (custom_divisor : Z) (flags : Z)
| sys_ioctl_TIOCINQ (fd : Z)
| sys_ioctl_TIOCMGET (fd : Z)
| sys_ioctl_TIOCMIWAIT (fd : Z) (mask : Z)
| sys_read (fd : Z) (count : Z)
| sys_write (fd : Z) (count : Z)
| sys_pselect_read (fd : Z) (timeout_ms : Z)
| sys_pselect_write (fd : Z) (timeout_ms : Z)
| sys_pselect_sleep (tv_nsec : Z)
| sys_usleep (usec : Z)
| timer_start (ms : Z)
| timer_remaining (ms : Z).

Record sysret : Type := { ret : Z; errno : Z }.

Definition EINTR : Z := 4.
Definition ENFILE : Z := 23.
Definition EMFILE : Z := 24.

(** ** The object *)

Record SerialImpl : Type := {
  port_ : string;
  fd_ : Z;
  is_open_ : bool;
  xonxoff_ : bool;
  rtscts_ : bool;
  timeout_ : Timeout;
  baudrate_ : Z;
  byte_time_ns_ : Z;
  parity_ : Z;
  bytesize_ : Z;
  stopbits_ : Z;
  flowcontrol_ : Z
}.

Definition set_fd (v : Z) (s : SerialImpl) : SerialImpl :=
  {| port_ := port_ s; fd_ := v; is_open_ := is_open_ s;
     xonxoff_ := xonxoff_ s; rtscts_ := rtscts_ s; timeout_ := timeout_ s;
     baudrate_ := baudrate_ s; byte_time_ns_ := byte_time_ns_ s;
     parity_ := parity_ s; bytesize_ := bytesize_ s;
     stopbits_ := stopbits_ s; flowcontrol_ := flowcontrol_ s |}.

Definition set_is_open (v : bool) (s : SerialImpl) : SerialImpl :=
  {| port_ := port_ s; fd_ := fd_ s; is_open_ := v;
     xonxoff_ := xonxoff_ s; rtscts_ := rtscts_ s; timeout_ := timeout_ s;
     baudrate_ := baudrate_ s; byte_time_ns_ := byte_time_ns_ s;
     parity_ := parity_ s; bytesize_ := bytesize_ s;
     stopbits_ := stopbits_ s; flowcontrol_ := flowcontrol_ s |}.

Definition set_flow (x r : bool) (s : SerialImpl) : SerialImpl :=
  {| port_ := port_ s; fd_ := fd_ s; is_open_ := is_open_ s;
     xonxoff_ := x; rtscts_ := r; timeout_ := timeout_ s;
     baudrate_ := baudrate_ s; byte_time_ns_ := byte_time_ns_ s;
     parity_ := parity_ s; bytesize_ := bytesize_ s;
     stopbits_ := stopbits_ s; flowcontrol_ := flowcontrol_ s |}.

Definition set_byte_time_ns (v : Z) (s : SerialImpl) : SerialImpl :=
  {| port_ := port_ s; fd_ := fd_ s; is_open_ := is_open_ s;
     xonxoff_ := xonxoff_ s; rtscts_ := rtscts_ s; timeout_ := timeout_ s;
     baudrate_ := baudrate_ s; byte_time_ns_ := v;
     parity_ := parity_ s; bytesize_ := bytesize_ s;
     stopbits_ := stopbits_ s; flowcontrol_ := flowcontrol_ s |}.

(** ** The monad: state, exceptions, event log *)

Definition M (A : Type) : Type :=
  SerialImpl -> outcome A * SerialImpl * list event.

Definition pure {A} (a : A) : M A := fun s => (Returned a, s, []).

Definition bind {A B} (m : M A) (k : A -> M B) : M B :=
  fun s =>
    match m s with
    | (Returned a, s1, t1) =>
        match k a s1 with (o, s2, t2) => (o, s2, t1 ++ t2) end
    | (Thrown e, s1, t1) => (Thrown e, s1, t1)
    | (Trapped, s1, t1) => (Trapped, s1, t1)
    | (Pending, s1, t1) => (Pending, s1, t1)
    end.

Definition throw {A} (e : exn) : M A := fun s => (Thrown e, s, []).
Definition trap {A} : M A := fun s => (Trapped, s, []).
Definition pending {A} : M A := fun s => (Pending, s, []).
Definition gets {A} (f : SerialImpl -> A) : M A := fun s => (Returned (f s), s, []).
Definition modify (f : SerialImpl -> SerialImpl) : M unit :=
  fun s => (Returned tt, f s, []).
Definition emit (e : event) : M unit := fun s => (Returned tt, s, [e]).

Notation "x <- m ;; k" := (bind m (fun x => k))
  (at level 61, m at next level, right associativity).
Notation "m ;;; k" := (bind m (fun _ => k))
  (at level 61, right associativity).

Definition result_of {A} (r : outcome A * SerialImpl * list event) : outcome A :=
  fst (fst r).
Definition state_of {A} (r : outcome A * SerialImpl * list event) : SerialImpl :=
  snd (fst r).
Definition log_of {A} (r : outcome A * SerialImpl * list event) : list event :=
  snd r.

(** ** ReconfigurePort *)

Definition with_iflag (v : Z) (o : termios) : termios :=
  {| c_iflag := v; c_oflag := c_oflag o; c_cflag := c_cflag o;
     c_lflag := c_lflag o; c_cc_VMIN := c_cc_VMIN o;
     c_cc_VTIME := c_cc_VTIME o; c_ispeed := c_ispeed o;
     c_ospeed := c_ospeed o |}.

Definition with_oflag (v : Z) (o : termios) : termios :=
  {| c_iflag := c_iflag o; c_oflag := v; c_cflag := c_cflag o;
     c_lflag := c_lflag o; c_cc_VMIN := c_cc_VMIN o;
     c_cc_VTIME := c_cc_VTIME o; c_ispeed := c_ispeed o;
     c_ospeed := c_ospeed o |}.

Definition with_cflag (v : Z) (o : termios) : termios :=
  {| c_iflag := c_iflag o; c_oflag := c_oflag o; c_cflag := v;
     c_lflag := c_lflag o; c_cc_VMIN := c_cc_VMIN o;
     c_cc_VTIME := c_cc_VTIME o; c_ispeed := c_ispeed o;
     c_ospeed := c_ospeed o |}.

Definition with_lflag (v : Z) (o : termios) : termios :=
  {| c_iflag := c_iflag o; c_oflag := c_oflag o; c_cflag := c_cflag o;
     c_lflag := v; c_cc_VMIN := c_cc_VMIN o;
     c_cc_VTIME := c_cc_VTIME o; c_ispeed := c_ispeed o;
     c_ospeed := c_ospeed o |}.

Definition with_ispeed (v : Z) (o : termios) : termios :=
  {| c_iflag := c_iflag o; c_oflag := c_oflag o; c_cflag := c_cflag o;
     c_lflag := c_lflag o; c_cc_VMIN := c_cc_VMIN o;
     c_cc_VTIME := c_cc_VTIME o; c_ispeed := v; c_ospeed := c_ospeed o |}.

Definition with_ospeed (v : Z) (o : termios) : termios :=
  {| c_iflag := c_iflag o; c_oflag := c_oflag o; c_cflag := c_cflag o;
     c_lflag := c_lflag o; c_cc_VMIN := c_cc_VMIN o;
     c_cc_VTIME := c_cc_VTIME o; c_ispeed := c_ispeed o; c_ospeed := v |}.

(** [cfsetispeed] and [cfsetospeed] as the C library that goes with the flag
    values above has them (glibc on Linux).  Besides the speed member they
    keep the speed in the [CBAUD] bits of [c_cflag]:
    [c_cflag &= ~(CBAUD | CBAUDEX); c_cflag |= speed], and [cfsetispeed]
    marks a zero input speed in [IBAUD0] of [c_iflag] instead.  The library
    refuses a speed with a bit outside [CBAUD] ([EINVAL], nothing changed);
    the code calls it with the host's B macros only, which have none, so
    that exit is left out and the speed is written with its [CBAUD] bits. *)
Definition cfsetispeed (speed : Z) (o : termios) : termios :=
  let o := with_ispeed speed o in
  if speed =? 0
  then with_iflag (set_bits (c_iflag o) Flag.IBAUD0) o
  else
    let o := with_iflag (clear_bits (c_iflag o) Flag.IBAUD0) o in
    let o := with_cflag
               (clear_bits (c_cflag o) (Z.lor Flag.CBAUD Flag.CBAUDEX)) o in
    with_cflag (set_bits (c_cflag o) (Z.land speed Flag.CBAUD)) o.

Definition cfsetospeed (speed : Z) (o : termios) : termios :=
  let o := with_ospeed speed o in
  let o := with_cflag
             (clear_bits (c_cflag o) (Z.lor Flag.CBAUD Flag.CBAUDEX)) o in
  with_cflag (set_bits (c_cflag o) (Z.land speed Flag.CBAUD)) o.

(** [cfsetispeed] then [cfsetospeed] with the same constant ([cfsetspeed]
    makes the same two calls). *)
Definition with_speed (b : Z) (o : termios) : termios :=
  cfsetospeed b (cfsetispeed b o).

Definition with_polling_read (o : termios) : termios :=
  {| c_iflag := c_iflag o; c_oflag := c_oflag o; c_cflag := c_cflag o;
     c_lflag := c_lflag o; c_cc_VMIN := 0; c_cc_VTIME := 0;
     c_ispeed := c_ispeed o; c_ospeed := c_ospeed o |}.

(** What the kernel answers to the calls of one [ReconfigurePort]. *)
Record reconf_os : Type := {
  os_tcgetattr : sysret;
  os_termios : termios;            (* the settings [tcgetattr] stores *)
  os_IOSSIOSPEED : sysret;
  os_TIOCGSERIAL : sysret;
  os_baud_base : Z;                (* [ser.baud_base] *)
  os_ser_flags : Z;                (* [ser.flags] *)
  os_TIOCSSERIAL : sysret;
  os_tcsetattr : sysret
}.

(** "set up raw mode / no echo / binary" *)
Definition raw_mode (o : termios) : termios :=
  let o := with_cflag (set_bits (c_cflag o) (Z.lor Flag.CLOCAL Flag.CREAD)) o in
  let o := with_lflag
             (clear_bits (c_lflag o)
                (Z.lor Flag.ICANON (Z.lor Flag.ECHO (Z.lor Flag.ECHOE
                  (Z.lor Flag.ECHOK (Z.lor Flag.ECHONL
                    (Z.lor Flag.ISIG Flag.IEXTEN))))))) o in
  let o := with_oflag (clear_bits (c_oflag o) Flag.OPOST) o in
  let o := with_iflag
             (clear_bits (c_iflag o)
                (Z.lor Flag.INLCR (Z.lor Flag.IGNCR
                  (Z.lor Flag.ICRNL Flag.IGNBRK)))) o in
  let o := with_iflag (clear_bits (c_iflag o) Flag.IUCLC) o in
  with_iflag (clear_bits (c_iflag o) Flag.PARMRK) o.

(** "setup baud rate": the [switch], its [default:] branch and the
    [if (custom_baud == false)] that follows it. *)
Definition setup_baud (h : host) (os : reconf_os) (o : termios) : M termios :=
  rate <- gets baudrate_ ;;
  fd <- gets fd_ ;;
  match enumerated_baud h rate with
  | Some baud => pure (with_speed baud o)
  | None =>
      match custom_baud h with
      | IOSSIOSPEED_path =>
          emit (sys_ioctl_IOSSIOSPEED fd rate) ;;;
          if ret (os_IOSSIOSPEED os) =? -1
          then throw (IOException_errno (errno (os_IOSSIOSPEED os)))
          else pure o
      | TIOCSSERIAL_path =>
          emit (sys_ioctl_TIOCGSERIAL fd) ;;;
          if ret (os_TIOCGSERIAL os) =? -1
          then throw (IOException_errno (errno (os_TIOCGSERIAL os)))
          else if to_int rate =? 0 then trap
          else
            let custom_divisor := Z.quot (os_baud_base os) (to_int rate) in
            let flags :=
              Z.lor (Z.land (os_ser_flags os) (Z.lnot Flag.ASYNC_SPD_MASK))
                    Flag.ASYNC_SPD_CUST in
            emit (sys_ioctl_TIOCSSERIAL fd custom_divisor flags) ;;;
            if ret (os_TIOCSSERIAL os) =? -1
            then throw (IOException_errno (errno (os_TIOCSSERIAL os)))
            else pure o
      | no_custom_path =>
          throw (invalid_argument "OS does not currently support custom bauds")
      end
  end.

(** "setup char len" *)
Definition setup_char_len (o : termios) : M termios :=
  bytesize <- gets bytesize_ ;;
  let o := with_cflag (clear_bits (c_cflag o) Flag.CSIZE) o in
  if bytesize =? eightbits then pure (with_cflag (set_bits (c_cflag o) Flag.CS8) o)
  else if bytesize =? sevenbits then pure (with_cflag (set_bits (c_cflag o) Flag.CS7) o)
  else if bytesize =? sixbits then pure (with_cflag (set_bits (c_cflag o) Flag.CS6) o)
  else if bytesize =? fivebits then pure (with_cflag (set_bits (c_cflag o) Flag.CS5) o)
  else throw (invalid_argument "invalid char len").

(** "setup stopbits": one point five is programmed as two. *)
Definition setup_stopbits (o : termios) : M termios :=
  stopbits <- gets stopbits_ ;;
  if stopbits =? stopbits_one
  then pure (with_cflag (clear_bits (c_cflag o) Flag.CSTOPB) o)
  else if stopbits =? stopbits_one_point_five
  then pure (with_cflag (set_bits (c_cflag o) Flag.CSTOPB) o)
  else if stopbits =? stopbits_two
  then pure (with_cflag (set_bits (c_cflag o) Flag.CSTOPB) o)
  else throw (invalid_argument "invalid stop bit").

(** "setup parity" *)
Definition setup_parity (h : host) (o : termios) : M termios :=
  parity <- gets parity_ ;;
  let o := with_iflag (clear_bits (c_iflag o) (Z.lor Flag.INPCK Flag.ISTRIP)) o in
  if parity =? parity_none
  then pure (with_cflag (clear_bits (c_cflag o) (Z.lor Flag.PARENB Flag.PARODD)) o)
  else if parity =? parity_even
  then
    let o := with_cflag (clear_bits (c_cflag o) Flag.PARODD) o in
    pure (with_cflag (set_bits (c_cflag o) Flag.PARENB) o)
  else if parity =? parity_odd
  then pure (with_cflag (set_bits (c_cflag o) (Z.lor Flag.PARENB Flag.PARODD)) o)
  else if has_CMSPAR h
  then
    if parity =? parity_mark
    then pure (with_cflag
                 (set_bits (c_cflag o)
                    (Z.lor Flag.PARENB (Z.lor Flag.CMSPAR Flag.PARODD))) o)
    else if parity =? parity_space
    then
      let o := with_cflag (set_bits (c_cflag o) (Z.lor Flag.PARENB Flag.CMSPAR)) o in
      pure (with_cflag (clear_bits (c_cflag o) Flag.PARODD) o)
    else throw (invalid_argument "invalid parity")
  else
    if (parity =? parity_mark) || (parity =? parity_space)
    then throw (invalid_argument "OS does not support mark or space parity")
    else throw (invalid_argument "invalid parity").

(** "setup flow control": three independent tests, then the flag words. *)
Definition setup_flow_control (o : termios) : M termios :=
  flowcontrol <- gets flowcontrol_ ;;
  (if flowcontrol =? flowcontrol_none then modify (set_flow false false)
   else pure tt) ;;;
  (if flowcontrol =? flowcontrol_software then modify (set_flow true false)
   else pure tt) ;;;
  (if flowcontrol =? flowcontrol_hardware then modify (set_flow false true)
   else pure tt) ;;;
  xonxoff <- gets xonxoff_ ;;
  rtscts <- gets rtscts_ ;;
  let o :=
    if xonxoff : bool
    then with_iflag (set_bits (c_iflag o) (Z.lor Flag.IXON Flag.IXOFF)) o
    else with_iflag
           (clear_bits (c_iflag o)
              (Z.lor Flag.IXON (Z.lor Flag.IXOFF Flag.IXANY))) o in
  let o :=
    if rtscts : bool
    then with_cflag (set_bits (c_cflag o) Flag.CRTSCTS) o
    else with_cflag (clear_bits (c_cflag o) Flag.CRTSCTS) o in
  pure o.

(** [uint32_t bit_time_ns = 1e9 / baudrate_;]  The double quotient of 1e9 by
    an integer in [1, 2^53] truncates to the integer quotient, so integer
    division is exact here (a zero rate divides by zero in floating point
    and has no defined conversion). *)
Definition bit_time_ns (baudrate : Z) : Z := to_uint32 (1000000000 / baudrate).

(** [byte_time_ns_ = bit_time_ns * (1 + bytesize_ + parity_ + stopbits_);]
    an unsigned 32-bit product of the bit time and the enumerators' integer
    values. *)
Definition byte_time_product (baudrate bytesize parity stopbits : Z) : Z :=
  to_uint32 (bit_time_ns baudrate * (1 + bytesize + parity + stopbits)).

(** [byte_time_ns_ += ((1.5 - stopbits_one_point_five) * bit_time_ns);]
    computed in double and truncated back: the operands are integers and
    half-integers below 2^34, so the sum is exact. *)
Definition one_point_five_compensation (byte_time bit_time : Z) : Z :=
  to_uint32 (Z.quot (2 * byte_time + (3 - 2 * stopbits_one_point_five) * bit_time) 2).

Definition byte_time_estimate (baudrate bytesize parity stopbits : Z) : Z :=
  let byte_time := byte_time_product baudrate bytesize parity stopbits in
  if stopbits =? stopbits_one_point_five
  then one_point_five_compensation byte_time (bit_time_ns baudrate)
  else byte_time.

Definition ReconfigurePort (h : host) (os : reconf_os) : M unit :=
  fd <- gets fd_ ;;
  if fd =? -1
  then throw (IOException "Invalid file descriptor, is the serial port open?")
  else
    emit (sys_tcgetattr fd) ;;;
    if ret (os_tcgetattr os) =? -1 then throw (IOException "::tcgetattr")
    else
      o <- setup_baud h os (raw_mode (os_termios os)) ;;
      o <- setup_char_len o ;;
      o <- setup_stopbits o ;;
      o <- setup_parity h o ;;
      o <- setup_flow_control o ;;
      (* activate settings: the return value is dropped *)
      emit (sys_tcsetattr fd (with_polling_read o)) ;;;
      (* Update byte_time_ based on the new settings. *)
      s <- gets (fun s => s) ;;
      modify (set_byte_time_ns
                (byte_time_estimate (baudrate_ s) (bytesize_ s)
                                    (parity_ s) (stopbits_ s))).

(** ** Open and Close *)

(** One attempt of [::open]: the descriptor (or -1) and [errno]. *)
Definition open_reply : Type := sysret.

(** [Open] calls itself after an interrupted attempt; the embedding recurses
    the same way, on the replies of the successive [::open] attempts, and
    brackets every activation with [enter] / [leave]. *)
Fixpoint Open (h : host) (attempts : list open_reply) (os : reconf_os)
  {struct attempts} : M unit :=
  emit (enter "Open") ;;;
  port <- gets port_ ;;
  if String.eqb port ""
  then throw (invalid_argument "Empty port is invalid.")
  else
    is_open <- gets is_open_ ;;
    if is_open : bool then throw (SerialException "Serial port already open.")
    else
      match attempts with
      | [] => pending
      | r :: attempts' =>
          emit (sys_open port) ;;;
          modify (set_fd (ret r)) ;;;
          if ret r =? -1
          then
            if errno r =? EINTR
            then
              (* Recurse because this is a recoverable error. *)
              Open h attempts' os ;;;
              emit (leave "Open")
            else if (errno r =? ENFILE) || (errno r =? EMFILE)
            then throw (IOException "Too many file handles open.")
            else throw (IOException_errno (errno r))
          else
            ReconfigurePort h os ;;;
            modify (set_is_open true) ;;;
            emit (leave "Open")
      end.

Definition Close (os_close : sysret) : M unit :=
  is_open <- gets is_open_ ;;
  if is_open : bool
  then
    fd <- gets fd_ ;;
    (if negb (fd =? -1)
     then
       emit (sys_close fd) ;;;
       if ret os_close =? 0
       then modify (set_fd (-1))
       else throw (IOException_errno (errno os_close))
     else pure tt) ;;;
    modify (set_is_open false)
  else pure tt.

Definition set_baudrate (v : Z) (s : SerialImpl) : SerialImpl :=
  {| port_ := port_ s; fd_ := fd_ s; is_open_ := is_open_ s;
     xonxoff_ := xonxoff_ s; rtscts_ := rtscts_ s; timeout_ := timeout_ s;
     baudrate_ := v; byte_time_ns_ := byte_time_ns_ s;
     parity_ := parity_ s; bytesize_ := bytesize_ s;
     stopbits_ := stopbits_ s; flowcontrol_ := flowcontrol_ s |}.

Definition SetBaudrate (h : host) (os : reconf_os) (baudrate : Z) : M unit :=
  modify (set_baudrate baudrate) ;;;
  is_open <- gets is_open_ ;;
  if is_open : bool then ReconfigurePort h os else pure tt.

Definition set_parity (v : Z) (s : SerialImpl) : SerialImpl :=
  {| port_ := port_ s; fd_ := fd_ s; is_open_ := is_open_ s;
     xonxoff_ := xonxoff_ s; rtscts_ := rtscts_ s; timeout_ := timeout_ s;
     baudrate_ := baudrate_ s; byte_time_ns_ := byte_time_ns_ s;
     parity_ := v; bytesize_ := bytesize_ s;
     stopbits_ := stopbits_ s; flowcontrol_ := flowcontrol_ s |}.

Definition SetParity (h : host) (os : reconf_os) (parity : Z) : M unit :=
  modify (set_parity parity) ;;;
  is_open <- gets is_open_ ;;
  if is_open : bool then ReconfigurePort h os else pure tt.

(** ** Readiness, Available, WaitByteTimes *)

Record select_reply : Type := {
  sel : sysret;                    (* [r] and [errno] of [pselect] *)
  sel_isset : bool                 (* [FD_ISSET(fd_, &fds)] afterwards *)
}.

Record inq_reply : Type := {
  inq : sysret;
  inq_count : Z                    (* the [int] the ioctl stores *)
}.

Definition Available (r : inq_reply) : M Z :=
  is_open <- gets is_open_ ;;
  if negb is_open then pure 0
  else
    fd <- gets fd_ ;;
    emit (sys_ioctl_TIOCINQ fd) ;;;
    if ret (inq r) =? -1 then throw (IOException_errno (errno (inq r)))
    else pure (to_size_t (inq_count r)).

Definition WaitReadable (timeout : Z) (r : select_reply) : M bool :=
  fd <- gets fd_ ;;
  emit (sys_pselect_read fd timeout) ;;;
  if ret (sel r) <? 0
  then
    (* Select was interrupted *)
    if errno (sel r) =? EINTR then pure false
    else throw (IOException_errno (errno (sel r)))
  else if ret (sel r) =? 0 then pure false       (* Timeout occurred *)
  else if negb (sel_isset r)
  then throw (IOException
    "select reports ready to read, but our fd isn't in the list, this shouldn't happen!")
  else pure true.

(** [timespec wait_time = {0, static_cast<long>(byte_time_ns_ * count)}] *)
Definition WaitByteTimes (count : Z) : M unit :=
  byte_time_ns <- gets byte_time_ns_ ;;
  emit (sys_pselect_sleep (to_long (to_size_t (byte_time_ns * count)))).

(** ** Read *)

(** How one pass through a transfer loop ends. *)
Inductive step : Type :=
| Continue (transferred : Z)
| Break (transferred : Z).

(** [while (transferred < size) { body }]: both transfer loops have this
    shape.  Every pass consumes the replies of one element of [its]; the
    call is [Pending] when they run out while the loop is still running. *)
Fixpoint transfer_loop {I : Type} (body : Z -> I -> M step) (size : Z)
    (its : list I) (transferred : Z) {struct its} : M Z :=
  if transferred <? size
  then
    match its with
    | [] => pending
    | it :: its' =>
        st <- body transferred it ;;
        match st with
        | Continue n => transfer_loop body size its' n
        | Break n => pure n
        end
    end
  else pure transferred.

(** Where the loop stands after the passes [its]: [Continue n] when it is
    about to test its condition with [n] bytes transferred, [Break n] when
    it has been left with [n]. *)
Fixpoint passes {I : Type} (body : Z -> I -> M step) (size : Z)
    (its : list I) (transferred : Z) {struct its} : M step :=
  match its with
  | [] => pure (Continue transferred)
  | it :: its' =>
      if transferred <? size
      then
        st <- body transferred it ;;
        match st with
        | Continue n => passes body size its' n
        | Break n => pure (Break n)
        end
      else pure (Break transferred)
  end.

(** The replies one pass of the [Read] loop may consume. *)
Record read_iter : Type := {
  ri_now : Z;                      (* the clock when [Remaining] is taken *)
  ri_select : select_reply;
  ri_inq : inq_reply;
  ri_read : Z -> Z                 (* what [::read] returns for a count *)
}.

Definition disconnected_on_read : exn :=
  SerialException
    "device reports readiness to read but returned no data (device disconnected?)".

Definition over_read : exn :=
  SerialException
    "read over read, too many bytes where read, this shouldn't happen, might be a logical error!".

(** "If it's a fixed-length multi-byte read, insert a wait here so that we
    can attempt to grab the whole thing in a single IO call.  Skip this wait
    if a non-max inter_byte_timeout is specified." *)
Definition coalescing_wait (size bytes_read : Z) (r : inq_reply) : M unit :=
  inter_byte <- gets (fun s => inter_byte_timeout (timeout_ s)) ;;
  if (1 <? size) && (inter_byte =? Timeout_max)
  then
    bytes_available <- Available r ;;
    if to_size_t (bytes_available + bytes_read) <? size
    then WaitByteTimes
           (to_size_t (size - to_size_t (bytes_available + bytes_read)))
    else pure tt
  else pure tt.

(** The body of [while (bytes_read < size)]. *)
Definition Read_iteration (size : Z) (total_timeout : MilliTimer)
    (bytes_read : Z) (it : read_iter) : M step :=
  let timeout_remaining_ms := Remaining total_timeout (ri_now it) in
  emit (timer_remaining timeout_remaining_ms) ;;;
  if timeout_remaining_ms <=? 0 then pure (Break bytes_read)   (* Timed out *)
  else
    inter_byte <- gets (fun s => inter_byte_timeout (timeout_ s)) ;;
    let timeout := Z.min (to_uint32 timeout_remaining_ms) inter_byte in
    ready <- WaitReadable timeout (ri_select it) ;;
    if ready : bool
    then
      coalescing_wait size bytes_read (ri_inq it) ;;;
      fd <- gets fd_ ;;
      emit (sys_read fd (to_size_t (size - bytes_read))) ;;;
      let bytes_read_now := ri_read it (to_size_t (size - bytes_read)) in
      if bytes_read_now <? 1 then throw disconnected_on_read
      else
        let bytes_read := to_size_t (bytes_read + to_size_t bytes_read_now) in
        if bytes_read =? size then pure (Break bytes_read)
        else if bytes_read <? size then pure (Continue bytes_read)
        else if size <? bytes_read then throw over_read
        else pure (Continue bytes_read)
    else pure (Continue bytes_read).

Definition Read_loop (size : Z) (total_timeout : MilliTimer)
    (its : list read_iter) (bytes_read : Z) : M Z :=
  transfer_loop (Read_iteration size total_timeout) size its bytes_read.

(** "Pre-fill buffer with available bytes": [bytes_read] after the first
    [::read], whose non-positive results are dropped. *)
Definition prefilled (bytes_read_now : Z) : Z :=
  if 0 <? bytes_read_now then to_size_t bytes_read_now else 0.

(** "Calculate total timeout in milliseconds t_c + (t_m * N)", in [long]. *)
Definition total_timeout_ms (constant multiplier size : Z) : Z :=
  to_long (constant + to_long (multiplier * to_long size)).

(** [Read(buf, size)]: [now] is the clock when the timer is made, [prefill]
    what the first [::read] returns, [its] the replies of the loop passes. *)
Definition Read (size : Z) (now : Z) (prefill : Z -> Z) (its : list read_iter)
  : M Z :=
  is_open <- gets is_open_ ;;
  if negb is_open then throw (PortNotOpenedException "Serial::read")
  else
    t <- gets timeout_ ;;
    let total :=
      total_timeout_ms (read_timeout_constant t) (read_timeout_multiplier t) size in
    emit (timer_start total) ;;;
    let total_timeout := MilliTimer_new now total in
    (* Pre-fill buffer with available bytes *)
    fd <- gets fd_ ;;
    emit (sys_read fd size) ;;;
    Read_loop size total_timeout its (prefilled (prefill size)).

(** ** Write *)

Record write_iter : Type := {
  wi_now : Z;
  wi_select : select_reply;
  wi_write : Z -> Z                (* what [::write] returns for a count *)
}.

Definition disconnected_on_write : exn :=
  SerialException
    "device reports readiness to write but returned no data (device disconnected?)".

Definition over_write : exn :=
  SerialException
    "write over wrote, too many bytes where written, this shouldn't happen, might be a logical error!".

Definition fd_not_in_write_list : exn :=
  IOException
    "select reports ready to write, but our fd isn't in the list, this shouldn't happen!".

(** The body of [while (bytes_written < length)]. *)
Definition Write_iteration (length : Z) (total_timeout : MilliTimer)
    (bytes_written : Z) (it : write_iter) : M step :=
  let timeout_remaining_ms := Remaining total_timeout (wi_now it) in
  emit (timer_remaining timeout_remaining_ms) ;;;
  if timeout_remaining_ms <=? 0 then pure (Break bytes_written)
  else
    fd <- gets fd_ ;;
    emit (sys_pselect_write fd timeout_remaining_ms) ;;;
    let r := ret (sel (wi_select it)) in
    if r <? 0
    then
      (* Select was interrupted, try again *)
      if errno (sel (wi_select it)) =? EINTR then pure (Continue bytes_written)
      else throw (IOException_errno (errno (sel (wi_select it))))
    else if r =? 0 then pure (Break bytes_written)           (* Timeout *)
    else if 0 <? r
    then
      if sel_isset (wi_select it)
      then
        emit (sys_write fd (to_size_t (length - bytes_written))) ;;;
        let bytes_written_now :=
          wi_write it (to_size_t (length - bytes_written)) in
        if bytes_written_now <? 1 then throw disconnected_on_write
        else
          let bytes_written :=
            to_size_t (bytes_written + to_size_t bytes_written_now) in
          if bytes_written =? length then pure (Break bytes_written)
          else if bytes_written <? length then pure (Continue bytes_written)
          else if length <? bytes_written then throw over_write
          else throw fd_not_in_write_list
      else throw fd_not_in_write_list
    else pure (Continue bytes_written).

Definition Write_loop (length : Z) (total_timeout : MilliTimer)
    (its : list write_iter) (bytes_written : Z) : M Z :=
  transfer_loop (Write_iteration length total_timeout) length its bytes_written.

Definition Write (length : Z) (now : Z) (its : list write_iter) : M Z :=
  is_open <- gets is_open_ ;;
  if negb is_open then throw (PortNotOpenedException "Serial::write")
  else
    t <- gets timeout_ ;;
    let total :=
      total_timeout_ms (write_timeout_constant t) (write_timeout_multiplier t)
                       length in
    emit (timer_start total) ;;;
    Write_loop length (MilliTimer_new now total) its 0.

(** ** WaitForChange *)

(** One pass of the polling loop: the status query, and whether another
    thread closes the port while this one sleeps. *)
Record poll_iter : Type := {
  pi_TIOCMGET : sysret;
  pi_status : Z;
  pi_closed_meanwhile : bool
}.

Definition line_asserted (status : Z) : bool :=
  negb (Z.land status Flag.TIOCM_CTS =? 0)
  || negb (Z.land status Flag.TIOCM_DSR =? 0)
  || negb (Z.land status Flag.TIOCM_RI =? 0)
  || negb (Z.land status Flag.TIOCM_CD =? 0).

(** The [#ifndef TIOCMIWAIT] branch. *)
Fixpoint WaitForChange_polling (its : list poll_iter) {struct its} : M bool :=
  is_open <- gets is_open_ ;;
  if is_open : bool
  then
    match its with
    | [] => pending
    | it :: its' =>
        fd <- gets fd_ ;;
        emit (sys_ioctl_TIOCMGET fd) ;;;
        if ret (pi_TIOCMGET it) =? -1
        then throw (SerialException
                      "waitForChange failed on a call to ioctl(TIOCMGET): ")
        else if line_asserted (pi_status it) then pure true
        else
          emit (sys_usleep 1000) ;;;
          (if pi_closed_meanwhile it
           then modify (fun s => set_is_open false (set_fd (-1) s))
           else pure tt) ;;;
          WaitForChange_polling its'
    end
  else pure false.

(** The [#else] branch; [None] when the ioctl has not come back. *)
Definition WaitForChange_native (iwait : option sysret) : M bool :=
  fd <- gets fd_ ;;
  emit (sys_ioctl_TIOCMIWAIT fd
          (Z.lor Flag.TIOCM_CD (Z.lor Flag.TIOCM_DSR
             (Z.lor Flag.TIOCM_RI Flag.TIOCM_CTS)))) ;;;
  match iwait with
  | None => pending
  | Some r =>
      if ret r =? -1
      then throw (SerialException
                    "waitForDSR failed on a call to ioctl(TIOCMIWAIT): ")
      else pure true
  end.

Definition WaitForChange (h : host) (its : list poll_iter)
    (iwait : option sysret) : M bool :=
  if has_TIOCMIWAIT h then WaitForChange_native iwait
  else WaitForChange_polling its.

(** ** A Linux host and a sample port, for evaluation *)

Definition linux_B (rate : Z) : option Z :=
  match rate with
  | 0 => Some 0 | 50 => Some 1 | 75 => Some 2 | 110 => Some 3
  | 134 => Some 4 | 150 => Some 5 | 200 => Some 6 | 300 => Some 7
  | 600 => Some 8 | 1200 => Some 9 | 1800 => Some 10 | 2400 => Some 11
  | 4800 => Some 12 | 9600 => Some 13 | 19200 => Some 14 | 38400 => Some 15
  | 57600 => Some 4097 | 115200 => Some 4098 | 230400 => Some 4099
  | 460800 => Some 4100 | 500000 => Some 4101 | 576000 => Some 4102
  | 921600 => Some 4103 | 1000000 => Some 4104 | 1152000 => Some 4105
  | 1500000 => Some 4106 | 2000000 => Some 4107 | 2500000 => Some 4108
  | 3000000 => Some 4109 | 3500000 => Some 4110 | 4000000 => Some 4111
  | _ => None
  end.

Definition linux : host :=
  {| B_macro := linux_B; custom_baud := TIOCSSERIAL_path;
     has_CMSPAR := true; has_TIOCMIWAIT := true |}.

(** A host without [TIOCMIWAIT], [CMSPAR] and custom rates. *)
Definition plain_posix : host :=
  {| B_macro := linux_B; custom_baud := no_custom_path;
     has_CMSPAR := false; has_TIOCMIWAIT := false |}.

Definition sample_timeout (ms : Z) : Timeout :=
  {| inter_byte_timeout := Timeout_max; read_timeout_constant := ms;
     read_timeout_multiplier := 0; write_timeout_constant := ms;
     write_timeout_multiplier := 0 |}.

Definition sample_port (open : bool) : SerialImpl :=
  {| port_ := "/dev/ttyUSB0"; fd_ := if open then 3 else -1;
     is_open_ := open; xonxoff_ := false; rtscts_ := false;
     timeout_ := sample_timeout 100; baudrate_ := 9600;
     byte_time_ns_ := 1041660; parity_ := parity_none;
     bytesize_ := eightbits; stopbits_ := stopbits_one;
     flowcontrol_ := flowcontrol_none |}.

Definition ok : sysret := {| ret := 0; errno := 0 |}.

Definition ready : select_reply :=
  {| sel := {| ret := 1; errno := 0 |}; sel_isset := true |}.

(** A pass at clock [now] in which the device is ready and has [k] bytes. *)
Definition pass_with (now k : Z) : read_iter :=
  {| ri_now := now; ri_select := ready;
     ri_inq := {| inq := ok; inq_count := k |};
     ri_read := fun count => Z.min count k |}.

Definition write_pass_with (now k : Z) : write_iter :=
  {| wi_now := now; wi_select := ready;
     wi_write := fun count => Z.min count k |}.

Definition with_tcsetattr (r : sysret) (os : reconf_os) : reconf_os :=
  {| os_tcgetattr := os_tcgetattr os; os_termios := os_termios os;
     os_IOSSIOSPEED := os_IOSSIOSPEED os; os_TIOCGSERIAL := os_TIOCGSERIAL os;
     os_baud_base := os_baud_base os; os_ser_flags := os_ser_flags os;
     os_TIOCSSERIAL := os_TIOCSSERIAL os; os_tcsetattr := r |}.
Definition failed (e : Z) : sysret := {| ret := -1; errno := e |}.

Definition zero_termios : termios :=
  {| c_iflag := 0; c_oflag := 0; c_cflag := 0; c_lflag := 0;
     c_cc_VMIN := 1; c_cc_VTIME := 0; c_ispeed := 0; c_ospeed := 0 |}.

Definition willing_os : reconf_os :=
  {| os_tcgetattr := ok; os_termios := zero_termios; os_IOSSIOSPEED := ok;
     os_TIOCGSERIAL := ok; os_baud_base := 24000000; os_ser_flags := 0;
     os_TIOCSSERIAL := ok; os_tcsetattr := ok |}.

(** ** Notions used in the statements *)

(** [keeps f P m]: whatever the outcome, [m] leaves [f] of the object as it
    was and logs only events that satisfy [P]. *)
Definition keeps {A F} (f : SerialImpl -> F) (P : event -> Prop) (m : M A)
  : Prop :=
  forall s, f (state_of (m s)) = f s /\ Forall P (log_of (m s)).

(** [settles m]: [m] never ends [Pending]. *)
Definition settles {A} (m : M A) : Prop :=
  forall s, result_of (m s) <> Pending.

(** The events of configuration: no call frame, no [::open]. *)
Definition configuring (e : event) : Prop :=
  match e with
  | sys_tcgetattr _ | sys_tcsetattr _ _ | sys_ioctl_IOSSIOSPEED _ _
  | sys_ioctl_TIOCGSERIAL _ | sys_ioctl_TIOCSSERIAL _ _ _ => True
  | _ => False
  end.

(** The members [ReconfigurePort] only reads. *)
Definition configuration (s : SerialImpl) :=
  (port_ s, fd_ s, is_open_ s, timeout_ s,
   (baudrate_ s, parity_ s, bytesize_ s, stopbits_ s, flowcontrol_ s)).

(** The rate is one the host can program: an enumerated rate, or a custom
    rate whose ioctls the kernel accepts and, where the custom divisor is
    computed ([TIOCSSERIAL]), whose value as an [int] is not zero. *)
Definition baud_accepted (h : host) (os : reconf_os) (rate : Z) : bool :=
  match enumerated_baud h rate with
  | Some _ => true
  | None =>
      match custom_baud h with
      | IOSSIOSPEED_path => negb (ret (os_IOSSIOSPEED os) =? -1)
      | TIOCSSERIAL_path =>
          negb (ret (os_TIOCGSERIAL os) =? -1)
          && negb (to_int rate =? 0)
          && negb (ret (os_TIOCSSERIAL os) =? -1)
      | no_custom_path => false
      end
  end.



Definition valid_bytesize (b : Z) : bool :=
  (b =? fivebits) || (b =? sixbits) || (b =? sevenbits) || (b =? eightbits).

Definition valid_stopbits (sb : Z) : bool :=
  (sb =? stopbits_one) || (sb =? stopbits_one_point_five) || (sb =? stopbits_two).

Definition parity_supported (h : host) (p : Z) : bool :=
  (p =? parity_none) || (p =? parity_odd) || (p =? parity_even)
  || (has_CMSPAR h && ((p =? parity_mark) || (p =? parity_space))).

(** The estimate the configuration of [s] gives. *)
Definition estimate_of (s : SerialImpl) : Z :=
  byte_time_estimate (baudrate_ s) (bytesize_ s) (parity_ s) (stopbits_ s).

(** A successful run of [m] from a state configured like [c] has stored the
    estimate of [c]. *)
Definition updates_estimate {A} (c : SerialImpl) (m : M A) : Prop :=
  forall s, configuration s = configuration c ->
    forall a, result_of (m s) = Returned a ->
      byte_time_ns_ (state_of (m s)) = estimate_of c.

(** The bits the code counts per character: start bit and the three
    enumerators. *)
Definition counted_bits (bytesize parity stopbits : Z) : Z :=
  1 + bytesize + parity + stopbits.

(** The frame the specification's formula counts, doubled so that one and a
    half stop bits stay an integer: start bit, data bits, one parity bit
    unless parity is none, and the stop bits. *)
Definition wire_parity_bits (parity : Z) : Z :=
  if parity =? parity_none then 0 else 1.

Definition twice_stop_bits (stopbits : Z) : Z :=
  if stopbits =? stopbits_one then 2
  else if stopbits =? stopbits_one_point_five then 3
  else 4.

Definition spec_byte_time_doubled (baudrate bytesize parity stopbits : Z) : Z :=
  (1000000000 / baudrate)
  * (2 * (1 + bytesize + wire_parity_bits parity) + twice_stop_bits stopbits).

(** The deepest nesting of call frames a log shows, starting at [depth]. *)
Fixpoint nesting (depth : nat) (log : list event) : nat :=
  match log with
  | [] => depth
  | enter _ :: log' => nesting (S depth) log'
  | leave _ :: log' => Nat.max depth (nesting (Nat.pred depth) log')
  | _ :: log' => nesting depth log'
  end.


Definition is_sys_open (e : event) : bool :=
  match e with sys_open _ => true | _ => false end.

(** The number of [::open] attempts in a log. *)
Definition open_attempts (log : list event) : nat :=
  List.length (filter is_sys_open log).

(** An [::open] that was interrupted by a signal. *)
Definition interrupted : open_reply := failed EINTR.

Definition EBADF : Z := 9.

(** A pass of the polling loop that ends in the sleep: the query worked and
    no monitored line is asserted. *)
Definition idle_poll (it : poll_iter) : bool :=
  negb (ret (pi_TIOCMGET it) =? -1) && negb (line_asserted (pi_status it)).

(** The events the polling loop logs for the passes [its] when all of them
    end in the sleep. *)
Definition polling_log (fd : Z) (its : list poll_iter) : list event :=
  flat_map (fun _ => [sys_ioctl_TIOCMGET fd; sys_usleep 1000]) its.



(** [pselect] reported the descriptor ready. *)
Definition reported_ready (r : select_reply) : Prop :=
  0 < ret (sel r) /\ sel_isset r = true.

(** The replies of a well-behaved kernel: a transfer returns at most the
    count it was asked for. *)
Definition transfers_at_most_asked (transfer : Z -> Z) : Prop :=
  forall count, transfer count <= count.

(** What [pselect] makes of the [timespec] {0, tv_nsec} it is handed as a
    timeout: a [tv_nsec] outside [0, 10^9) is no valid [timespec], and
    the call fails at once with [EINVAL] instead of waiting (POSIX; Linux
    tests [timespec64_valid]). *)
Definition valid_tv_nsec (tv_nsec : Z) : bool :=
  (0 <=? tv_nsec) && (tv_nsec <? 1000000000).

(** The nanoseconds the sleeps of a log last: [WaitByteTimes] drops the
    result of [pselect], so a refused sleep goes unnoticed. *)
Fixpoint nanoseconds_slept (log : list event) : Z :=
  match log with
  | [] => 0
  | sys_pselect_sleep tv_nsec :: log' =>
      (if valid_tv_nsec tv_nsec then tv_nsec else 0) + nanoseconds_slept log'
  | _ :: log' => nanoseconds_slept log'
  end.

Definition is_sleep (e : event) : Prop :=
  match e with sys_pselect_sleep _ => True | _ => False end.

Definition any_event (e : event) : Prop := True.

(** * The rest of the class *)

(** ** Construction and destruction *)

(** Modelled from the spec: the default [Timeout] (serial.h is not among the
    sources); the constructor's initialiser list leaves [timeout_] to its
    default constructor and does not mention [byte_time_ns_] at all, so both
    are arguments here: whatever the default is, and whatever the
    uninitialised member happens to hold. *)
Definition initial_object (port : string)
    (baudrate bytesize parity stopbits flowcontrol : Z)
    (default_timeout : Timeout) (indeterminate : Z) : SerialImpl :=
  {| port_ := port; fd_ := -1; is_open_ := false;
     xonxoff_ := false; rtscts_ := false; timeout_ := default_timeout;
     baudrate_ := baudrate; byte_time_ns_ := indeterminate;
     parity_ := parity; bytesize_ := bytesize;
     stopbits_ := stopbits; flowcontrol_ := flowcontrol |}.

(** The body of the constructor, run on the initialised members. *)
Definition SerialImpl_constructor (h : host) (attempts : list open_reply)
    (os : reconf_os) : M unit :=
  port <- gets port_ ;;
  if negb (String.eqb port "") then Open h attempts os else pure tt.

(** [~SerialImpl()]: [Close()], then the mutexes are destroyed. *)
Definition SerialImpl_destructor (os_close : sysret) : M unit :=
  Close os_close.

Definition IsOpen : M bool := gets is_open_.

(** ** Setters and getters *)

Definition set_port (v : string) (s : SerialImpl) : SerialImpl :=
  {| port_ := v; fd_ := fd_ s; is_open_ := is_open_ s;
     xonxoff_ := xonxoff_ s; rtscts_ := rtscts_ s; timeout_ := timeout_ s;
     baudrate_ := baudrate_ s; byte_time_ns_ := byte_time_ns_ s;
     parity_ := parity_ s; bytesize_ := bytesize_ s;
     stopbits_ := stopbits_ s; flowcontrol_ := flowcontrol_ s |}.

Definition set_timeout (v : Timeout) (s : SerialImpl) : SerialImpl :=
  {| port_ := port_ s; fd_ := fd_ s; is_open_ := is_open_ s;
     xonxoff_ := xonxoff_ s; rtscts_ := rtscts_ s; timeout_ := v;
     baudrate_ := baudrate_ s; byte_time_ns_ := byte_time_ns_ s;
     parity_ := parity_ s; bytesize_ := bytesize_ s;
     stopbits_ := stopbits_ s; flowcontrol_ := flowcontrol_ s |}.

Definition set_bytesize (v : Z) (s : SerialImpl) : SerialImpl :=
  {| port_ := port_ s; fd_ := fd_ s; is_open_ := is_open_ s;
     xonxoff_ := xonxoff_ s; rtscts_ := rtscts_ s; timeout_ := timeout_ s;
     baudrate_ := baudrate_ s; byte_time_ns_ := byte_time_ns_ s;
     parity_ := parity_ s; bytesize_ := v;
     stopbits_ := stopbits_ s; flowcontrol_ := flowcontrol_ s |}.

Definition set_stopbits (v : Z) (s : SerialImpl) : SerialImpl :=
  {| port_ := port_ s; fd_ := fd_ s; is_open_ := is_open_ s;
     xonxoff_ := xonxoff_ s; rtscts_ := rtscts_ s; timeout_ := timeout_ s;
     baudrate_ := baudrate_ s; byte_time_ns_ := byte_time_ns_ s;
     parity_ := parity_ s; bytesize_ := bytesize_ s;
     stopbits_ := v; flowcontrol_ := flowcontrol_ s |}.

Definition set_flowcontrol (v : Z) (s : SerialImpl) : SerialImpl :=
  {| port_ := port_ s; fd_ := fd_ s; is_open_ := is_open_ s;
     xonxoff_ := xonxoff_ s; rtscts_ := rtscts_ s; timeout_ := timeout_ s;
     baudrate_ := baudrate_ s; byte_time_ns_ := byte_time_ns_ s;
     parity_ := parity_ s; bytesize_ := bytesize_ s;
     stopbits_ := stopbits_ s; flowcontrol_ := v |}.

Definition SetPort (port : string) : M unit := modify (set_port port).
Definition GetPort : M string := gets port_.

Definition SetTimeout (timeout : Timeout) : M unit := modify (set_timeout timeout).
Definition GetTimeout : M Timeout := gets timeout_.

Definition GetBaudrate : M Z := gets baudrate_.

Definition SetBytesize (h : host) (os : reconf_os) (bytesize : Z) : M unit :=
  modify (set_bytesize bytesize) ;;;
  is_open <- gets is_open_ ;;
  if is_open : bool then ReconfigurePort h os else pure tt.

Definition GetBytesize : M Z := gets bytesize_.

Definition GetParity : M Z := gets parity_.

Definition SetStopbits (h : host) (os : reconf_os) (stopbits : Z) : M unit :=
  modify (set_stopbits stopbits) ;;;
  is_open <- gets is_open_ ;;
  if is_open : bool then ReconfigurePort h os else pure tt.

Definition GetStopbits : M Z := gets stopbits_.

Definition SetFlowcontrol (h : host) (os : reconf_os) (flowcontrol : Z)
  : M unit :=
  modify (set_flowcontrol flowcontrol) ;;;
  is_open <- gets is_open_ ;;
  if is_open : bool then ReconfigurePort h os else pure tt.

Definition GetFlowcontrol : M Z := gets flowcontrol_.

(** ** Flushing, break and the modem lines *)

(** The calls these operations make.  They form a log of their own: none of
    these functions calls one of the functions above. *)
Inductive line_call : Type :=
| call_tcdrain (fd : Z)
| call_tcflush (fd : Z) (queue_selector : Z)
| call_tcsendbreak (fd : Z) (duration : Z)
| call_ioctl_TIOCSBRK (fd : Z)
| call_ioctl_TIOCCBRK (fd : Z)
| call_ioctl_TIOCMBIS (fd : Z) (bits : Z)
| call_ioctl_TIOCMBIC (fd : Z) (bits : Z)
| call_ioctl_TIOCMGET (fd : Z).

Definition TCIFLUSH : Z := 0.
Definition TCOFLUSH : Z := 1.
Definition TIOCM_DTR : Z := 2.
Definition TIOCM_RTS : Z := 4.

Definition LineOp (A : Type) : Type :=
  SerialImpl -> outcome A * SerialImpl * list line_call.

Definition line_result {A} (r : outcome A * SerialImpl * list line_call)
  : outcome A := fst (fst r).

Definition Flush : LineOp unit :=
  fun s =>
    if negb (is_open_ s)
    then (Thrown (PortNotOpenedException "Serial::flush"), s, [])
    else (Returned tt, s, [call_tcdrain (fd_ s)]).

Definition FlushInput : LineOp unit :=
  fun s =>
    if negb (is_open_ s)
    then (Thrown (PortNotOpenedException "Serial::flushInput"), s, [])
    else (Returned tt, s, [call_tcflush (fd_ s) TCIFLUSH]).

Definition FlushOutput : LineOp unit :=
  fun s =>
    if negb (is_open_ s)
    then (Thrown (PortNotOpenedException "Serial::flushOutput"), s, [])
    else (Returned tt, s, [call_tcflush (fd_ s) TCOFLUSH]).

(** [tcsendbreak(fd_, static_cast<int>(duration / 4))]: integer division. *)
Definition SendBreak (duration : Z) : LineOp unit :=
  fun s =>
    if negb (is_open_ s)
    then (Thrown (PortNotOpenedException "Serial::sendBreak"), s, [])
    else (Returned tt, s, [call_tcsendbreak (fd_ s) (Z.quot duration 4)]).

(** The exceptions of the next functions carry a text that ends with
    [errno] and its [strerror]; the embedding keeps the fixed part. *)
Definition SetBreak (level : bool) (r : sysret) : LineOp unit :=
  fun s =>
    if negb (is_open_ s)
    then (Thrown (PortNotOpenedException "Serial::setBreak"), s, [])
    else if level
    then
      if ret r =? -1
      then (Thrown (SerialException
                      "setBreak failed on a call to ioctl(TIOCSBRK): "),
            s, [call_ioctl_TIOCSBRK (fd_ s)])
      else (Returned tt, s, [call_ioctl_TIOCSBRK (fd_ s)])
    else
      if ret r =? -1
      then (Thrown (SerialException
                      "setBreak failed on a call to ioctl(TIOCCBRK): "),
            s, [call_ioctl_TIOCCBRK (fd_ s)])
      else (Returned tt, s, [call_ioctl_TIOCCBRK (fd_ s)]).

Definition SetRTS (level : bool) (r : sysret) : LineOp unit :=
  fun s =>
    if negb (is_open_ s)
    then (Thrown (PortNotOpenedException "Serial::setRTS"), s, [])
    else
      let command := TIOCM_RTS in
      if level
      then
        if ret r =? -1
        then (Thrown (SerialException
                        "setRTS failed on a call to ioctl(TIOCMBIS): "),
              s, [call_ioctl_TIOCMBIS (fd_ s) command])
        else (Returned tt, s, [call_ioctl_TIOCMBIS (fd_ s) command])
      else
        if ret r =? -1
        then (Thrown (SerialException
                        "setRTS failed on a call to ioctl(TIOCMBIC): "),
              s, [call_ioctl_TIOCMBIC (fd_ s) command])
        else (Returned tt, s, [call_ioctl_TIOCMBIC (fd_ s) command]).

Definition SetDTR (level : bool) (r : sysret) : LineOp unit :=
  fun s =>
    if negb (is_open_ s)
    then (Thrown (PortNotOpenedException "Serial::setDTR"), s, [])
    else
      let command := TIOCM_DTR in
      if level
      then
        if ret r =? -1
        then (Thrown (SerialException
                        "setDTR failed on a call to ioctl(TIOCMBIS): "),
              s, [call_ioctl_TIOCMBIS (fd_ s) command])
        else (Returned tt, s, [call_ioctl_TIOCMBIS (fd_ s) command])
      else
        if ret r =? -1
        then (Thrown (SerialException
                        "setDTR failed on a call to ioctl(TIOCMBIC): "),
              s, [call_ioctl_TIOCMBIC (fd_ s) command])
        else (Returned tt, s, [call_ioctl_TIOCMBIC (fd_ s) command]).

Definition GetCTS (r : sysret) (status : Z) : LineOp bool :=
  fun s =>
    if negb (is_open_ s)
    then (Thrown (PortNotOpenedException "Serial::getCTS"), s, [])
    else if ret r =? -1
    then (Thrown (SerialException
                    "getCTS failed on a call to ioctl(TIOCMGET): "),
          s, [call_ioctl_TIOCMGET (fd_ s)])
    else (Returned (negb (Z.land status Flag.TIOCM_CTS =? 0)), s,
          [call_ioctl_TIOCMGET (fd_ s)]).

Definition GetDSR (r : sysret) (status : Z) : LineOp bool :=
  fun s =>
    if negb (is_open_ s)
    then (Thrown (PortNotOpenedException "Serial::getDSR"), s, [])
    else if ret r =? -1
    then (Thrown (SerialException
                    "getDSR failed on a call to ioctl(TIOCMGET): "),
          s, [call_ioctl_TIOCMGET (fd_ s)])
    else (Returned (negb (Z.land status Flag.TIOCM_DSR =? 0)), s,
          [call_ioctl_TIOCMGET (fd_ s)]).

Definition GetRI (r : sysret) (status : Z) : LineOp bool :=
  fun s =>
    if negb (is_open_ s)
    then (Thrown (PortNotOpenedException "Serial::getRI"), s, [])
    else if ret r =? -1
    then (Thrown (SerialException
                    "getRI failed on a call to ioctl(TIOCMGET): "),
          s, [call_ioctl_TIOCMGET (fd_ s)])
    else (Returned (negb (Z.land status Flag.TIOCM_RI =? 0)), s,
          [call_ioctl_TIOCMGET (fd_ s)]).

Definition GetCD (r : sysret) (status : Z) : LineOp bool :=
  fun s =>
    if negb (is_open_ s)
    then (Thrown (PortNotOpenedException "Serial::getCD"), s, [])
    else if ret r =? -1
    then (Thrown (SerialException
                    "getCD failed on a call to ioctl(TIOCMGET): "),
          s, [call_ioctl_TIOCMGET (fd_ s)])
    else (Returned (negb (Z.land status Flag.TIOCM_CD =? 0)), s,
          [call_ioctl_TIOCMGET (fd_ s)]).

(** ** Notions used in the statements about the rest *)

(** The flag groups [ReconfigurePort] works on. *)
Definition LOCAL_RAW : Z :=
  Z.lor Flag.ICANON (Z.lor Flag.ECHO (Z.lor Flag.ECHOE (Z.lor Flag.ECHOK
    (Z.lor Flag.ECHONL (Z.lor Flag.ISIG Flag.IEXTEN))))).

Definition INPUT_RAW : Z :=
  Z.lor Flag.INLCR (Z.lor Flag.IGNCR (Z.lor Flag.ICRNL (Z.lor Flag.IGNBRK
    (Z.lor Flag.IUCLC Flag.PARMRK)))).

Definition INPUT_PARITY : Z := Z.lor Flag.INPCK Flag.ISTRIP.
Definition INPUT_XONXOFF : Z := Z.lor Flag.IXON (Z.lor Flag.IXOFF Flag.IXANY).
Definition CONTROL_LOCAL : Z := Z.lor Flag.CLOCAL Flag.CREAD.
Definition CONTROL_PARITY : Z :=
  Z.lor Flag.PARENB (Z.lor Flag.PARODD Flag.CMSPAR).

(** The bits of the control flags that hold the speed. *)
Definition SPEED_BITS : Z := Z.lor Flag.CBAUD Flag.CBAUDEX.

(** The control and input flags [ReconfigurePort] decides. *)
Definition CONTROL_OWNED : Z :=
  Z.lor CONTROL_LOCAL (Z.lor Flag.CSIZE (Z.lor Flag.CSTOPB
    (Z.lor CONTROL_PARITY Flag.CRTSCTS))).

Definition INPUT_OWNED : Z :=
  Z.lor INPUT_RAW (Z.lor INPUT_PARITY INPUT_XONXOFF).

(** The flag words [a] and [b] agree on every bit outside the mask [m]
    (flag words are 32 bits wide). *)
Definition agree_outside (m a b : Z) : Prop :=
  forall k, 0 <= k < 2 ^ 32 -> Z.land m k = 0 -> Z.land a k = Z.land b k.

(** A kernel that reports a line left at 38400 baud ([B38400] is 15) with
    hang-up on close, for evaluation. *)
Definition used_termios : termios :=
  {| c_iflag := 0; c_oflag := 0; c_cflag := Z.lor Flag.HUPCL 15; c_lflag := 0;
     c_cc_VMIN := 1; c_cc_VTIME := 0; c_ispeed := 15; c_ospeed := 15 |}.

Definition used_os : reconf_os :=
  {| os_tcgetattr := ok; os_termios := used_termios; os_IOSSIOSPEED := ok;
     os_TIOCGSERIAL := ok; os_baud_base := 24000000; os_ser_flags := 0;
     os_TIOCSSERIAL := ok; os_tcsetattr := ok |}.

(** The settings a log shows being handed to [tcsetattr]. *)
Definition programs (log : list event) (o : termios) : Prop :=
  exists fd, In (sys_tcsetattr fd o) log.

Definition is_tcsetattr (e : event) : Prop :=
  match e with sys_tcsetattr _ _ => True | _ => False end.

(** The readiness wait came back without the descriptor being ready: it
    timed out, or a signal interrupted it. *)
Definition not_ready (r : select_reply) : Prop :=
  ret (sel r) = 0 \/ (ret (sel r) < 0 /\ errno (sel r) = EINTR).

(** A pass of the [Read] loop on a quiet line: time is left on the timer and
    the readiness wait reports nothing. *)
Definition idle_pass (timer : MilliTimer) (it : read_iter) : Prop :=
  0 < Remaining timer (ri_now it) /\ not_ready (ri_select it).

(** What such passes log: the timer reading and the wait, pass by pass. *)
Definition idle_log (timer : MilliTimer) (inter_byte fd : Z)
    (its : list read_iter) : list event :=
  flat_map (fun it =>
              [timer_remaining (Remaining timer (ri_now it));
               sys_pselect_read fd
                 (Z.min (to_uint32 (Remaining timer (ri_now it))) inter_byte)])
           its.

(** The pass at which a [Write] may stop short: the deadline has passed, or
    the readiness wait timed out. *)
Definition write_gives_up (timer : MilliTimer) (it : write_iter) : Prop :=
  Remaining timer (wi_now it) <= 0 \/ ret (sel (wi_select it)) = 0.

(** The state every operation maintains: a port marked open has a
    descriptor, and at most one of the two handshakes is selected. *)
Definition well_formed (s : SerialImpl) : Prop :=
  (is_open_ s = true -> fd_ s <> -1) /\ xonxoff_ s && rtscts_ s = false.

(** A setter records [v] whatever happens next, so that the getter returns
    it afterwards: on a closed port nothing else is done; on an open port
    the port is reconfigured, and when that fails the member keeps the new
    value although no settings have reached [tcsetattr]. *)
Definition stores_without_rollback (get : M Z) (set : Z -> M unit) : Prop :=
  forall v s,
    result_of (get (state_of (set v s))) = Returned v
    /\ (is_open_ s = false ->
          result_of (set v s) = Returned tt /\ log_of (set v s) = [])
    /\ (result_of (set v s) <> Returned tt ->
          forall o, ~ programs (log_of (set v s)) o).

(** * Properties *)

(** ** The monad *)

Lemma triple_eta {A} (r : outcome A * SerialImpl * list event) :
  r = (result_of r, state_of r, log_of r).
Proof. destruct r as [[o s] t]. reflexivity. Qed.

Ltac run_monad :=
  cbv [bind pure throw trap pending gets modify emit
       result_of state_of log_of fst snd].

(** ** Close *)

Lemma Close_on_closed os s :
  is_open_ s = false -> Close os s = (Returned tt, s, []).
Proof. intros E. unfold Close. run_monad. rewrite E. reflexivity. Qed.

Lemma Close_released os s :
  is_open_ s = true -> fd_ s <> -1 -> ret os = 0 ->
  Close os s =
    (Returned tt, set_is_open false (set_fd (-1) s), [sys_close (fd_ s)]).
Proof.
  intros E F R. unfold Close. run_monad. rewrite E.
  destruct (Z.eqb_spec (fd_ s) (-1)) as [|_]; [contradiction|].
  cbn. rewrite R. reflexivity.
Qed.

Lemma Close_failed os s :
  is_open_ s = true -> fd_ s <> -1 -> ret os <> 0 ->
  Close os s = (Thrown (IOException_errno (errno os)), s, [sys_close (fd_ s)]).
Proof.
  intros E F R. unfold Close. run_monad. rewrite E.
  destruct (Z.eqb_spec (fd_ s) (-1)) as [|_]; [contradiction|].
  cbn. destruct (Z.eqb_spec (ret os) 0) as [|_]; [contradiction|].
  reflexivity.
Qed.

Lemma Close_without_handle os s :
  is_open_ s = true -> fd_ s = -1 ->
  Close os s = (Returned tt, set_is_open false s, []).
Proof.
  intros E F. unfold Close. run_monad. rewrite E, F. reflexivity.
Qed.

(** C4, as the code has it.  On a closed port [Close] does nothing.  On an
    open port with a handle it asks the OS to close it: when the OS reports
    success the handle is reset and the port is marked closed; when the OS
    reports an error [Close] fails with the I/O condition carrying [errno]
    and leaves the object as it was, still marked open with its handle.
    So the port is marked closed afterwards exactly when [Close] returns,
    and a second [Close] after one that returned is a no-op. *)
Theorem Close_marks_closed_iff_it_returns (os os2 : sysret) (s : SerialImpl) :
  (is_open_ s = false -> Close os s = (Returned tt, s, [])) /\
  (is_open_ s = true -> fd_ s <> -1 -> ret os = 0 ->
     Close os s =
       (Returned tt, set_is_open false (set_fd (-1) s), [sys_close (fd_ s)])) /\
  (is_open_ s = true -> fd_ s <> -1 -> ret os <> 0 ->
     Close os s =
       (Thrown (IOException_errno (errno os)), s, [sys_close (fd_ s)])) /\
  (is_open_ (state_of (Close os s)) = false <->
     result_of (Close os s) = Returned tt) /\
  (result_of (Close os s) = Returned tt ->
     Close os2 (state_of (Close os s)) =
       (Returned tt, state_of (Close os s), [])).
Proof.
  split; [apply Close_on_closed|].
  split; [apply Close_released|].
  split; [apply Close_failed|].
  assert (I : is_open_ (state_of (Close os s)) = false <->
              result_of (Close os s) = Returned tt).
  { destruct (is_open_ s) eqn:E.
    - destruct (Z.eq_dec (fd_ s) (-1)) as [F|F].
      + rewrite (Close_without_handle os s E F). cbn. tauto.
      + destruct (Z.eq_dec (ret os) 0) as [R|R].
        * rewrite (Close_released os s E F R). cbn. tauto.
        * rewrite (Close_failed os s E F R). cbn. rewrite E.
          split; intros H; discriminate H.
    - rewrite (Close_on_closed os s E). cbn. tauto. }
  split; [exact I|].
  intros R. apply Close_on_closed. apply I. exact R.
Qed.

(** C4, the sentence of the specification fails where the OS close reports an
    error: the call throws before the port is marked closed. *)
Lemma Close_error_leaves_port_marked_open :
  result_of (Close (failed 5) (sample_port true)) = Thrown (IOException_errno 5)
  /\ is_open_ (state_of (Close (failed 5) (sample_port true))) <> false.
Proof. split; [reflexivity | discriminate]. Qed.

Lemma Close_marks_closed_iff_it_returns_witness :
  Close (failed 5) (sample_port true)
    = (Thrown (IOException_errno 5), sample_port true, [sys_close 3])
  /\ Close ok (sample_port true)
    = (Returned tt, set_is_open false (set_fd (-1) (sample_port true)),
       [sys_close 3]).
Proof.
  split.
  - apply (proj1 (proj2 (proj2
      (Close_marks_closed_iff_it_returns (failed 5) ok (sample_port true)))));
      [reflexivity | discriminate | discriminate].
  - apply (proj1 (proj2
      (Close_marks_closed_iff_it_returns ok ok (sample_port true))));
      [reflexivity | discriminate | reflexivity].
Defined.

(** ** What a computation keeps, logs and whether it settles *)

Section Keeps.
Context {F : Type} (f : SerialImpl -> F) (P : event -> Prop).

Lemma keeps_pure {A} (a : A) : keeps f P (pure a).
Proof. intros s. cbn. auto. Qed.

Lemma keeps_throw {A} (e : exn) : keeps f P (@throw A e).
Proof. intros s. cbn. auto. Qed.

Lemma keeps_trap {A} : keeps f P (@trap A).
Proof. intros s. cbn. auto. Qed.

Lemma keeps_pending {A} : keeps f P (@pending A).
Proof. intros s. cbn. auto. Qed.

Lemma keeps_gets {A} (g : SerialImpl -> A) : keeps f P (gets g).
Proof. intros s. cbn. auto. Qed.

Lemma keeps_emit (e : event) : P e -> keeps f P (emit e).
Proof. intros H s. cbn. auto. Qed.

Lemma keeps_modify (g : SerialImpl -> SerialImpl) :
  (forall s, f (g s) = f s) -> keeps f P (modify g).
Proof. intros H s. cbn. auto. Qed.

Lemma keeps_bind {A B} (m : M A) (k : A -> M B) :
  keeps f P m -> (forall a, keeps f P (k a)) -> keeps f P (bind m k).
Proof.
  intros Hm Hk s. specialize (Hm s). unfold bind.
  destruct (m s) as [[[a| e | |] s1] t1]; cbn in *; auto.
  specialize (Hk a s1). destruct (k a s1) as [[o s2] t2]. cbn in *.
  destruct Hm as [Hm1 Hm2], Hk as [Hk1 Hk2].
  split; [congruence | apply Forall_app; auto].
Qed.

End Keeps.

Lemma settles_pure {A} (a : A) : settles (pure a).
Proof. intros s. cbn. discriminate. Qed.

Lemma settles_throw {A} (e : exn) : settles (@throw A e).
Proof. intros s. cbn. discriminate. Qed.

Lemma settles_trap {A} : settles (@trap A).
Proof. intros s. cbn. discriminate. Qed.

Lemma settles_gets {A} (g : SerialImpl -> A) : settles (gets g).
Proof. intros s. cbn. discriminate. Qed.

Lemma settles_emit (e : event) : settles (emit e).
Proof. intros s. cbn. discriminate. Qed.

Lemma settles_modify (g : SerialImpl -> SerialImpl) : settles (modify g).
Proof. intros s. cbn. discriminate. Qed.

Lemma settles_bind {A B} (m : M A) (k : A -> M B) :
  settles m -> (forall a, settles (k a)) -> settles (bind m k).
Proof.
  intros Hm Hk s. specialize (Hm s). unfold bind.
  destruct (m s) as [[[a| e | |] s1] t1]; cbn in *;
    try discriminate; try congruence.
  specialize (Hk a s1). destruct (k a s1) as [[o s2] t2]. exact Hk.
Qed.

(** Walk through a computation built from the combinators. *)
Ltac keeps_step :=
  first
    [ apply keeps_pure | apply keeps_throw | apply keeps_trap
    | apply keeps_pending | apply keeps_gets
    | apply keeps_emit; cbn; auto
    | apply keeps_modify; intros; reflexivity
    | apply keeps_bind; [| intros ]
    | match goal with
      | |- keeps _ _ (if ?b then _ else _) => destruct b
      | |- keeps _ _ (match ?x with _ => _ end) => destruct x
      | |- keeps _ _ (let _ := _ in _) => cbv zeta
      end ].

Ltac settles_step :=
  first
    [ apply settles_pure | apply settles_throw | apply settles_trap
    | apply settles_gets | apply settles_emit | apply settles_modify
    | apply settles_bind; [| intros ]
    | match goal with
      | |- settles (if ?b then _ else _) => destruct b
      | |- settles (match ?x with _ => _ end) => destruct x
      | |- settles (let _ := _ in _) => cbv zeta
      end ].

(** ** ReconfigurePort: what it touches *)

Lemma ReconfigurePort_keeps h os :
  keeps configuration configuring (ReconfigurePort h os).
Proof.
  unfold ReconfigurePort, setup_baud, setup_char_len, setup_stopbits,
    setup_parity, setup_flow_control.
  repeat keeps_step.
Qed.

Lemma ReconfigurePort_settles h os : settles (ReconfigurePort h os).
Proof.
  unfold ReconfigurePort, setup_baud, setup_char_len, setup_stopbits,
    setup_parity, setup_flow_control.
  repeat settles_step.
Qed.

(** ** ReconfigurePort: when it divides by zero *)














(** ** ReconfigurePort: when it succeeds *)

Lemma setup_baud_returns h os o s :
  baud_accepted h os (baudrate_ s) = true ->
  exists o' t, setup_baud h os o s = (Returned o', s, t).
Proof.
  unfold baud_accepted, setup_baud. run_monad.
  destruct (enumerated_baud h (baudrate_ s)); [eauto|].
  destruct (custom_baud h); intros H; try discriminate H.
  - destruct (ret (os_IOSSIOSPEED os) =? -1); [discriminate H|]. eauto.
  - destruct (ret (os_TIOCGSERIAL os) =? -1); [discriminate H|].
    destruct (to_int (baudrate_ s) =? 0); [discriminate H|].
    destruct (ret (os_TIOCSSERIAL os) =? -1); [discriminate H|]. eauto.
Qed.

Lemma setup_char_len_returns o s :
  valid_bytesize (bytesize_ s) = true ->
  exists o', setup_char_len o s = (Returned o', s, []).
Proof.
  unfold valid_bytesize, setup_char_len. run_monad. intros H.
  destruct (bytesize_ s =? eightbits); [eauto|].
  destruct (bytesize_ s =? sevenbits); [eauto|].
  destruct (bytesize_ s =? sixbits); [eauto|].
  destruct (bytesize_ s =? fivebits); [eauto|]. discriminate H.
Qed.

Lemma setup_stopbits_returns o s :
  valid_stopbits (stopbits_ s) = true ->
  exists o', setup_stopbits o s = (Returned o', s, []).
Proof.
  unfold valid_stopbits, setup_stopbits. run_monad. intros H.
  destruct (stopbits_ s =? stopbits_one); [eauto|].
  destruct (stopbits_ s =? stopbits_one_point_five); [eauto|].
  destruct (stopbits_ s =? stopbits_two); [eauto|]. discriminate H.
Qed.

Lemma setup_parity_returns h o s :
  parity_supported h (parity_ s) = true ->
  exists o', setup_parity h o s = (Returned o', s, []).
Proof.
  unfold parity_supported, setup_parity. run_monad. intros H.
  destruct (parity_ s =? parity_none); [eauto|].
  destruct (parity_ s =? parity_even); [eauto|].
  destruct (parity_ s =? parity_odd); [eauto|].
  destruct (has_CMSPAR h); [|discriminate H].
  destruct (parity_ s =? parity_mark); [eauto|].
  destruct (parity_ s =? parity_space); [eauto|]. discriminate H.
Qed.

Lemma setup_flow_control_returns o s :
  exists o' s', setup_flow_control o s = (Returned o', s', [])
                /\ configuration s' = configuration s.
Proof.
  unfold setup_flow_control. run_monad.
  destruct (flowcontrol_ s =? flowcontrol_none),
           (flowcontrol_ s =? flowcontrol_software),
           (flowcontrol_ s =? flowcontrol_hardware); cbn; eauto.
Qed.

Lemma ReconfigurePort_succeeds h os s :
  fd_ s <> -1 ->
  ret (os_tcgetattr os) <> -1 ->
  baud_accepted h os (baudrate_ s) = true ->
  valid_bytesize (bytesize_ s) = true ->
  valid_stopbits (stopbits_ s) = true ->
  parity_supported h (parity_ s) = true ->
  result_of (ReconfigurePort h os s) = Returned tt /\
  byte_time_ns_ (state_of (ReconfigurePort h os s)) =
    byte_time_estimate (baudrate_ s) (bytesize_ s) (parity_ s) (stopbits_ s) /\
  configuration (state_of (ReconfigurePort h os s)) = configuration s /\
  exists o, In (sys_tcsetattr (fd_ s) o) (log_of (ReconfigurePort h os s)).
Proof.
  intros Hfd Hget Hbaud Hsize Hstop Hpar.
  destruct (setup_baud_returns h os (raw_mode (os_termios os)) s Hbaud)
    as (o1 & t1 & E1).
  destruct (setup_char_len_returns o1 s Hsize) as (o2 & E2).
  destruct (setup_stopbits_returns o2 s Hstop) as (o3 & E3).
  destruct (setup_parity_returns h o3 s Hpar) as (o4 & E4).
  destruct (setup_flow_control_returns o4 s) as (o5 & s5 & E5 & C5).
  unfold ReconfigurePort. run_monad.
  destruct (Z.eqb_spec (fd_ s) (-1)) as [|_]; [contradiction|].
  destruct (Z.eqb_spec (ret (os_tcgetattr os)) (-1)) as [|_]; [contradiction|].
  rewrite E1, E2, E3, E4, E5.
  unfold configuration in C5.
  injection C5 as Cport Cfd Copen Ctimeout Cbaud Cpar Csize Cstop Cflow.
  cbn. split; [reflexivity|]. split; [congruence|].
  split; [unfold configuration; cbn; congruence|].
  exists (with_polling_read o5). right. apply in_or_app. right. left.
  reflexivity.
Qed.

Lemma updates_estimate_bind {A B} c (m : M A) (k : A -> M B) :
  keeps configuration configuring m ->
  (forall a, updates_estimate c (k a)) ->
  updates_estimate c (bind m k).
Proof.
  intros Hm Hk s C b. specialize (Hm s). unfold bind.
  destruct (m s) as [[[a| e | |] s1] t1]; cbn in *; try discriminate.
  specialize (Hk a s1). destruct Hm as [Hm _].
  destruct (k a s1) as [[o s2] t2]. cbn in *. intros ->.
  apply (Hk (eq_trans Hm C) b). reflexivity.
Qed.

Lemma updates_estimate_fails {A} c (m : M A) :
  (forall s a, result_of (m s) <> Returned a) -> updates_estimate c m.
Proof. intros N s _ a R. destruct (N s a R). Qed.

Lemma setup_baud_keeps h os o :
  keeps configuration configuring (setup_baud h os o).
Proof. unfold setup_baud. repeat keeps_step. Qed.

Lemma setup_char_len_keeps o : keeps configuration configuring (setup_char_len o).
Proof. unfold setup_char_len. repeat keeps_step. Qed.

Lemma setup_stopbits_keeps o : keeps configuration configuring (setup_stopbits o).
Proof. unfold setup_stopbits. repeat keeps_step. Qed.

Lemma setup_parity_keeps h o : keeps configuration configuring (setup_parity h o).
Proof. unfold setup_parity. repeat keeps_step. Qed.

Lemma setup_flow_control_keeps o :
  keeps configuration configuring (setup_flow_control o).
Proof. unfold setup_flow_control. repeat keeps_step. Qed.

Lemma ReconfigurePort_updates_estimate h os s :
  result_of (ReconfigurePort h os s) = Returned tt ->
  byte_time_ns_ (state_of (ReconfigurePort h os s)) = estimate_of s.
Proof.
  intros R.
  refine ((_ : updates_estimate s (ReconfigurePort h os)) s eq_refl tt R).
  unfold ReconfigurePort.
  apply updates_estimate_bind; [repeat keeps_step | intros fd].
  destruct (fd =? -1);
    [apply updates_estimate_fails; intros; cbn; discriminate|].
  apply updates_estimate_bind; [repeat keeps_step | intros _].
  destruct (ret (os_tcgetattr os) =? -1);
    [apply updates_estimate_fails; intros; cbn; discriminate|].
  apply updates_estimate_bind; [apply setup_baud_keeps | intros o1].
  apply updates_estimate_bind; [apply setup_char_len_keeps | intros o2].
  apply updates_estimate_bind; [apply setup_stopbits_keeps | intros o3].
  apply updates_estimate_bind; [apply setup_parity_keeps | intros o4].
  apply updates_estimate_bind; [apply setup_flow_control_keeps | intros o5].
  apply updates_estimate_bind; [repeat keeps_step | intros _].
  intros s0 C a _. cbn. unfold estimate_of, configuration in *.
  injection C as Cport Cfd Copen Ctimeout Cbaud Cpar Csize Cstop Cflow.
  congruence.
Qed.

(** ** The byte-time estimate as a number *)

Lemma to_uint32_small z : 0 <= z < UINT32_MOD -> to_uint32 z = z.
Proof. intros H. unfold to_uint32. apply Z.mod_small. exact H. Qed.

Lemma bit_time_ns_quotient b : 1 <= b -> bit_time_ns b = 1000000000 / b.
Proof.
  intros H. unfold bit_time_ns. apply to_uint32_small. split.
  - apply Z.div_pos; lia.
  - apply Z.le_lt_trans with (m := 1000000000).
    + apply Z.div_le_upper_bound; nia.
    + unfold UINT32_MOD. lia.
Qed.

Lemma bit_time_ns_bounds b :
  4 <= b -> 0 <= bit_time_ns b <= 250000000.
Proof.
  intros H. rewrite bit_time_ns_quotient by lia. split.
  - apply Z.div_pos; lia.
  - apply Z.div_le_upper_bound; nia.
Qed.



Lemma valid_bytesize_range b : valid_bytesize b = true -> 5 <= b <= 8.
Proof. unfold valid_bytesize, fivebits, sixbits, sevenbits, eightbits. lia. Qed.



(** Away from the 32-bit wrap-around (rates of 4 baud and more) the estimate
    is the plain product, less one and a half bit times for 1.5 stop bits. *)
Lemma byte_time_estimate_plain b bs p sb :
  4 <= b -> 5 <= bs <= 8 -> 0 <= p <= 4 -> 1 <= sb <= 3 ->
  byte_time_estimate b bs p sb =
    if sb =? stopbits_one_point_five
    then bit_time_ns b * (2 * counted_bits bs p sb - 3) / 2
    else bit_time_ns b * counted_bits bs p sb.
Proof.
  intros Hb Hbs Hp Hsb.
  pose proof (bit_time_ns_bounds b Hb) as Hbit.
  unfold byte_time_estimate, byte_time_product, counted_bits.
  assert (P : to_uint32 (bit_time_ns b * (1 + bs + p + sb))
              = bit_time_ns b * (1 + bs + p + sb)).
  { apply to_uint32_small. unfold UINT32_MOD. nia. }
  rewrite P. destruct (sb =? stopbits_one_point_five); [|reflexivity].
  unfold one_point_five_compensation, stopbits_one_point_five.
  replace (2 * (bit_time_ns b * (1 + bs + p + sb)) + (3 - 2 * 3) * bit_time_ns b)
    with (bit_time_ns b * (2 * (1 + bs + p + sb) - 3)) by ring.
  rewrite Z.quot_div_nonneg by nia.
  apply to_uint32_small. split.
  - apply Z.div_pos; nia.
  - apply Z.div_lt_upper_bound; unfold UINT32_MOD; nia.
Qed.



(** Where the parity enumerator equals the number of parity bits (none and
    odd) the code's estimate is the specification's formula, to the
    nanosecond the 32-bit integer can hold. *)
Lemma byte_time_estimate_agrees_for_none_and_odd b bs p sb :
  4 <= b -> 5 <= bs <= 8 -> 0 <= p <= 1 -> 1 <= sb <= 3 ->
  byte_time_estimate b bs p sb = spec_byte_time_doubled b bs p sb / 2.
Proof.
  intros Hb Hbs Hp Hsb.
  rewrite byte_time_estimate_plain by lia.
  unfold spec_byte_time_doubled, counted_bits, wire_parity_bits,
    twice_stop_bits, parity_none, stopbits_one, stopbits_one_point_five.
  rewrite bit_time_ns_quotient by lia.
  set (q := 1000000000 / b).
  assert (W : (if p =? 0 then 0 else 1) = p)
    by (destruct (Z.eqb_spec p 0); lia).
  rewrite W.
  destruct (Z.eqb_spec sb 3) as [-> | N3].
  - change (3 =? 1) with false. cbv iota. f_equal. ring.
  - destruct (Z.eqb_spec sb 1) as [-> | N1].
    + replace (q * (2 * (1 + bs + p) + 2)) with (q * (1 + bs + p + 1) * 2)
        by ring.
      now rewrite Z.div_mul.
    + assert (sb = 2) as -> by lia.
      replace (q * (2 * (1 + bs + p) + 4)) with (q * (1 + bs + p + 2) * 2)
        by ring.
      now rewrite Z.div_mul.
Qed.


(** Whatever integer below 2^15 stands for a parity, the estimate of a
    9600 baud, 8 data bit, 1 stop bit frame is the specification's
    1145826 ns only when that integer is 1: of enumerators with distinct
    values at most one is counted as a single parity bit. *)
Lemma only_enumerator_one_counts_one_parity_bit p :
  0 <= p < 2 ^ 15 ->
  2 * byte_time_estimate 9600 eightbits p stopbits_one
    = spec_byte_time_doubled 9600 eightbits parity_odd stopbits_one ->
  p = 1.
Proof.
  intros Hp. unfold byte_time_estimate, byte_time_product.
  change (stopbits_one =? stopbits_one_point_five) with false. cbv iota.
  change (bit_time_ns 9600) with 104166.
  change (spec_byte_time_doubled 9600 eightbits parity_odd stopbits_one)
    with 2291652.
  unfold eightbits, stopbits_one.
  rewrite to_uint32_small by (unfold UINT32_MOD; lia). lia.
Qed.

(** ** Reconfiguration through the setters *)


Lemma SetParity_on_open h os p s :
  is_open_ s = true ->
  SetParity h os p s = ReconfigurePort h os (set_parity p s).
Proof.
  intros E. unfold SetParity. run_monad.
  cbn [set_parity is_open_]. rewrite E.
  destruct (ReconfigurePort h os (set_parity p s)) as [[o s'] t].
  reflexivity.
Qed.

(** C3.  Setting even parity on an open 9600 baud, 8 data bit, 1 stop bit
    port reconfigures it successfully and stores 104166 * (1 + 8 + 2 + 1)
    = 1249992 ns: the parity enumerator 2 is counted as two bits.  The
    specification's formula, with one parity bit on the wire, gives
    104166 * (1 + 8 + 1 + 1) = 1145826 ns. *)
Theorem byte_time_counts_parity_enumerator :
  result_of (SetParity linux willing_os parity_even (sample_port true))
    = Returned tt
  /\ byte_time_ns_
       (state_of (SetParity linux willing_os parity_even (sample_port true)))
     = 1249992
  /\ spec_byte_time_doubled 9600 eightbits parity_even stopbits_one
     = 2 * 1145826
  /\ 2 * byte_time_ns_
           (state_of
              (SetParity linux willing_os parity_even (sample_port true)))
     <> spec_byte_time_doubled 9600 eightbits parity_even stopbits_one.
Proof. vm_compute. repeat split. discriminate. Qed.




(** C10.  The reply of [tcsetattr] plays no part in [ReconfigurePort]: the
    outcome, the object and the calls made are the same whatever it is.  In
    particular when every check before it passes and the kernel rejects the
    new settings, [ReconfigurePort] has called [tcsetattr], returns
    normally and has stored the estimate of the configuration. *)
Theorem ReconfigurePort_drops_tcsetattr_result
    (h : host) (os : reconf_os) (s : SerialImpl) (e : Z) :
  fd_ s <> -1 ->
  ret (os_tcgetattr os) <> -1 ->
  baud_accepted h os (baudrate_ s) = true ->
  valid_bytesize (bytesize_ s) = true ->
  valid_stopbits (stopbits_ s) = true ->
  parity_supported h (parity_ s) = true ->
  let rejected := with_tcsetattr (failed e) os in
  ReconfigurePort h rejected s = ReconfigurePort h os s
  /\ result_of (ReconfigurePort h rejected s) = Returned tt
  /\ byte_time_ns_ (state_of (ReconfigurePort h rejected s)) = estimate_of s
  /\ exists o, In (sys_tcsetattr (fd_ s) o)
                  (log_of (ReconfigurePort h rejected s)).
Proof.
  intros Hfd Hget Hbaud Hsize Hstop Hpar rejected.
  assert (E : ReconfigurePort h rejected s = ReconfigurePort h os s)
    by reflexivity.
  split; [exact E|]. rewrite E.
  destruct (ReconfigurePort_succeeds h os s) as (R & T & _ & L); auto.
Qed.

Lemma ReconfigurePort_drops_tcsetattr_result_witness :
  result_of
    (ReconfigurePort linux (with_tcsetattr (failed 22) willing_os)
       (sample_port true)) = Returned tt
  /\ byte_time_ns_
       (state_of
          (ReconfigurePort linux (with_tcsetattr (failed 22) willing_os)
             (sample_port true))) = 1041660.
Proof.
  assert (H := ReconfigurePort_drops_tcsetattr_result
                 linux willing_os (sample_port true) 22).
  destruct H as (_ & R & T & _);
    try reflexivity; try (simpl; lia).
  split; [exact R | exact T].
Defined.


(** ** Open: one nested activation per interrupted attempt *)

Lemma nesting_app_leave d log f :
  nesting d (log ++ [leave f]) = nesting d log.
Proof.
  revert d. induction log as [|e log IH]; intros d; cbn.
  - lia.
  - destruct e; rewrite ?IH; reflexivity.
Qed.

Lemma nesting_configuring d log log' :
  Forall configuring log -> nesting d (log ++ log') = nesting d log'.
Proof.
  induction 1 as [|e log He _ IH]; [reflexivity|].
  destruct e; cbn in *; try contradiction; exact IH.
Qed.

Lemma open_attempts_app log log' :
  open_attempts (log ++ log') = (open_attempts log + open_attempts log')%nat.
Proof. unfold open_attempts. rewrite filter_app, length_app. reflexivity. Qed.

Lemma open_attempts_configuring log :
  Forall configuring log -> open_attempts log = 0%nat.
Proof.
  induction 1 as [|e log He _ IH]; [reflexivity|].
  destruct e; cbn in *; try contradiction; exact IH.
Qed.

(** The last attempt, which is not an interrupted one. *)
Lemma Open_last_attempt h r rest os s d :
  port_ s <> "" -> is_open_ s = false ->
  (ret r =? -1) && (errno r =? EINTR) = false ->
  result_of (Open h (r :: rest) os s) <> Pending
  /\ nesting d (log_of (Open h (r :: rest) os s)) = S d
  /\ open_attempts (log_of (Open h (r :: rest) os s)) = 1%nat.
Proof.
  intros Hport Hclosed Hr. cbn [Open]. run_monad.
  destruct (String.eqb_spec (port_ s) "") as [|_]; [contradiction|].
  rewrite Hclosed.
  destruct (ret r =? -1) eqn:Efd.
  - cbn in Hr. rewrite Hr.
    destruct ((errno r =? ENFILE) || (errno r =? EMFILE)); cbn;
      (split; [discriminate | split; reflexivity]).
  - pose proof (ReconfigurePort_keeps h os (set_fd (ret r) s)) as [_ Hlog].
    pose proof (ReconfigurePort_settles h os (set_fd (ret r) s)) as Hset.
    destruct (ReconfigurePort h os (set_fd (ret r) s)) as [[[[]| e | |] s'] t];
      cbn [result_of state_of log_of fst snd app] in *; try congruence;
      (split; [discriminate|]).
    + split.
      * cbn [nesting]. rewrite nesting_configuring by assumption.
        cbn [nesting Nat.pred]. lia.
      * change (open_attempts
                  ([enter "Open"; sys_open (port_ s)] ++ t ++ [leave "Open"])
                = 1%nat).
        rewrite !open_attempts_app, (open_attempts_configuring t Hlog).
        reflexivity.
    + split.
      * cbn [nesting]. rewrite <- (app_nil_r t).
        rewrite nesting_configuring by assumption. reflexivity.
      * change (open_attempts ([enter "Open"; sys_open (port_ s)] ++ t)
                = 1%nat).
        rewrite !open_attempts_app, (open_attempts_configuring t Hlog).
        reflexivity.
    + split.
      * cbn [nesting]. rewrite <- (app_nil_r t).
        rewrite nesting_configuring by assumption. reflexivity.
      * change (open_attempts ([enter "Open"; sys_open (port_ s)] ++ t)
                = 1%nat).
        rewrite !open_attempts_app, (open_attempts_configuring t Hlog).
        reflexivity.
Qed.

(** An interrupted attempt: the activation stays on the stack while [Open]
    runs again for the attempts that follow. *)
Lemma Open_interrupted_attempt h rest os s d :
  port_ s <> "" -> is_open_ s = false ->
  let inner := Open h rest os (set_fd (-1) s) in
  (result_of (Open h (interrupted :: rest) os s) = Pending
     <-> result_of inner = Pending)
  /\ nesting d (log_of (Open h (interrupted :: rest) os s))
     = nesting (S d) (log_of inner)
  /\ open_attempts (log_of (Open h (interrupted :: rest) os s))
     = S (open_attempts (log_of inner)).
Proof.
  intros Hport Hclosed inner. subst inner. cbn [Open]. run_monad.
  destruct (String.eqb_spec (port_ s) "") as [|_]; [contradiction|].
  rewrite Hclosed.
  change (ret interrupted =? -1) with true.
  change (errno interrupted =? EINTR) with true.
  change (ret interrupted) with (-1). cbv beta iota.
  destruct (Open h rest os (set_fd (-1) s)) as [[[[]| e | |] s'] t];
    cbn [result_of state_of log_of fst snd app];
    (split; [split; intros H; try discriminate H; try reflexivity |]).
  - split.
    + cbn [nesting]. rewrite nesting_app_leave. reflexivity.
    + change (open_attempts
                ([enter "Open"; sys_open (port_ s)] ++ t ++ [leave "Open"])
              = S (open_attempts t)).
      rewrite !open_attempts_app. cbn. lia.
  - split; reflexivity.
  - split; reflexivity.
  - split; reflexivity.
Qed.

Lemma Open_after_interruptions h os n r rest s d :
  port_ s <> "" -> is_open_ s = false ->
  (ret r =? -1) && (errno r =? EINTR) = false ->
  result_of (Open h (repeat interrupted n ++ r :: rest) os s) <> Pending
  /\ nesting d (log_of (Open h (repeat interrupted n ++ r :: rest) os s))
     = (d + S n)%nat
  /\ open_attempts (log_of (Open h (repeat interrupted n ++ r :: rest) os s))
     = S n.
Proof.
  intros Hport Hclosed Hr. revert s d Hport Hclosed.
  induction n as [|n IH]; intros s d Hport Hclosed.
  - cbn [repeat app].
    destruct (Open_last_attempt h r rest os s d Hport Hclosed Hr)
      as (P & N & C).
    repeat split; [exact P | rewrite N; lia | exact C].
  - cbn [repeat app].
    destruct (Open_interrupted_attempt h (repeat interrupted n ++ r :: rest)
                os s d Hport Hclosed) as (P & N & C).
    destruct (IH (set_fd (-1) s) (S d) Hport Hclosed) as (P' & N' & C').
    repeat split.
    + intros H. apply P'. apply P. exact H.
    + rewrite N, N'. lia.
    + rewrite C, C'. reflexivity.
Qed.

Lemma Open_refuses h attempts os s :
  (port_ s = "" ->
     Open h attempts os s
       = (Thrown (invalid_argument "Empty port is invalid."), s,
          [enter "Open"]))
  /\ (port_ s <> "" -> is_open_ s = true ->
        Open h attempts os s
          = (Thrown (SerialException "Serial port already open."), s,
             [enter "Open"])).
Proof.
  split.
  - intros E. destruct attempts; cbn [Open]; run_monad; rewrite E; reflexivity.
  - intros N E. destruct attempts; cbn [Open]; run_monad;
      (destruct (String.eqb_spec (port_ s) "") as [|_]; [contradiction|]);
      rewrite E; reflexivity.
Qed.

(** What the attempt that is not interrupted makes of the call. *)
Lemma Open_deciding_attempt h r rest os s :
  port_ s <> "" -> is_open_ s = false ->
  (ret r =? -1) && (errno r =? EINTR) = false ->
  let configured := ReconfigurePort h os (set_fd (ret r) s) in
  Open h (r :: rest) os s =
    if ret r =? -1
    then
      (Thrown (if (errno r =? ENFILE) || (errno r =? EMFILE)
               then IOException "Too many file handles open."
               else IOException_errno (errno r)),
       set_fd (ret r) s, [enter "Open"; sys_open (port_ s)])
    else
      match result_of configured with
      | Returned _ =>
          (Returned tt, set_is_open true (state_of configured),
           enter "Open" :: sys_open (port_ s)
             :: log_of configured ++ [leave "Open"])
      | failure =>
          (failure, state_of configured,
           enter "Open" :: sys_open (port_ s) :: log_of configured)
      end.
Proof.
  intros Hport Hclosed Hr configured. subst configured.
  cbn [Open]. run_monad.
  destruct (String.eqb_spec (port_ s) "") as [|_]; [contradiction|].
  rewrite Hclosed.
  destruct (ret r =? -1) eqn:Efd.
  - cbn in Hr. rewrite Hr.
    destruct ((errno r =? ENFILE) || (errno r =? EMFILE)); reflexivity.
  - cbv beta.
    destruct (ReconfigurePort h os (set_fd (ret r) s)) as [[[[]| e | |] s'] t];
      reflexivity.
Qed.

(** Interrupted attempts change nothing but the log. *)
Lemma Open_skips_interruptions h os n r rest s :
  port_ s <> "" -> is_open_ s = false ->
  (ret r =? -1) && (errno r =? EINTR) = false ->
  result_of (Open h (repeat interrupted n ++ r :: rest) os s)
    = result_of (Open h (r :: rest) os s)
  /\ state_of (Open h (repeat interrupted n ++ r :: rest) os s)
     = state_of (Open h (r :: rest) os s)
  /\ forall e, configuring e ->
       (In e (log_of (Open h (repeat interrupted n ++ r :: rest) os s))
        <-> In e (log_of (Open h (r :: rest) os s))).
Proof.
  intros Hport Hclosed Hr. revert s Hport Hclosed.
  induction n as [|n IH]; intros s Hport Hclosed.
  - cbn [repeat app]. repeat split; auto.
  - destruct (IH (set_fd (-1) s) Hport Hclosed) as (R & St & L).
    assert (Same : Open h (r :: rest) os (set_fd (-1) s)
                   = Open h (r :: rest) os s).
    { rewrite !Open_deciding_attempt by assumption. reflexivity. }
    rewrite Same in R, St, L. rewrite <- R, <- St.
    remember (Open h (r :: rest) os s) as final eqn:Efinal.
    cbn [repeat app Open]. run_monad.
    destruct (String.eqb_spec (port_ s) "") as [|_]; [contradiction|].
    rewrite Hclosed.
    change (ret interrupted =? -1) with true.
    change (errno interrupted =? EINTR) with true.
    change (ret interrupted) with (-1). cbv beta iota.
    split; [|split].
    + destruct (Open h (repeat interrupted n ++ r :: rest) os (set_fd (-1) s))
        as [[[[]| e | |] s'] t]; reflexivity.
    + destruct (Open h (repeat interrupted n ++ r :: rest) os (set_fd (-1) s))
        as [[[[]| e | |] s'] t]; reflexivity.
    + intros e He. etransitivity; [|apply (L e He)].
      destruct (Open h (repeat interrupted n ++ r :: rest) os (set_fd (-1) s))
        as [[[[]| e' | |] s'] t]; cbn [log_of snd In];
        repeat rewrite in_app_iff; cbn [In];
        (split; intros H; [decompose [or] H; subst; cbn in He; tauto | tauto]).
Qed.






(** ** WaitForChange *)

Lemma WaitForChange_polling_on_closed its s :
  is_open_ s = false -> WaitForChange_polling its s = (Returned false, s, []).
Proof.
  intros E. destruct its; cbn [WaitForChange_polling]; run_monad;
    rewrite E; reflexivity.
Qed.

(** The polling loop polls as long as the port stays open ... *)
Lemma WaitForChange_polling_while_open pre rest s :
  is_open_ s = true ->
  forallb idle_poll pre = true ->
  forallb (fun it => negb (pi_closed_meanwhile it)) pre = true ->
  WaitForChange_polling (pre ++ rest) s =
    (result_of (WaitForChange_polling rest s),
     state_of (WaitForChange_polling rest s),
     polling_log (fd_ s) pre ++ log_of (WaitForChange_polling rest s)).
Proof.
  intros E. induction pre as [|it pre IH]; intros Hidle Hopen.
  - cbn [app polling_log flat_map]. apply triple_eta.
  - cbn [forallb] in Hidle, Hopen.
    apply andb_prop in Hidle as [Hit Hidle]. apply andb_prop in Hopen as [Ho Hopen].
    unfold idle_poll in Hit. apply andb_prop in Hit as [Hret Hline].
    cbn [app WaitForChange_polling]. run_monad. rewrite E.
    destruct (ret (pi_TIOCMGET it) =? -1); [discriminate Hret|].
    destruct (line_asserted (pi_status it)); [discriminate Hline|].
    destruct (pi_closed_meanwhile it); [discriminate Ho|].
    rewrite (IH Hidle Hopen).
    unfold result_of, state_of, log_of. cbn [fst snd polling_log flat_map app].
    reflexivity.
Qed.

(** ... and returns false once it finds the port closed after a sleep. *)
Lemma WaitForChange_polling_closed_during_wait pre it rest s :
  is_open_ s = true ->
  forallb idle_poll (pre ++ [it]) = true ->
  forallb (fun it => negb (pi_closed_meanwhile it)) pre = true ->
  pi_closed_meanwhile it = true ->
  result_of (WaitForChange_polling (pre ++ it :: rest) s) = Returned false
  /\ log_of (WaitForChange_polling (pre ++ it :: rest) s)
     = polling_log (fd_ s) (pre ++ [it]).
Proof.
  intros E Hidle Hopen Hclose.
  rewrite forallb_app in Hidle. apply andb_prop in Hidle as [Hpre Hit].
  cbn [forallb] in Hit. rewrite andb_true_r in Hit.
  unfold idle_poll in Hit. apply andb_prop in Hit as [Hret Hline].
  rewrite (WaitForChange_polling_while_open pre (it :: rest) s E Hpre Hopen).
  cbn [WaitForChange_polling]. run_monad. rewrite E.
  destruct (ret (pi_TIOCMGET it) =? -1); [discriminate Hret|].
  destruct (line_asserted (pi_status it)); [discriminate Hline|].
  rewrite Hclose.
  rewrite (WaitForChange_polling_on_closed rest
             (set_is_open false (set_fd (-1) s)) eq_refl).
  split; [reflexivity|].
  unfold polling_log. rewrite flat_map_app. reflexivity.
Qed.

Lemma WaitForChange_without_TIOCMIWAIT_on_closed h its iwait s :
  has_TIOCMIWAIT h = false -> is_open_ s = false ->
  WaitForChange h its iwait s = (Returned false, s, []).
Proof.
  intros H E. unfold WaitForChange. rewrite H.
  apply WaitForChange_polling_on_closed. exact E.
Qed.

(** C6.  Where [TIOCMIWAIT] is defined [WaitForChange] does not look at
    [is_open_]: on a closed port (descriptor -1) it issues the ioctl, which
    the kernel refuses, and throws; on such a host it returns false for no
    port and no replies at all. *)
Theorem WaitForChange_native_on_closed_port_throws :
  WaitForChange linux [] (Some (failed EBADF)) (sample_port false)
    = (Thrown (SerialException
                 "waitForDSR failed on a call to ioctl(TIOCMIWAIT): "),
       sample_port false, [sys_ioctl_TIOCMIWAIT (-1) 480])
  /\ forall its iwait s,
       result_of (WaitForChange linux its iwait s) <> Returned false.
Proof.
  split; [reflexivity|].
  intros its iwait s. unfold WaitForChange, WaitForChange_native.
  cbn [linux has_TIOCMIWAIT]. run_monad.
  destruct iwait as [r|]; [|discriminate].
  destruct (ret r =? -1); discriminate.
Qed.


(** ** The transfer loop *)

Section TransferLoop.
Context {I : Type} (body : Z -> I -> M step) (size : Z).

(** Running the loop on [pre ++ rest] is running it on [rest] from where the
    passes [pre] leave it. *)
Lemma transfer_loop_app pre rest n s k s1 t :
  passes body size pre n s = (Returned (Continue k), s1, t) ->
  transfer_loop body size (pre ++ rest) n s =
    (result_of (transfer_loop body size rest k s1),
     state_of (transfer_loop body size rest k s1),
     t ++ log_of (transfer_loop body size rest k s1)).
Proof.
  revert n s t. induction pre as [|it pre IH]; intros n s t.
  - cbn [passes app]. unfold pure. intros [= -> -> <-]. apply triple_eta.
  - cbn [passes app transfer_loop].
    destruct (n <? size); [|unfold pure; discriminate].
    unfold bind. destruct (body n it s) as [[[[m|m]| e | |] s2] t2];
      try discriminate.
    destruct (passes body size pre m s2) as [[o3 s3] t3] eqn:E.
    intros [= -> -> <-]. rewrite (IH _ _ _ E).
    unfold result_of, state_of, log_of. cbn [fst snd].
    rewrite app_assoc. reflexivity.
Qed.

Lemma transfer_loop_keeps {F} (f : SerialImpl -> F) (P : event -> Prop) :
  (forall n it, keeps f P (body n it)) ->
  forall its n, keeps f P (transfer_loop body size its n).
Proof.
  intros Hbody. induction its as [|it its IH]; intros n; cbn [transfer_loop].
  - repeat keeps_step.
  - destruct (n <? size); [|apply keeps_pure].
    apply keeps_bind; [apply Hbody|]. intros [m|m]; [apply IH|apply keeps_pure].
Qed.

(** With a body that leaves the object alone, the log of the loop is the
    logs of its passes one after the other, each pass entered with fewer than
    [size] bytes. *)
Lemma transfer_loop_log (Q : I -> Prop) :
  (forall n it s, state_of (body n it s) = s) ->
  forall its n s, Forall Q its ->
    exists logs,
      log_of (transfer_loop body size its n s) = List.concat logs
      /\ Forall (fun l => exists n' it,
                   n' < size /\ Q it /\ l = log_of (body n' it s)) logs.
Proof.
  intros Hstate. induction its as [|it its IH]; intros n s HQ;
    cbn [transfer_loop].
  - exists []. destruct (n <? size); cbn; auto.
  - destruct (Z.ltb_spec n size) as [Hn|_]; [|exists []; cbn; auto].
    inversion HQ as [|? ? Hit Hits]; subst.
    unfold bind. pose proof (Hstate n it s) as Hs.
    assert (One : forall t2, t2 = log_of (body n it s) ->
              Forall (fun l => exists n' it0,
                        n' < size /\ Q it0 /\ l = log_of (body n' it0 s))
                     [t2]).
    { intros t2 ->. constructor; [|constructor]. exists n, it. auto. }
    destruct (body n it s) as [[[[m|m]| e | |] s2] t2] eqn:E;
      cbn [state_of log_of fst snd] in Hs, One; subst s2.
    + destruct (IH m s Hits) as (logs & L & A).
      destruct (transfer_loop body size its m s) as [[o3 s3] t3].
      cbn [log_of snd] in *. exists (t2 :: logs). cbn [List.concat].
      rewrite L. split; [reflexivity|].
      specialize (One t2 eq_refl). inversion One; subst.
      constructor; assumption.
    + exists [t2]. cbn. rewrite !app_nil_r. auto.
    + exists [t2]. cbn. rewrite !app_nil_r. auto.
    + exists [t2]. cbn. rewrite !app_nil_r. auto.
    + exists [t2]. cbn. rewrite !app_nil_r. auto.
Qed.


(** An invariant of the count that every pass keeps is kept by the loop; an
    exception no pass throws is not thrown by the loop. *)
Lemma transfer_loop_invariant (Q : I -> Prop) (Inv : Z -> Prop) (bad : exn) :
  (forall n it s, Q it -> Inv n -> n < size ->
     result_of (body n it s) <> Thrown bad
     /\ forall st, result_of (body n it s) = Returned st ->
          Inv (match st with Continue m | Break m => m end)) ->
  forall its n s, Forall Q its -> Inv n ->
    result_of (transfer_loop body size its n s) <> Thrown bad
    /\ forall m, result_of (transfer_loop body size its n s) = Returned m ->
         Inv m.
Proof.
  intros Hbody. induction its as [|it its IH]; intros n s HQ Hn;
    cbn [transfer_loop].
  - destruct (n <? size); cbn; (split; [discriminate|]).
    + intros m H. discriminate H.
    + intros m [= <-]. exact Hn.
  - destruct (Z.ltb_spec n size) as [Hlt|_].
    2:{ cbn. split; [discriminate|]. intros m [= <-]. exact Hn. }
    inversion HQ as [|? ? Hit Hits]; subst.
    destruct (Hbody n it s Hit Hn Hlt) as [Hbad Hst].
    unfold bind.
    destruct (body n it s) as [[[[m|m]| e | |] s2] t2] eqn:E;
      cbn [result_of fst] in *.
    + specialize (Hst _ eq_refl).
      destruct (IH m s2 Hits Hst) as [IHbad IHinv].
      destruct (transfer_loop body size its m s2) as [[o3 s3] t3].
      cbn [result_of fst] in *. auto.
    + specialize (Hst _ eq_refl). cbn.
      split; [discriminate|]. intros m' [= <-]. exact Hst.
    + split; [|intros m' H; discriminate H].
      intros [= ->]. apply Hbad. reflexivity.
    + split; [discriminate|]. intros m' H. discriminate H.
    + split; [discriminate|]. intros m' H. discriminate H.
Qed.


End TransferLoop.


(** ** Read and Write leave the object alone *)

Lemma Read_iteration_keeps size timer n it :
  keeps (fun s => s) any_event (Read_iteration size timer n it).
Proof.
  unfold Read_iteration, coalescing_wait, WaitReadable, Available,
    WaitByteTimes, any_event.
  repeat keeps_step.
Qed.

Lemma Write_iteration_keeps length timer n it :
  keeps (fun s => s) any_event (Write_iteration length timer n it).
Proof. unfold Write_iteration, any_event. repeat keeps_step. Qed.

Lemma Read_iteration_state size timer n it s :
  state_of (Read_iteration size timer n it s) = s.
Proof. apply (Read_iteration_keeps size timer n it s). Qed.

Lemma Write_iteration_state length timer n it s :
  state_of (Write_iteration length timer n it s) = s.
Proof. apply (Write_iteration_keeps length timer n it s). Qed.

Lemma Read_keeps size now prefill its :
  keeps (fun s => s) any_event (Read size now prefill its).
Proof.
  unfold Read, Read_loop, any_event.
  repeat keeps_step.
  apply transfer_loop_keeps. intros. apply Read_iteration_keeps.
Qed.

Lemma Write_keeps length now its :
  keeps (fun s => s) any_event (Write length now its).
Proof.
  unfold Write, Write_loop, any_event.
  repeat keeps_step.
  apply transfer_loop_keeps. intros. apply Write_iteration_keeps.
Qed.


(** ** One pass of the Read loop *)

Ltac read_pass :=
  unfold Read_iteration, coalescing_wait, WaitReadable, Available,
    WaitByteTimes; run_monad.

Ltac split_ifs :=
  repeat match goal with
         | |- context [if ?b then _ else _] => destruct b eqn:?
         end.


Lemma Read_iteration_timed_out size timer n it s :
  Remaining timer (ri_now it) <= 0 ->
  Read_iteration size timer n it s =
    (Returned (Break n), s, [timer_remaining (Remaining timer (ri_now it))]).
Proof.
  intros H. read_pass.
  destruct (Z.leb_spec (Remaining timer (ri_now it)) 0); [reflexivity | lia].
Qed.


Lemma to_size_t_small z : 0 <= z < UINT64_MOD -> to_size_t z = z.
Proof. intros H. unfold to_size_t. apply Z.mod_small. exact H. Qed.

Lemma to_long_small z : - 2 ^ 63 <= z <= LONG_MAX -> to_long z = z.
Proof.
  unfold to_long, LONG_MAX, UINT64_MOD. intros H.
  rewrite Z.mod_small by lia. lia.
Qed.

(** The coalescing block, case by case, for counts that fit their types. *)
Lemma coalescing_wait_cases size n r s :
  is_open_ s = true ->
  0 <= n < size -> size <= 2 ^ 63 ->
  0 <= inq_count r < 2 ^ 31 ->
  0 <= byte_time_ns_ s -> byte_time_ns_ s * size <= LONG_MAX ->
  coalescing_wait size n r s =
    if (1 <? size) && (inter_byte_timeout (timeout_ s) =? Timeout_max)
    then
      if ret (inq r) =? -1
      then (Thrown (IOException_errno (errno (inq r))), s,
            [sys_ioctl_TIOCINQ (fd_ s)])
      else if inq_count r + n <? size
      then (Returned tt, s,
            [sys_ioctl_TIOCINQ (fd_ s);
             sys_pselect_sleep (byte_time_ns_ s * (size - (inq_count r + n)))])
      else (Returned tt, s, [sys_ioctl_TIOCINQ (fd_ s)])
    else (Returned tt, s, []).
Proof.
  intros Hopen Hn Hsize Hcount Hbt Hfit.
  unfold coalescing_wait, Available, WaitByteTimes. run_monad.
  destruct ((1 <? size) && (inter_byte_timeout (timeout_ s) =? Timeout_max));
    [|reflexivity].
  rewrite Hopen. cbn [negb].
  destruct (ret (inq r) =? -1); [reflexivity|].
  assert (A : to_size_t (inq_count r) = inq_count r)
    by (apply to_size_t_small; unfold UINT64_MOD; lia).
  rewrite A.
  assert (B : to_size_t (inq_count r + n) = inq_count r + n)
    by (apply to_size_t_small; unfold UINT64_MOD; lia).
  rewrite B.
  destruct (Z.ltb_spec (inq_count r + n) size) as [Hshort|_]; [|reflexivity].
  assert (C : to_size_t (size - (inq_count r + n)) = size - (inq_count r + n))
    by (apply to_size_t_small; unfold UINT64_MOD; lia).
  rewrite C.
  assert (D : 0 <= byte_time_ns_ s * (size - (inq_count r + n))
              <= byte_time_ns_ s * size) by nia.
  rewrite to_size_t_small by (unfold UINT64_MOD, LONG_MAX in *; lia).
  rewrite to_long_small by (unfold LONG_MAX in *; lia).
  reflexivity.
Qed.

Lemma coalescing_wait_outcome size n r s :
  exists tc,
    coalescing_wait size n r s = (Returned tt, s, tc)
    \/ (ret (inq r) = -1
        /\ coalescing_wait size n r s
           = (Thrown (IOException_errno (errno (inq r))), s, tc)).
Proof.
  unfold coalescing_wait, Available, WaitByteTimes. run_monad.
  destruct ((1 <? size) && (inter_byte_timeout (timeout_ s) =? Timeout_max));
    [|eauto].
  destruct (negb (is_open_ s)).
  - split_ifs; eauto.
  - destruct (Z.eqb_spec (ret (inq r)) (-1)); [eauto|].
    split_ifs; eauto.
Qed.

(** What the transfer attempt of a pass makes of [bytes_read]. *)
Lemma Read_iteration_ready size timer n it s tc :
  0 < Remaining timer (ri_now it) ->
  reported_ready (ri_select it) ->
  coalescing_wait size n (ri_inq it) s = (Returned tt, s, tc) ->
  Read_iteration size timer n it s =
    (let bytes_read_now := ri_read it (to_size_t (size - n)) in
     let bytes_read := to_size_t (n + to_size_t bytes_read_now) in
     if bytes_read_now <? 1 then Thrown disconnected_on_read
     else if bytes_read =? size then Returned (Break bytes_read)
     else if bytes_read <? size then Returned (Continue bytes_read)
     else if size <? bytes_read then Thrown over_read
     else Returned (Continue bytes_read),
     s,
     timer_remaining (Remaining timer (ri_now it))
       :: sys_pselect_read (fd_ s)
            (Z.min (to_uint32 (Remaining timer (ri_now it)))
                   (inter_byte_timeout (timeout_ s)))
       :: tc ++ [sys_read (fd_ s) (to_size_t (size - n))]).
Proof.
  intros Hr [Hsel Hset] Hc.
  unfold Read_iteration, WaitReadable. run_monad.
  destruct (Z.leb_spec (Remaining timer (ri_now it)) 0); [lia|].
  destruct (Z.ltb_spec (ret (sel (ri_select it))) 0); [lia|].
  destruct (Z.eqb_spec (ret (sel (ri_select it))) 0); [lia|].
  rewrite Hset. cbn [negb]. rewrite Hc. cbv zeta.
  split_ifs; cbn [app]; rewrite ?app_nil_r; reflexivity.
Qed.

Lemma Read_iteration_ready_but_query_failed size timer n it s tc e :
  0 < Remaining timer (ri_now it) ->
  reported_ready (ri_select it) ->
  coalescing_wait size n (ri_inq it) s = (Thrown e, s, tc) ->
  Read_iteration size timer n it s =
    (Thrown e, s,
     timer_remaining (Remaining timer (ri_now it))
       :: sys_pselect_read (fd_ s)
            (Z.min (to_uint32 (Remaining timer (ri_now it)))
                   (inter_byte_timeout (timeout_ s)))
       :: tc).
Proof.
  intros Hr [Hsel Hset] Hc.
  unfold Read_iteration, WaitReadable. run_monad.
  destruct (Z.leb_spec (Remaining timer (ri_now it)) 0); [lia|].
  destruct (Z.ltb_spec (ret (sel (ri_select it))) 0); [lia|].
  destruct (Z.eqb_spec (ret (sel (ri_select it))) 0); [lia|].
  rewrite Hset. cbn [negb]. rewrite Hc. reflexivity.
Qed.

Lemma Read_iteration_not_ready size timer n it s :
  ~ (0 < Remaining timer (ri_now it) /\ reported_ready (ri_select it)) ->
  Forall (fun e => ~ is_sleep e) (log_of (Read_iteration size timer n it s))
  /\ result_of (Read_iteration size timer n it s) <> Thrown over_read
  /\ forall st, result_of (Read_iteration size timer n it s) = Returned st ->
       st = Continue n \/ st = Break n.
Proof.
  intros H. unfold Read_iteration, WaitReadable, reported_ready in *. run_monad.
  destruct (Z.leb_spec (Remaining timer (ri_now it)) 0).
  { split; [repeat constructor; cbn; tauto|].
    split; [discriminate|]. intros st [= <-]. auto. }
  destruct (Z.ltb_spec (ret (sel (ri_select it))) 0).
  { destruct (errno (sel (ri_select it)) =? EINTR);
      (split; [repeat constructor; cbn; tauto|]);
      (split; [discriminate|]); intros st [= <-]; auto. }
  destruct (Z.eqb_spec (ret (sel (ri_select it))) 0).
  { split; [repeat constructor; cbn; tauto|].
    split; [discriminate|]. intros st [= <-]. auto. }
  destruct (sel_isset (ri_select it)) eqn:Hset.
  { exfalso. apply H. repeat split; [lia | lia]. }
  cbn [negb]. split; [repeat constructor; cbn; tauto|].
  split; [discriminate|]. intros st H'. discriminate H'.
Qed.

Lemma pass_ready_or_not timer it :
  (0 < Remaining timer (ri_now it) /\ reported_ready (ri_select it))
  \/ ~ (0 < Remaining timer (ri_now it) /\ reported_ready (ri_select it)).
Proof.
  unfold reported_ready.
  destruct (Z.ltb_spec 0 (Remaining timer (ri_now it)));
    destruct (Z.ltb_spec 0 (ret (sel (ri_select it))));
    destruct (sel_isset (ri_select it));
    try (left; repeat split; assumption);
    right; intros (? & ? & ?); try lia; discriminate.
Qed.

Lemma coalescing_wait_skipped size n r s :
  size <= 1 \/ inter_byte_timeout (timeout_ s) <> Timeout_max ->
  coalescing_wait size n r s = (Returned tt, s, []).
Proof.
  intros H. unfold coalescing_wait. run_monad.
  destruct (Z.ltb_spec 1 size);
    destruct (Z.eqb_spec (inter_byte_timeout (timeout_ s)) Timeout_max);
    cbn [andb]; try reflexivity.
  destruct H; [lia | contradiction].
Qed.

Lemma Read_iteration_no_sleep size timer n it s :
  size <= 1 \/ inter_byte_timeout (timeout_ s) <> Timeout_max ->
  Forall (fun e => ~ is_sleep e) (log_of (Read_iteration size timer n it s)).
Proof.
  intros H. destruct (pass_ready_or_not timer it) as [[Hr Hready]|Hnot].
  - rewrite (Read_iteration_ready size timer n it s [] Hr Hready
               (coalescing_wait_skipped size n (ri_inq it) s H)).
    cbn [log_of snd app]. repeat constructor; cbn; tauto.
  - apply (Read_iteration_not_ready size timer n it s Hnot).
Qed.

Lemma Forall_concat {A} (P : A -> Prop) (ls : list (list A)) :
  Forall (Forall P) ls -> Forall P (List.concat ls).
Proof.
  induction 1 as [|l ls Hl _ IH]; cbn [List.concat]; [constructor|].
  apply Forall_app. auto.
Qed.

(** The log of an accepted [Read]: the timer, the opportunistic transfer,
    then the passes of the loop, all run on the unchanged object. *)
Lemma Read_log size now prefill its s :
  is_open_ s = true ->
  let total := total_timeout_ms (read_timeout_constant (timeout_ s))
                 (read_timeout_multiplier (timeout_ s)) size in
  exists logs,
    log_of (Read size now prefill its s)
      = timer_start total :: sys_read (fd_ s) size :: List.concat logs
    /\ Forall (fun l => exists n it,
                 n < size /\ In it its
                 /\ l = log_of (Read_iteration size (MilliTimer_new now total)
                                  n it s)) logs.
Proof.
  intros Hopen total.
  destruct (transfer_loop_log
              (Read_iteration size (MilliTimer_new now total)) size
              (fun it => In it its)
              (fun n it s => Read_iteration_state size _ n it s)
              its (prefilled (prefill size)) s) as (logs & L & A).
  { apply Forall_forall. auto. }
  exists logs. split; [|exact A].
  unfold Read, Read_loop. run_monad. rewrite Hopen. cbn [negb].
  fold total.
  destruct (transfer_loop (Read_iteration size (MilliTimer_new now total))
              size its (prefilled (prefill size)) s) as [[o s'] t].
  cbn [log_of snd] in L. subst t. reflexivity.
Qed.


Lemma no_sleep_in log d :
  Forall (fun e => ~ is_sleep e) log -> ~ In (sys_pselect_sleep d) log.
Proof.
  intros H Hin. rewrite Forall_forall in H. apply (H _ Hin). exact I.
Qed.

(** What the coalescing block asks for.  In a pass of the [Read] loop (of
    an open port, with counts that fit their types) whose readiness wait
    reported the device ready and whose query of the available count
    succeeded, the coalescing sleep is requested exactly when the requested size exceeds one byte, the inter-byte timeout
    is the maximum and the bytes available plus the bytes already read fall
    short of the request.  A sleep is only ever made after a reported
    readiness and is asked to last the byte time multiplied by the missing
    bytes.  With any other inter-byte timeout no [Read] sleeps at all. *)
Theorem coalescing_sleep_exactly_when_short
    (size now : Z) (prefill : Z -> Z) (its : list read_iter)
    (timer : MilliTimer) (n : Z) (it : read_iter) (s : SerialImpl) :
  is_open_ s = true ->
  0 <= n < size -> size <= 2 ^ 63 ->
  0 <= inq_count (ri_inq it) < 2 ^ 31 ->
  0 <= byte_time_ns_ s -> byte_time_ns_ s * size <= LONG_MAX ->
  let pass := log_of (Read_iteration size timer n it s) in
  let available := inq_count (ri_inq it) in
  let inter_byte := inter_byte_timeout (timeout_ s) in
  (0 < Remaining timer (ri_now it) -> reported_ready (ri_select it) ->
   ret (inq (ri_inq it)) <> -1 ->
     ((exists d, In (sys_pselect_sleep d) pass)
      <-> (1 < size /\ inter_byte = Timeout_max /\ available + n < size)))
  /\ (forall d, In (sys_pselect_sleep d) pass ->
        0 < Remaining timer (ri_now it) /\ reported_ready (ri_select it)
        /\ d = byte_time_ns_ s * (size - (available + n)))
  /\ (inter_byte <> Timeout_max ->
        Forall (fun e => ~ is_sleep e) (log_of (Read size now prefill its s))).
Proof.
  intros Hopen Hn Hsize Hcount Hbt Hfit pass available inter_byte.
  pose proof (coalescing_wait_cases size n (ri_inq it) s
                Hopen Hn Hsize Hcount Hbt Hfit) as Hc.
  fold available inter_byte in Hc.
  assert (Hpass :
    0 < Remaining timer (ri_now it) -> reported_ready (ri_select it) ->
    forall d, In (sys_pselect_sleep d) pass <->
      (ret (inq (ri_inq it)) <> -1 /\ 1 < size /\ inter_byte = Timeout_max
       /\ available + n < size
       /\ d = byte_time_ns_ s * (size - (available + n)))).
  { intros Hr Hready d. subst pass.
    destruct (Z.ltb_spec 1 size) as [H1|H1];
      destruct (Z.eqb_spec inter_byte Timeout_max) as [Hmax|Hmax];
      cbn [andb] in Hc;
      try (rewrite (Read_iteration_ready _ _ _ _ _ _ Hr Hready Hc);
           cbn [log_of snd app In];
           split; [intros [H|[H|[H|[]]]]; discriminate H | intros; lia]).
    destruct (Z.eqb_spec (ret (inq (ri_inq it))) (-1)) as [Hq|Hq].
    - rewrite (Read_iteration_ready_but_query_failed _ _ _ _ _ _ _
                   Hr Hready Hc).
      cbn [log_of snd In].
      split; [intros [H|[H|[H|[]]]]; discriminate H | tauto].
    - destruct (Z.ltb_spec (available + n) size) as [Hshort|Hshort];
        rewrite (Read_iteration_ready _ _ _ _ _ _ Hr Hready Hc);
        cbn [log_of snd app In].
      + split.
        * intros [H|[H|[H|[H|[H|[]]]]]]; try discriminate H.
          injection H as <-. repeat split; assumption.
        * intros (_ & _ & _ & _ & ->). auto.
      + split; [intros [H|[H|[H|[H|[]]]]]; discriminate H | intros; lia]. }
  split; [|split].
  - intros Hr Hready Hq. split.
    + intros [d Hd]. apply (Hpass Hr Hready) in Hd. tauto.
    + intros (H1 & Hmax & Hshort). eexists. apply (Hpass Hr Hready).
      repeat split; eauto.
  - intros d Hd.
    destruct (pass_ready_or_not timer it) as [[Hr Hready]|Hnot].
    + apply (Hpass Hr Hready) in Hd. tauto.
    + exfalso. revert Hd. apply no_sleep_in.
      apply (Read_iteration_not_ready size timer n it s Hnot).
  - intros Hmax.
    destruct (Read_log size now prefill its s Hopen) as (logs & L & A).
    rewrite L. repeat (constructor; [cbn; tauto|]).
    apply Forall_concat. revert A. apply Forall_impl.
    intros l (n' & it' & _ & _ & ->).
    apply Read_iteration_no_sleep. right. exact Hmax.
Qed.

Lemma coalescing_sleep_exactly_when_short_witness :
  In (sys_pselect_sleep (1041660 * (4 - (1 + 1))))
     (log_of (Read_iteration 4 (MilliTimer_new 1000 100) 1 (pass_with 1010 1)
                (sample_port true))).
Proof.
  pose proof (coalescing_sleep_exactly_when_short
                4 1000 (fun _ => 1) [pass_with 1010 1]
                (MilliTimer_new 1000 100) 1 (pass_with 1010 1)
                (sample_port true) eq_refl
                ltac:(simpl; lia) ltac:(simpl; lia) ltac:(simpl; lia)
                ltac:(simpl; lia) ltac:(unfold LONG_MAX; simpl; lia))
    as (Hiff & Hdur & _).
  assert (Hsleep : exists d,
            In (sys_pselect_sleep d)
               (log_of (Read_iteration 4 (MilliTimer_new 1000 100) 1
                          (pass_with 1010 1) (sample_port true)))).
  { apply Hiff.
    - vm_compute. reflexivity.
    - split; [simpl; lia | reflexivity].
    - simpl. lia.
    - repeat split; simpl; lia. }
  destruct Hsleep as [d Hd].
  destruct (Hdur d Hd) as (_ & _ & E). simpl in E. rewrite E in Hd. exact Hd.
Defined.

(** C8.  The coalescing sleep is lost when it should last a second or
    more.  In a pass of the [Read] loop (open port, counts that fit their
    types) that finds the descriptor ready, with a request of more than one
    byte, the maximum inter-byte timeout and fewer bytes available and read
    than requested, the code asks [pselect] once for a sleep of byte time
    times missing bytes, all of it in [tv_nsec] with [tv_sec] zero.  Below
    10^9 ns that is the time slept; from 10^9 ns on the [timespec] is not
    valid, [pselect] refuses it, its result is dropped, and the pass has
    slept no time at all. *)
Theorem coalescing_sleep_is_lost_beyond_one_second
    (size : Z) (timer : MilliTimer) (n : Z) (it : read_iter) (s : SerialImpl) :
  is_open_ s = true ->
  0 <= n < size -> size <= 2 ^ 63 ->
  0 <= inq_count (ri_inq it) < 2 ^ 31 ->
  0 <= byte_time_ns_ s -> byte_time_ns_ s * size <= LONG_MAX ->
  0 < Remaining timer (ri_now it) -> reported_ready (ri_select it) ->
  ret (inq (ri_inq it)) <> -1 ->
  1 < size -> inter_byte_timeout (timeout_ s) = Timeout_max ->
  inq_count (ri_inq it) + n < size ->
  let pass := log_of (Read_iteration size timer n it s) in
  let asked := byte_time_ns_ s * (size - (inq_count (ri_inq it) + n)) in
  In (sys_pselect_sleep asked) pass
  /\ (forall d, In (sys_pselect_sleep d) pass -> d = asked)
  /\ nanoseconds_slept pass = (if asked <? 1000000000 then asked else 0).
Proof.
  intros Hopen Hn Hsize Hcount Hbt Hfit Hr Hready Hq H1 Hmax Hshort pass asked.
  pose proof (coalescing_wait_cases size n (ri_inq it) s
                Hopen Hn Hsize Hcount Hbt Hfit) as Hc.
  destruct (Z.ltb_spec 1 size); [|lia].
  destruct (Z.eqb_spec (inter_byte_timeout (timeout_ s)) Timeout_max);
    [|contradiction].
  destruct (Z.eqb_spec (ret (inq (ri_inq it))) (-1)); [contradiction|].
  destruct (Z.ltb_spec (inq_count (ri_inq it) + n) size); [|lia].
  cbn [andb] in Hc. fold asked in Hc. subst pass.
  rewrite (Read_iteration_ready _ _ _ _ _ _ Hr Hready Hc).
  cbn [log_of snd app]. split; [|split].
  - cbn. auto.
  - intros d [Hin|[Hin|[Hin|[Hin|[Hin|[]]]]]]; try discriminate Hin.
    injection Hin as <-. reflexivity.
  - cbn [nanoseconds_slept]. unfold valid_tv_nsec.
    assert (0 <= asked) by (subst asked; nia).
    destruct (Z.leb_spec 0 asked); [|lia].
    destruct (asked <? 1000000000); cbn [andb]; lia.
Qed.

Lemma coalescing_sleep_is_lost_beyond_one_second_witness :
  In (sys_pselect_sleep 1065618180)
     (log_of (Read_iteration 1024 (MilliTimer_new 1000 100) 1
                (pass_with 1010 0) (sample_port true)))
  /\ nanoseconds_slept
       (log_of (Read_iteration 1024 (MilliTimer_new 1000 100) 1
                  (pass_with 1010 0) (sample_port true))) = 0.
Proof.
  destruct (coalescing_sleep_is_lost_beyond_one_second
              1024 (MilliTimer_new 1000 100) 1 (pass_with 1010 0)
              (sample_port true) eq_refl
              ltac:(lia) ltac:(lia) ltac:(simpl; lia) ltac:(simpl; lia)
              ltac:(unfold LONG_MAX; simpl; lia)
              ltac:(vm_compute; reflexivity)
              ltac:(split; [simpl; lia | reflexivity])
              ltac:(simpl; lia) ltac:(lia) eq_refl ltac:(simpl; lia))
    as (A & _ & Z).
  split; [exact A | exact Z].
Defined.

(** ** Read as a whole *)


Lemma Read_on_closed size now prefill its s :
  is_open_ s = false ->
  Read size now prefill its s
    = (Thrown (PortNotOpenedException "Serial::read"), s, []).
Proof. intros E. unfold Read. run_monad. rewrite E. reflexivity. Qed.

Lemma Read_on_open size now prefill its s :
  is_open_ s = true ->
  let total := total_timeout_ms (read_timeout_constant (timeout_ s))
                 (read_timeout_multiplier (timeout_ s)) size in
  let loop := Read_loop size (MilliTimer_new now total) its
                (prefilled (prefill size)) s in
  Read size now prefill its s =
    (result_of loop, state_of loop,
     timer_start total :: sys_read (fd_ s) size :: log_of loop).
Proof.
  intros E total loop. unfold Read. run_monad. rewrite E. cbn [negb].
  fold total. fold loop. destruct loop as [[o s'] t]. reflexivity.
Qed.

(** Once the deadline has passed when the loop looks at the timer, the call
    ends with what it has. *)
Lemma Read_loop_deadline_passed size timer pre it post n k s t :
  passes (Read_iteration size timer) size pre n s
    = (Returned (Continue k), s, t) ->
  k < size -> expiry timer <= ri_now it ->
  Read_loop size timer (pre ++ it :: post) n s
    = (Returned k, s, t ++ [timer_remaining (Remaining timer (ri_now it))]).
Proof.
  intros Hpre Hk Hlate. unfold Read_loop.
  rewrite (transfer_loop_app _ _ _ _ _ _ _ _ _ Hpre).
  cbn [transfer_loop]. destruct (Z.ltb_spec k size); [|lia].
  unfold bind. rewrite Read_iteration_timed_out by (unfold Remaining; lia).
  reflexivity.
Qed.






(** ** One pass of the Write loop, and Write as a whole *)

Lemma Write_iteration_ready length timer n it s :
  0 < Remaining timer (wi_now it) ->
  reported_ready (wi_select it) ->
  Write_iteration length timer n it s =
    (let bytes_written_now := wi_write it (to_size_t (length - n)) in
     let bytes_written := to_size_t (n + to_size_t bytes_written_now) in
     if bytes_written_now <? 1 then Thrown disconnected_on_write
     else if bytes_written =? length then Returned (Break bytes_written)
     else if bytes_written <? length then Returned (Continue bytes_written)
     else if length <? bytes_written then Thrown over_write
     else Thrown fd_not_in_write_list,
     s,
     [timer_remaining (Remaining timer (wi_now it));
      sys_pselect_write (fd_ s) (Remaining timer (wi_now it));
      sys_write (fd_ s) (to_size_t (length - n))]).
Proof.
  intros Hr [Hsel Hset]. unfold Write_iteration. run_monad.
  destruct (Z.leb_spec (Remaining timer (wi_now it)) 0); [lia|].
  destruct (Z.ltb_spec (ret (sel (wi_select it))) 0); [lia|].
  destruct (Z.eqb_spec (ret (sel (wi_select it))) 0); [lia|].
  destruct (Z.ltb_spec 0 (ret (sel (wi_select it)))); [|lia].
  rewrite Hset. cbv zeta. split_ifs; reflexivity.
Qed.

Lemma Write_iteration_not_ready length timer n it s :
  ~ (0 < Remaining timer (wi_now it) /\ reported_ready (wi_select it)) ->
  result_of (Write_iteration length timer n it s) <> Thrown over_write
  /\ forall st, result_of (Write_iteration length timer n it s) = Returned st ->
       st = Continue n \/ st = Break n.
Proof.
  intros H. unfold Write_iteration, reported_ready in *. run_monad.
  destruct (Z.leb_spec (Remaining timer (wi_now it)) 0).
  { split; [discriminate|]. intros st [= <-]. auto. }
  destruct (Z.ltb_spec (ret (sel (wi_select it))) 0).
  { destruct (errno (sel (wi_select it)) =? EINTR);
      (split; [discriminate|]); intros st [= <-]; auto. }
  destruct (Z.eqb_spec (ret (sel (wi_select it))) 0).
  { split; [discriminate|]. intros st [= <-]. auto. }
  destruct (Z.ltb_spec 0 (ret (sel (wi_select it)))); [|lia].
  destruct (sel_isset (wi_select it)) eqn:Hset.
  { exfalso. apply H. repeat split; lia. }
  split; [discriminate|]. intros st H'. discriminate H'.
Qed.

Lemma write_pass_ready_or_not timer it :
  (0 < Remaining timer (wi_now it) /\ reported_ready (wi_select it))
  \/ ~ (0 < Remaining timer (wi_now it) /\ reported_ready (wi_select it)).
Proof.
  unfold reported_ready.
  destruct (Z.ltb_spec 0 (Remaining timer (wi_now it)));
    destruct (Z.ltb_spec 0 (ret (sel (wi_select it))));
    destruct (sel_isset (wi_select it));
    try (left; repeat split; assumption);
    right; intros (? & ? & ?); try lia; discriminate.
Qed.

Lemma Write_on_open length now its s :
  is_open_ s = true ->
  let total := total_timeout_ms (write_timeout_constant (timeout_ s))
                 (write_timeout_multiplier (timeout_ s)) length in
  let loop := Write_loop length (MilliTimer_new now total) its 0 s in
  Write length now its s =
    (result_of loop, state_of loop, timer_start total :: log_of loop).
Proof.
  intros E total loop. unfold Write. run_monad. rewrite E. cbn [negb].
  fold total. fold loop. destruct loop as [[o s'] t]. reflexivity.
Qed.

(** ** A transfer that yields nothing after a reported readiness *)

Lemma Read_loop_disconnected size timer pre it post n k s t :
  passes (Read_iteration size timer) size pre n s
    = (Returned (Continue k), s, t) ->
  k < size ->
  0 < Remaining timer (ri_now it) -> reported_ready (ri_select it) ->
  (1 < size -> inter_byte_timeout (timeout_ s) = Timeout_max ->
   ret (inq (ri_inq it)) <> -1) ->
  ri_read it (to_size_t (size - k)) < 1 ->
  result_of (Read_loop size timer (pre ++ it :: post) n s)
    = Thrown disconnected_on_read.
Proof.
  intros Hpre Hk Hr Hready Hq Hnone. unfold Read_loop.
  rewrite (transfer_loop_app _ _ _ _ _ _ _ _ _ Hpre).
  cbn [transfer_loop result_of fst]. destruct (Z.ltb_spec k size); [|lia].
  assert (exists tc, coalescing_wait size k (ri_inq it) s = (Returned tt, s, tc))
    as (tc & Hc).
  { destruct (Z.ltb_spec 1 size) as [H1|H1];
      [|exists []; apply coalescing_wait_skipped; lia].
    destruct (Z.eq_dec (inter_byte_timeout (timeout_ s)) Timeout_max)
      as [Hmax|Hmax];
      [|exists []; apply coalescing_wait_skipped; auto].
    destruct (coalescing_wait_outcome size k (ri_inq it) s)
      as (tc & [Hc|[Hq' _]]); [eauto|].
    destruct (Hq H1 Hmax Hq'). }
  unfold bind. rewrite (Read_iteration_ready _ _ _ _ _ _ Hr Hready Hc).
  cbv zeta. destruct (Z.ltb_spec (ri_read it (to_size_t (size - k))) 1);
    [reflexivity | lia].
Qed.

Lemma Write_loop_disconnected length timer pre it post n k s t :
  passes (Write_iteration length timer) length pre n s
    = (Returned (Continue k), s, t) ->
  k < length ->
  0 < Remaining timer (wi_now it) -> reported_ready (wi_select it) ->
  wi_write it (to_size_t (length - k)) < 1 ->
  result_of (Write_loop length timer (pre ++ it :: post) n s)
    = Thrown disconnected_on_write.
Proof.
  intros Hpre Hk Hr Hready Hnone. unfold Write_loop.
  rewrite (transfer_loop_app _ _ _ _ _ _ _ _ _ Hpre).
  cbn [transfer_loop result_of fst]. destruct (Z.ltb_spec k length); [|lia].
  unfold bind. rewrite (Write_iteration_ready _ _ _ _ _ Hr Hready).
  cbv zeta. destruct (Z.ltb_spec (wi_write it (to_size_t (length - k))) 1);
    [reflexivity | lia].
Qed.

(** C2.  When the loop of [Read] (or of [Write]) reaches a pass with time
    left, the readiness wait reports the device ready, and the transfer
    attempt that follows (in [Read], after a coalescing query that, if made,
    did not fail) returns zero or a negative count, the call throws the
    device-disconnected [SerialException]: it does not go round the loop
    again.  No [Read] and no [Write], whatever its outcome, changes
    [is_open_]. *)
Theorem transfer_of_nothing_when_ready_is_fatal :
  (forall size now prefill pre it post k t s,
     let timer := MilliTimer_new now
                    (total_timeout_ms (read_timeout_constant (timeout_ s))
                       (read_timeout_multiplier (timeout_ s)) size) in
     let run := Read size now prefill (pre ++ it :: post) s in
     is_open_ s = true ->
     passes (Read_iteration size timer) size pre (prefilled (prefill size)) s
       = (Returned (Continue k), s, t) ->
     k < size ->
     0 < Remaining timer (ri_now it) -> reported_ready (ri_select it) ->
     (1 < size -> inter_byte_timeout (timeout_ s) = Timeout_max ->
      ret (inq (ri_inq it)) <> -1) ->
     ri_read it (to_size_t (size - k)) < 1 ->
     result_of run = Thrown disconnected_on_read
     /\ is_open_ (state_of run) = is_open_ s)
  /\ (forall length now pre it post k t s,
        let timer := MilliTimer_new now
                       (total_timeout_ms (write_timeout_constant (timeout_ s))
                          (write_timeout_multiplier (timeout_ s)) length) in
        let run := Write length now (pre ++ it :: post) s in
        is_open_ s = true ->
        passes (Write_iteration length timer) length pre 0 s
          = (Returned (Continue k), s, t) ->
        k < length ->
        0 < Remaining timer (wi_now it) -> reported_ready (wi_select it) ->
        wi_write it (to_size_t (length - k)) < 1 ->
        result_of run = Thrown disconnected_on_write
        /\ is_open_ (state_of run) = is_open_ s)
  /\ (forall size now prefill its s,
        is_open_ (state_of (Read size now prefill its s)) = is_open_ s)
  /\ (forall length now its s,
        is_open_ (state_of (Write length now its s)) = is_open_ s).
Proof.
  assert (KR : forall size now prefill its s,
             state_of (Read size now prefill its s) = s)
    by (intros; apply (Read_keeps size now prefill its s)).
  assert (KW : forall length now its s,
             state_of (Write length now its s) = s)
    by (intros; apply (Write_keeps length now its s)).
  split; [|split; [|split]].
  - intros size now prefill pre it post k t s timer run
      Hopen Hpre Hk Hr Hready Hq Hnone.
    subst run. split; [|rewrite KR; reflexivity].
    rewrite (Read_on_open _ _ _ _ _ Hopen). cbv zeta.
    cbn [result_of fst]. fold timer.
    apply (Read_loop_disconnected size timer pre it post _ k s t); assumption.
  - intros length now pre it post k t s timer run
      Hopen Hpre Hk Hr Hready Hnone.
    subst run. split; [|rewrite KW; reflexivity].
    rewrite (Write_on_open _ _ _ _ Hopen). cbv zeta.
    cbn [result_of fst]. fold timer.
    apply (Write_loop_disconnected length timer pre it post _ k s t);
      assumption.
  - intros. rewrite KR. reflexivity.
  - intros. rewrite KW. reflexivity.
Qed.

Lemma transfer_of_nothing_when_ready_is_fatal_witness :
  result_of (Read 4 1000 (fun _ => 0) [pass_with 1010 0] (sample_port true))
    = Thrown disconnected_on_read
  /\ result_of (Write 4 1000 [write_pass_with 1010 0] (sample_port true))
     = Thrown disconnected_on_write.
Proof.
  destruct transfer_of_nothing_when_ready_is_fatal as (HR & HW & _ & _).
  split.
  - apply (HR 4 1000 (fun _ => 0) [] (pass_with 1010 0) [] 0 []
              (sample_port true));
      [ reflexivity | reflexivity | lia | vm_compute; reflexivity
      | split; [simpl; lia | reflexivity] | intros _ _; simpl; lia
      | simpl; lia ].
  - apply (HW 4 1000 [] (write_pass_with 1010 0) [] 0 [] (sample_port true));
      [ reflexivity | reflexivity | lia | vm_compute; reflexivity
      | split; [simpl; lia | reflexivity] | simpl; lia ].
Defined.

(** ** The count never exceeds the request *)

Lemma Read_iteration_within_request size timer n it s :
  size < UINT64_MOD ->
  transfers_at_most_asked (ri_read it) ->
  0 <= n <= size -> n < size ->
  result_of (Read_iteration size timer n it s) <> Thrown over_read
  /\ forall st, result_of (Read_iteration size timer n it s) = Returned st ->
       0 <= match st with Continue m | Break m => m end <= size.
Proof.
  intros Hsize Hle Hn Hlt.
  destruct (pass_ready_or_not timer it) as [[Hr Hready]|Hnot].
  - destruct (coalescing_wait_outcome size n (ri_inq it) s)
      as (tc & [Hc|[_ Hc]]).
    + rewrite (Read_iteration_ready _ _ _ _ _ _ Hr Hready Hc).
      cbv zeta. cbn [result_of fst].
      assert (A : to_size_t (size - n) = size - n)
        by (apply to_size_t_small; lia).
      rewrite A. specialize (Hle (size - n)).
      destruct (Z.ltb_spec (ri_read it (size - n)) 1) as [Hnone|Hpos].
      { split; [discriminate|]. intros st H'. discriminate H'. }
      rewrite (to_size_t_small (ri_read it (size - n))) by lia.
      rewrite (to_size_t_small (n + ri_read it (size - n))) by lia.
      destruct (Z.eqb_spec (n + ri_read it (size - n)) size).
      { split; [discriminate|]. intros st [= <-]. lia. }
      destruct (Z.ltb_spec (n + ri_read it (size - n)) size).
      { split; [discriminate|]. intros st [= <-]. lia. }
      lia.
    + rewrite (Read_iteration_ready_but_query_failed _ _ _ _ _ _ _
                 Hr Hready Hc).
      cbn [result_of fst]. split; [discriminate|]. intros st H. discriminate H.
  - destruct (Read_iteration_not_ready size timer n it s Hnot)
      as (_ & Hbad & Hst).
    split; [exact Hbad|]. intros st H. destruct (Hst st H) as [-> | ->]; lia.
Qed.

Lemma Write_iteration_within_request length timer n it s :
  length < UINT64_MOD ->
  transfers_at_most_asked (wi_write it) ->
  0 <= n <= length -> n < length ->
  result_of (Write_iteration length timer n it s) <> Thrown over_write
  /\ forall st, result_of (Write_iteration length timer n it s) = Returned st ->
       0 <= match st with Continue m | Break m => m end <= length.
Proof.
  intros Hsize Hle Hn Hlt.
  destruct (write_pass_ready_or_not timer it) as [[Hr Hready]|Hnot].
  - rewrite (Write_iteration_ready _ _ _ _ _ Hr Hready).
    cbv zeta. cbn [result_of fst].
    assert (A : to_size_t (length - n) = length - n)
      by (apply to_size_t_small; lia).
    rewrite A. specialize (Hle (length - n)).
    destruct (Z.ltb_spec (wi_write it (length - n)) 1) as [Hnone|Hpos].
    { split; [discriminate|]. intros st H'. discriminate H'. }
    rewrite (to_size_t_small (wi_write it (length - n))) by lia.
    rewrite (to_size_t_small (n + wi_write it (length - n))) by lia.
    destruct (Z.eqb_spec (n + wi_write it (length - n)) length).
    { split; [discriminate|]. intros st [= <-]. lia. }
    destruct (Z.ltb_spec (n + wi_write it (length - n)) length).
    { split; [discriminate|]. intros st [= <-]. lia. }
    lia.
  - destruct (Write_iteration_not_ready length timer n it s Hnot)
      as (Hbad & Hst).
    split; [exact Hbad|]. intros st H. destruct (Hst st H) as [-> | ->]; lia.
Qed.

(** C9.  When every underlying transfer returns at most the count it was
    asked for, [Read] and [Write] never throw the over-read / over-write
    exception, and a count they return lies between zero and the request. *)
Theorem transfers_never_exceed_the_request :
  (forall size now prefill its s,
     0 <= size < UINT64_MOD ->
     transfers_at_most_asked prefill ->
     Forall (fun it => transfers_at_most_asked (ri_read it)) its ->
     result_of (Read size now prefill its s) <> Thrown over_read
     /\ forall n, result_of (Read size now prefill its s) = Returned n ->
          0 <= n <= size)
  /\ (forall length now its s,
        0 <= length < UINT64_MOD ->
        Forall (fun it => transfers_at_most_asked (wi_write it)) its ->
        result_of (Write length now its s) <> Thrown over_write
        /\ forall n, result_of (Write length now its s) = Returned n ->
             0 <= n <= length).
Proof.
  split.
  - intros size now prefill its s Hsize Hpre Hits.
    destruct (is_open_ s) eqn:Hopen.
    2:{ rewrite (Read_on_closed _ _ _ _ _ Hopen). cbn.
        split; [discriminate|]. intros n H. discriminate H. }
    rewrite (Read_on_open _ _ _ _ _ Hopen). cbv zeta. cbn [result_of fst].
    apply (transfer_loop_invariant _ size
             (fun it => transfers_at_most_asked (ri_read it))
             (fun n => 0 <= n <= size) over_read).
    + intros n it s' Hit Hn Hlt.
      apply Read_iteration_within_request; [lia | assumption..].
    + exact Hits.
    + unfold prefilled. specialize (Hpre size).
      destruct (Z.ltb_spec 0 (prefill size)); [|lia].
      rewrite to_size_t_small by lia. lia.
  - intros length now its s Hsize Hits.
    destruct (is_open_ s) eqn:Hopen.
    2:{ unfold Write. run_monad. rewrite Hopen. cbn.
        split; [discriminate|]. intros n H. discriminate H. }
    rewrite (Write_on_open _ _ _ _ Hopen). cbv zeta. cbn [result_of fst].
    apply (transfer_loop_invariant _ length
             (fun it => transfers_at_most_asked (wi_write it))
             (fun n => 0 <= n <= length) over_write).
    + intros n it s' Hit Hn Hlt.
      apply Write_iteration_within_request; [lia | assumption..].
    + exact Hits.
    + lia.
Qed.

Lemma transfers_never_exceed_the_request_witness :
  result_of (Read 4 1000 (fun count => Z.min count 1)
               [pass_with 1010 1; pass_with 1020 5] (sample_port true))
    <> Thrown over_read
  /\ result_of (Write 4 1000
                  [write_pass_with 1010 1; write_pass_with 1020 5]
                  (sample_port true))
     <> Thrown over_write.
Proof.
  destruct transfers_never_exceed_the_request as (HR & HW).
  split.
  - apply (HR 4 1000 (fun count => Z.min count 1)
              [pass_with 1010 1; pass_with 1020 5] (sample_port true)).
    + unfold UINT64_MOD. simpl. lia.
    + intros count. simpl. lia.
    + repeat constructor; intros count; simpl; lia.
  - apply (HW 4 1000 [write_pass_with 1010 1; write_pass_with 1020 5]
              (sample_port true)).
    + unfold UINT64_MOD. simpl. lia.
    + repeat constructor; intros count; simpl; lia.
Defined.


(** * The rest of the class: properties *)

(** ** Open *)

(** X1.  [Open] checks the object before it touches the system: with an
    empty port name it throws [invalid_argument], and with a name on a port
    that is already open it throws [SerialException]; in both cases no
    [::open] is attempted, whatever the kernel would have answered, and the
    object is left as it was. *)
Theorem Open_refuses_empty_name_and_open_port
    (h : host) (attempts : list open_reply) (os : reconf_os) (s : SerialImpl) :
  port_ s = "" \/ is_open_ s = true ->
  (exists e, result_of (Open h attempts os s) = Thrown e
             /\ e = (if String.eqb (port_ s) ""
                     then invalid_argument "Empty port is invalid."
                     else SerialException "Serial port already open."))
  /\ state_of (Open h attempts os s) = s
  /\ open_attempts (log_of (Open h attempts os s)) = 0%nat.
Proof.
  intros H. destruct (Open_refuses h attempts os s) as [He Ho].
  destruct (String.eqb_spec (port_ s) "") as [E|N].
  - rewrite (He E). cbn. eauto.
  - destruct H as [E|E]; [contradiction|]. rewrite (Ho N E). cbn. eauto.
Qed.

Lemma Open_refuses_empty_name_and_open_port_witness :
  state_of (Open linux [ok] willing_os (sample_port true)) = sample_port true
  /\ open_attempts (log_of (Open linux [ok] willing_os (sample_port true)))
     = 0%nat.
Proof.
  destruct (Open_refuses_empty_name_and_open_port
              linux [ok] willing_os (sample_port true)) as (_ & S & L).
  - right. reflexivity.
  - split; [exact S | exact L].
Defined.

(** The object a successful [Open] leaves: the one [ReconfigurePort] made
    of the object holding the new descriptor, marked open. *)
Lemma Open_succeeds
    (h : host) (os : reconf_os) (s : SerialImpl) (n : nat)
    (r : open_reply) (rest : list open_reply) :
  port_ s <> "" -> is_open_ s = false ->
  ret r <> -1 ->
  result_of (ReconfigurePort h os (set_fd (ret r) s)) = Returned tt ->
  let run := Open h (repeat interrupted n ++ r :: rest) os s in
  result_of run = Returned tt
  /\ state_of run
     = set_is_open true (state_of (ReconfigurePort h os (set_fd (ret r) s))).
Proof.
  intros Hport Hclosed Hfd RR run. subst run.
  assert (Hr : (ret r =? -1) && (errno r =? EINTR) = false).
  { destruct (Z.eqb_spec (ret r) (-1)); [contradiction | reflexivity]. }
  destruct (Open_skips_interruptions h os n r rest s Hport Hclosed Hr)
    as (R & St & _).
  unfold open_reply in *. rewrite R, St.
  rewrite (Open_deciding_attempt h r rest os s Hport Hclosed Hr).
  destruct (Z.eqb_spec (ret r) (-1)) as [|_]; [contradiction|].
  rewrite RR. split; reflexivity.
Qed.

(** X2.  On a closed port with a name, after any number of interrupted
    attempts, an [::open] that yields a descriptor followed by a
    reconfiguration whose checks pass makes [Open] return with the port
    marked open, the descriptor stored, the byte time set from the
    configuration, and the configuration itself untouched; one [::open] was
    attempted per interruption plus one. *)
Theorem Open_opens_and_configures
    (h : host) (os : reconf_os) (s : SerialImpl) (n : nat)
    (r : open_reply) (rest : list open_reply) :
  port_ s <> "" -> is_open_ s = false ->
  ret r <> -1 ->
  ret (os_tcgetattr os) <> -1 ->
  baud_accepted h os (baudrate_ s) = true ->
  valid_bytesize (bytesize_ s) = true ->
  valid_stopbits (stopbits_ s) = true ->
  parity_supported h (parity_ s) = true ->
  let run := Open h (repeat interrupted n ++ r :: rest) os s in
  result_of run = Returned tt
  /\ is_open_ (state_of run) = true
  /\ fd_ (state_of run) = ret r
  /\ byte_time_ns_ (state_of run) = estimate_of s
  /\ (port_ (state_of run), timeout_ (state_of run), baudrate_ (state_of run),
      bytesize_ (state_of run), parity_ (state_of run),
      stopbits_ (state_of run), flowcontrol_ (state_of run))
     = (port_ s, timeout_ s, baudrate_ s, bytesize_ s, parity_ s,
        stopbits_ s, flowcontrol_ s)
  /\ open_attempts (log_of run) = S n.
Proof.
  intros Hport Hclosed Hfd Hget Hbaud Hsize Hstop Hpar run. subst run.
  assert (Hr : (ret r =? -1) && (errno r =? EINTR) = false).
  { destruct (Z.eqb_spec (ret r) (-1)); [contradiction | reflexivity]. }
  destruct (ReconfigurePort_succeeds h os (set_fd (ret r) s))
    as (RR & T & Cf & _); auto.
  destruct (Open_succeeds h os s n r rest Hport Hclosed Hfd RR) as (R & St).
  destruct (Open_after_interruptions h os n r rest s 0 Hport Hclosed Hr)
    as (_ & _ & C).
  unfold open_reply in *. rewrite R, St, C.
  cbn [set_is_open is_open_ fd_ byte_time_ns_ port_ timeout_ baudrate_
       bytesize_ parity_ stopbits_ flowcontrol_].
  unfold configuration in Cf. cbn [set_fd port_ fd_ is_open_ timeout_
    baudrate_ parity_ bytesize_ stopbits_ flowcontrol_] in Cf.
  injection Cf as Cport Cfd Copen Ctimeout Cbaud Cpar Csize Cstop Cflow.
  rewrite T. unfold estimate_of. cbn [set_fd baudrate_ bytesize_ parity_
                                       stopbits_].
  repeat split; congruence.
Qed.

Lemma Open_opens_and_configures_witness :
  is_open_
    (state_of (Open linux (repeat interrupted 2 ++ [{| ret := 3; errno := 0 |}])
                 willing_os (sample_port false))) = true.
Proof.
  apply (Open_opens_and_configures linux willing_os (sample_port false) 2
           {| ret := 3; errno := 0 |} []);
    [ simpl; discriminate | reflexivity | simpl; lia | simpl; lia
    | reflexivity | reflexivity | reflexivity | reflexivity ].
Defined.

(** X3.  When, after any number of interrupted attempts, [::open] fails for
    another reason, [Open] throws: the "too many file handles" I/O condition
    for [ENFILE] and [EMFILE], the I/O condition carrying [errno] otherwise.
    The port stays closed with no descriptor, and the device is never
    configured. *)
Theorem Open_reports_a_failed_open
    (h : host) (os : reconf_os) (s : SerialImpl) (n : nat)
    (r : open_reply) (rest : list open_reply) :
  port_ s <> "" -> is_open_ s = false ->
  ret r = -1 -> errno r <> EINTR ->
  let run := Open h (repeat interrupted n ++ r :: rest) os s in
  result_of run
    = Thrown (if (errno r =? ENFILE) || (errno r =? EMFILE)
              then IOException "Too many file handles open."
              else IOException_errno (errno r))
  /\ is_open_ (state_of run) = false
  /\ fd_ (state_of run) = -1
  /\ (forall e, configuring e -> ~ In e (log_of run)).
Proof.
  intros Hport Hclosed Hfd Herr run. subst run.
  assert (Hr : (ret r =? -1) && (errno r =? EINTR) = false).
  { destruct (Z.eqb_spec (errno r) EINTR); [contradiction|].
    apply andb_false_r. }
  destruct (Open_skips_interruptions h os n r rest s Hport Hclosed Hr)
    as (R & St & L).
  unfold open_reply in *. rewrite R, St.
  rewrite (Open_deciding_attempt h r rest os s Hport Hclosed Hr) in *.
  destruct (Z.eqb_spec (ret r) (-1)) as [_|]; [|contradiction].
  cbn [result_of state_of log_of fst snd set_fd is_open_ fd_] in *.
  repeat split; auto.
  intros e He Hin. apply (L e He) in Hin.
  destruct Hin as [<-|[<-|[]]]; exact He.
Qed.

Lemma Open_reports_a_failed_open_witness :
  result_of (Open linux [interrupted; failed EMFILE] willing_os
               (sample_port false))
    = Thrown (IOException "Too many file handles open.").
Proof.
  apply (Open_reports_a_failed_open linux willing_os (sample_port false) 1
           (failed EMFILE) []);
    [ simpl; discriminate | reflexivity | reflexivity
    | unfold EINTR, EMFILE; simpl; lia ].
Defined.

(** X4.  When [::open] yields a descriptor and the reconfiguration that
    follows throws, [Open] throws the same exception and keeps the
    descriptor in [fd_] while the port stays marked closed.  [Close] then
    does nothing at all: the descriptor is never handed back to the
    system. *)
Theorem Open_keeps_the_descriptor_when_configuring_fails
    (h : host) (os : reconf_os) (s : SerialImpl) (n : nat)
    (r : open_reply) (rest : list open_reply) (e : exn) (os_close : sysret) :
  port_ s <> "" -> is_open_ s = false ->
  ret r <> -1 ->
  result_of (ReconfigurePort h os (set_fd (ret r) s)) = Thrown e ->
  let run := Open h (repeat interrupted n ++ r :: rest) os s in
  result_of run = Thrown e
  /\ is_open_ (state_of run) = false
  /\ fd_ (state_of run) = ret r
  /\ Close os_close (state_of run) = (Returned tt, state_of run, []).
Proof.
  intros Hport Hclosed Hfd Hfail run. subst run.
  assert (Hr : (ret r =? -1) && (errno r =? EINTR) = false).
  { destruct (Z.eqb_spec (ret r) (-1)); [contradiction | reflexivity]. }
  destruct (Open_skips_interruptions h os n r rest s Hport Hclosed Hr)
    as (R & St & _).
  unfold open_reply in *. rewrite R, St.
  rewrite (Open_deciding_attempt h r rest os s Hport Hclosed Hr).
  destruct (Z.eqb_spec (ret r) (-1)) as [|_]; [contradiction|].
  rewrite Hfail. cbn [result_of state_of fst snd].
  destruct (ReconfigurePort_keeps h os (set_fd (ret r) s)) as [K _].
  unfold configuration in K. cbn [set_fd port_ fd_ is_open_ timeout_
    baudrate_ parity_ bytesize_ stopbits_ flowcontrol_] in K.
  injection K as _ Kfd Kopen _ _ _ _ _ _.
  assert (Kclosed : is_open_ (state_of (ReconfigurePort h os (set_fd (ret r) s)))
                    = false) by congruence.
  repeat split; auto.
  apply Close_on_closed. exact Kclosed.
Qed.

Lemma Open_keeps_the_descriptor_when_configuring_fails_witness :
  fd_ (state_of (Open linux [{| ret := 3; errno := 0 |}]
                   (with_tcsetattr ok
                      {| os_tcgetattr := failed 5;
                         os_termios := zero_termios;
                         os_IOSSIOSPEED := ok; os_TIOCGSERIAL := ok;
                         os_baud_base := 0; os_ser_flags := 0;
                         os_TIOCSSERIAL := ok; os_tcsetattr := ok |})
                   (sample_port false))) = 3.
Proof.
  apply (Open_keeps_the_descriptor_when_configuring_fails
           linux _ (sample_port false) 0 {| ret := 3; errno := 0 |} []
           (IOException "::tcgetattr") ok);
    [ simpl; discriminate | reflexivity | simpl; lia | reflexivity ].
Defined.

(** X5.  A [Close] whose [::close] succeeds, after an [Open] that succeeded,
    hands back exactly the descriptor [Open] obtained and leaves a closed
    object without a descriptor, on which [Open] is admissible again. *)
Theorem Close_after_Open_releases_the_descriptor
    (h : host) (os : reconf_os) (s : SerialImpl) (n : nat)
    (r : open_reply) (rest : list open_reply) (os_close : sysret) :
  port_ s <> "" -> is_open_ s = false ->
  ret r <> -1 ->
  ret (os_tcgetattr os) <> -1 ->
  baud_accepted h os (baudrate_ s) = true ->
  valid_bytesize (bytesize_ s) = true ->
  valid_stopbits (stopbits_ s) = true ->
  parity_supported h (parity_ s) = true ->
  ret os_close = 0 ->
  let opened := state_of (Open h (repeat interrupted n ++ r :: rest) os s) in
  let closed := Close os_close opened in
  result_of closed = Returned tt
  /\ log_of closed = [sys_close (ret r)]
  /\ is_open_ (state_of closed) = false
  /\ fd_ (state_of closed) = -1
  /\ port_ (state_of closed) = port_ s.
Proof.
  intros Hport Hclosed Hfd Hget Hbaud Hsize Hstop Hpar Hclose opened closed.
  destruct (ReconfigurePort_succeeds h os (set_fd (ret r) s))
    as (RR & _ & Cf & _); auto.
  destruct (Open_succeeds h os s n r rest Hport Hclosed Hfd RR) as (_ & St).
  unfold configuration in Cf. cbn [set_fd port_ fd_] in Cf.
  injection Cf as Cport Cfd _ _ _ _ _ _ _.
  assert (Ho : is_open_ opened = true) by (subst opened; rewrite St; reflexivity).
  assert (Hd : fd_ opened = ret r) by (subst opened; rewrite St; exact Cfd).
  assert (Hp : port_ opened = port_ s)
    by (subst opened; rewrite St; exact Cport).
  subst closed.
  rewrite (Close_released os_close opened Ho) by (try rewrite Hd; assumption).
  cbn [result_of state_of log_of fst snd set_is_open set_fd is_open_ fd_ port_].
  rewrite Hd. repeat split; auto.
Qed.

Lemma Close_after_Open_releases_the_descriptor_witness :
  log_of (Close ok (state_of (Open linux [{| ret := 7; errno := 0 |}]
                                willing_os (sample_port false))))
    = [sys_close 7].
Proof.
  apply (Close_after_Open_releases_the_descriptor
           linux willing_os (sample_port false) 0
           {| ret := 7; errno := 0 |} [] ok);
    [ simpl; discriminate | reflexivity | simpl; lia | simpl; lia
    | reflexivity | reflexivity | reflexivity | reflexivity | reflexivity ].
Defined.


(** ** Flag words *)

Lemma testbit_uint32_lnot m n :
  Z.testbit (to_uint32 (Z.lnot m)) n
  = (0 <=? n) && (n <? 32) && negb (Z.testbit m n).
Proof.
  unfold to_uint32, UINT32_MOD.
  destruct (Z.leb_spec 0 n) as [H0|H0]; cbn [andb].
  - destruct (Z.ltb_spec n 32) as [H|H]; cbn [andb].
    + rewrite Z.mod_pow2_bits_low by lia. apply Z.lnot_spec. lia.
    + apply Z.mod_pow2_bits_high. lia.
  - apply Z.testbit_neg_r. lia.
Qed.

Lemma testbit_of_uint32 k n :
  0 <= k < 2 ^ 32 -> Z.testbit k n = true -> 0 <= n < 32.
Proof.
  intros Hk Hn.
  destruct (Z.ltb_spec n 0) as [H0|H0];
    [rewrite Z.testbit_neg_r in Hn by lia; discriminate|].
  destruct (Z.ltb_spec n 32) as [H|H]; [lia|].
  rewrite <- (Z.mod_small k (2 ^ 32)) in Hn by lia.
  rewrite Z.mod_pow2_bits_high in Hn by lia. discriminate.
Qed.

Lemma land_clear_bits_same f m : Z.land (clear_bits f m) m = 0.
Proof.
  unfold clear_bits. apply Z.bits_inj'. intros n Hn.
  rewrite !Z.land_spec, testbit_uint32_lnot, Z.bits_0.
  destruct (Z.testbit m n); cbn; rewrite ?andb_false_r; reflexivity.
Qed.

Lemma land_clear_bits_sub f m k :
  Z.land k m = k -> Z.land (clear_bits f m) k = 0.
Proof.
  intros Hsub. rewrite <- Hsub, (Z.land_comm k m), Z.land_assoc.
  rewrite land_clear_bits_same. apply Z.land_0_l.
Qed.

Lemma land_clear_bits_other f m k :
  0 <= k < 2 ^ 32 -> Z.land m k = 0 ->
  Z.land (clear_bits f m) k = Z.land f k.
Proof.
  intros Hk Hd. unfold clear_bits. apply Z.bits_inj'. intros n Hn.
  rewrite !Z.land_spec, testbit_uint32_lnot.
  destruct (Z.testbit k n) eqn:Ek; [|rewrite !andb_false_r; reflexivity].
  pose proof (testbit_of_uint32 k n Hk Ek) as Hr.
  assert (Em : Z.testbit m n = false).
  { pose proof (f_equal (fun z => Z.testbit z n) Hd) as E. cbn beta in E.
    rewrite Z.land_spec, Ek, Z.bits_0, andb_true_r in E. exact E. }
  rewrite Em.
  destruct (Z.leb_spec 0 n); [|lia]. destruct (Z.ltb_spec n 32); [|lia].
  cbn. rewrite !andb_true_r. reflexivity.
Qed.

Lemma land_set_bits_same f m : Z.land (set_bits f m) m = m.
Proof.
  unfold set_bits. apply Z.bits_inj'. intros n Hn.
  rewrite Z.land_spec, Z.lor_spec.
  destruct (Z.testbit f n), (Z.testbit m n); reflexivity.
Qed.

Lemma land_set_bits_sub f m k :
  Z.land k m = k -> Z.land (set_bits f m) k = k.
Proof.
  intros Hsub. rewrite <- Hsub at 1. rewrite (Z.land_comm k m), Z.land_assoc.
  rewrite land_set_bits_same, Z.land_comm. exact Hsub.
Qed.

Lemma land_set_bits_other f m k :
  Z.land m k = 0 -> Z.land (set_bits f m) k = Z.land f k.
Proof.
  intros Hd. unfold set_bits.
  rewrite Z.land_lor_distr_l, Hd. apply Z.lor_0_r.
Qed.

Lemma disjoint_submask m M k :
  Z.land m M = m -> Z.land M k = 0 -> Z.land m k = 0.
Proof.
  intros Hsub Hd. rewrite <- Hsub, <- Z.land_assoc, Hd. apply Z.land_0_r.
Qed.

Lemma disjoint_from_lor a b k :
  Z.land (Z.lor a b) k = 0 -> Z.land a k = 0 /\ Z.land b k = 0.
Proof.
  rewrite Z.land_lor_distr_l. intros H. apply Z.lor_eq_0_iff in H. exact H.
Qed.

(** A flag word built by setting and clearing sub-masks of [M] agrees with
    the word it was built from on every mask disjoint from [M]. *)
Ltac untouched Hk Hd :=
  repeat first
    [ rewrite land_set_bits_other
        by (eapply disjoint_submask; [|exact Hd]; reflexivity)
    | rewrite land_clear_bits_other
        by (first [exact Hk
                  | eapply disjoint_submask; [|exact Hd]; reflexivity]) ];
  try reflexivity.

Ltac concrete_range := cbv; split; [intros H; discriminate H | reflexivity].

(** The same for concrete masks. *)
Ltac flag_calc :=
  repeat first
    [ rewrite land_set_bits_other by reflexivity
    | rewrite land_clear_bits_other by (first [concrete_range | reflexivity])
    | rewrite land_set_bits_sub by reflexivity
    | rewrite land_clear_bits_sub by reflexivity ];
  try reflexivity.

(** ** The stages of ReconfigurePort *)

Lemma raw_mode_settings o :
  Z.land (c_lflag (raw_mode o)) LOCAL_RAW = 0
  /\ Z.land (c_oflag (raw_mode o)) Flag.OPOST = 0
  /\ Z.land (c_iflag (raw_mode o)) INPUT_RAW = 0
  /\ Z.land (c_cflag (raw_mode o)) CONTROL_LOCAL = CONTROL_LOCAL
  /\ (forall k, 0 <= k < 2 ^ 32 -> Z.land CONTROL_LOCAL k = 0 ->
        Z.land (c_cflag (raw_mode o)) k = Z.land (c_cflag o) k)
  /\ (forall k, 0 <= k < 2 ^ 32 -> Z.land INPUT_RAW k = 0 ->
        Z.land (c_iflag (raw_mode o)) k = Z.land (c_iflag o) k)
  /\ c_ispeed (raw_mode o) = c_ispeed o /\ c_ospeed (raw_mode o) = c_ospeed o.
Proof.
  unfold raw_mode.
  cbn [c_lflag c_oflag c_cflag c_iflag c_ispeed c_ospeed with_cflag
       with_lflag with_oflag with_iflag].
  repeat split.
  - apply land_clear_bits_same.
  - apply land_clear_bits_same.
  - change INPUT_RAW
      with (Z.lor (Z.lor Flag.INLCR (Z.lor Flag.IGNCR
                     (Z.lor Flag.ICRNL Flag.IGNBRK)))
                  (Z.lor Flag.IUCLC Flag.PARMRK)).
    rewrite !Z.land_lor_distr_r. flag_calc.
  - apply land_set_bits_same.
  - intros k Hk Hd. untouched Hk Hd.
  - intros k Hk Hd. untouched Hk Hd.
Qed.

Lemma setup_baud_options h os o s o' s' t :
  setup_baud h os o s = (Returned o', s', t) ->
  s' = s
  /\ Forall (fun e => ~ is_tcsetattr e) t
  /\ match enumerated_baud h (baudrate_ s) with
     | Some b => o' = with_speed b o /\ t = []
     | None =>
         o' = o
         /\ match custom_baud h with
            | IOSSIOSPEED_path =>
                t = [sys_ioctl_IOSSIOSPEED (fd_ s) (baudrate_ s)]
            | TIOCSSERIAL_path =>
                t = [sys_ioctl_TIOCGSERIAL (fd_ s);
                     sys_ioctl_TIOCSSERIAL (fd_ s)
                       (Z.quot (os_baud_base os) (to_int (baudrate_ s)))
                       (Z.lor (Z.land (os_ser_flags os)
                                      (Z.lnot Flag.ASYNC_SPD_MASK))
                              Flag.ASYNC_SPD_CUST)]
            | no_custom_path => False
            end
     end.
Proof.
  unfold setup_baud. run_monad.
  destruct (enumerated_baud h (baudrate_ s)).
  - intros [= <- <- <-]. repeat split; constructor.
  - destruct (custom_baud h); split_ifs; intros [= <- <- <-];
      repeat split; repeat constructor; cbn; tauto.
Qed.

Lemma setup_char_len_options o s o' s' t :
  setup_char_len o s = (Returned o', s', t) ->
  s' = s /\ t = []
  /\ valid_bytesize (bytesize_ s) = true
  /\ o' = with_cflag
            (set_bits (clear_bits (c_cflag o) Flag.CSIZE)
                      (16 * (bytesize_ s - 5))) o.
Proof.
  unfold setup_char_len, valid_bytesize. run_monad.
  destruct (Z.eqb_spec (bytesize_ s) eightbits) as [E|_];
    [rewrite E; intros [= <- <- <-]; repeat split|].
  destruct (Z.eqb_spec (bytesize_ s) sevenbits) as [E|_];
    [rewrite E; intros [= <- <- <-]; repeat split|].
  destruct (Z.eqb_spec (bytesize_ s) sixbits) as [E|_];
    [rewrite E; intros [= <- <- <-]; repeat split|].
  destruct (Z.eqb_spec (bytesize_ s) fivebits) as [E|_];
    [rewrite E; intros [= <- <- <-]; repeat split|].
  intros H. discriminate H.
Qed.

Lemma setup_stopbits_options o s o' s' t :
  setup_stopbits o s = (Returned o', s', t) ->
  s' = s /\ t = []
  /\ valid_stopbits (stopbits_ s) = true
  /\ o' = with_cflag
            (if stopbits_ s =? stopbits_one
             then clear_bits (c_cflag o) Flag.CSTOPB
             else set_bits (c_cflag o) Flag.CSTOPB) o.
Proof.
  unfold setup_stopbits, valid_stopbits. run_monad.
  destruct (stopbits_ s =? stopbits_one);
    [intros [= <- <- <-]; repeat split|].
  destruct (stopbits_ s =? stopbits_one_point_five);
    [intros [= <- <- <-]; repeat split|].
  destruct (stopbits_ s =? stopbits_two);
    [intros [= <- <- <-]; repeat split|].
  intros H. discriminate H.
Qed.

Ltac fields :=
  cbn [c_lflag c_oflag c_cflag c_iflag c_ispeed c_ospeed c_cc_VMIN c_cc_VTIME
       with_cflag with_lflag with_oflag with_iflag with_ispeed with_ospeed
       with_polling_read].

Lemma setup_parity_options h o s o' s' t :
  setup_parity h o s = (Returned o', s', t) ->
  s' = s /\ t = []
  /\ parity_supported h (parity_ s) = true
  /\ c_lflag o' = c_lflag o /\ c_oflag o' = c_oflag o
  /\ c_ispeed o' = c_ispeed o /\ c_ospeed o' = c_ospeed o
  /\ Z.land (c_iflag o') INPUT_PARITY = 0
  /\ (forall k, 0 <= k < 2 ^ 32 -> Z.land INPUT_PARITY k = 0 ->
        Z.land (c_iflag o') k = Z.land (c_iflag o) k)
  /\ (forall k, 0 <= k < 2 ^ 32 -> Z.land CONTROL_PARITY k = 0 ->
        Z.land (c_cflag o') k = Z.land (c_cflag o) k)
  /\ Z.land (c_cflag o') Flag.PARENB
     = (if parity_ s =? parity_none then 0 else Flag.PARENB)
  /\ Z.land (c_cflag o') Flag.PARODD
     = (if (parity_ s =? parity_odd) || (parity_ s =? parity_mark)
        then Flag.PARODD else 0)
  /\ Z.land (c_cflag o') Flag.CMSPAR
     = (if (parity_ s =? parity_mark) || (parity_ s =? parity_space)
        then Flag.CMSPAR else Z.land (c_cflag o) Flag.CMSPAR).
Proof.
  unfold setup_parity, parity_supported. run_monad.
  destruct (Z.eqb_spec (parity_ s) parity_none) as [E|_];
    [| destruct (Z.eqb_spec (parity_ s) parity_even) as [E|_];
       [| destruct (Z.eqb_spec (parity_ s) parity_odd) as [E|_];
          [| destruct (has_CMSPAR h);
             [ destruct (Z.eqb_spec (parity_ s) parity_mark) as [E|_];
               [| destruct (Z.eqb_spec (parity_ s) parity_space) as [E|_];
                  [| intros H; discriminate H ] ]
             | destruct ((parity_ s =? parity_mark)
                         || (parity_ s =? parity_space));
               intros H; discriminate H ] ] ] ];
    rewrite ?E; intros [= <- <- <-]; fields;
    cbv beta iota delta [parity_none parity_odd parity_even parity_mark
                         parity_space Z.eqb Pos.eqb orb andb];
    (repeat split;
     [ unfold INPUT_PARITY; flag_calc
     | intros k Hk Hd; untouched Hk Hd
     | intros k Hk Hd; untouched Hk Hd
     | flag_calc | flag_calc | flag_calc ]).
Qed.

Lemma setup_flow_control_options o s o' s' t :
  setup_flow_control o s = (Returned o', s', t) ->
  t = []
  /\ configuration s' = configuration s
  /\ byte_time_ns_ s' = byte_time_ns_ s
  /\ (xonxoff_ s', rtscts_ s')
     = (if flowcontrol_ s =? flowcontrol_none then (false, false)
        else if flowcontrol_ s =? flowcontrol_software then (true, false)
        else if flowcontrol_ s =? flowcontrol_hardware then (false, true)
        else (xonxoff_ s, rtscts_ s))
  /\ c_lflag o' = c_lflag o /\ c_oflag o' = c_oflag o
  /\ c_ispeed o' = c_ispeed o /\ c_ospeed o' = c_ospeed o
  /\ Z.land (c_iflag o') (Z.lor Flag.IXON Flag.IXOFF)
     = (if xonxoff_ s' then Z.lor Flag.IXON Flag.IXOFF else 0)
  /\ (xonxoff_ s' = false -> Z.land (c_iflag o') Flag.IXANY = 0)
  /\ Z.land (c_cflag o') Flag.CRTSCTS
     = (if rtscts_ s' then Flag.CRTSCTS else 0)
  /\ (forall k, 0 <= k < 2 ^ 32 -> Z.land INPUT_XONXOFF k = 0 ->
        Z.land (c_iflag o') k = Z.land (c_iflag o) k)
  /\ (forall k, 0 <= k < 2 ^ 32 -> Z.land Flag.CRTSCTS k = 0 ->
        Z.land (c_cflag o') k = Z.land (c_cflag o) k).
Proof.
  unfold setup_flow_control. run_monad.
  destruct (Z.eqb_spec (flowcontrol_ s) flowcontrol_none) as [E0|N0];
    destruct (Z.eqb_spec (flowcontrol_ s) flowcontrol_software) as [E1|N1];
    destruct (Z.eqb_spec (flowcontrol_ s) flowcontrol_hardware) as [E2|N2];
    try (exfalso;
         unfold flowcontrol_none, flowcontrol_software,
           flowcontrol_hardware in *; lia);
    cbn [set_flow xonxoff_ rtscts_];
    intros [= <- <- <-];
    cbn [set_flow xonxoff_ rtscts_ byte_time_ns_]; fields.
  4:{ destruct (xonxoff_ s), (rtscts_ s); fields;
      (repeat split;
       [ flag_calc | intros H; first [discriminate H | flag_calc]
       | flag_calc | intros k Hk Hd; untouched Hk Hd
       | intros k Hk Hd; untouched Hk Hd ]); try discriminate. }
  all: (repeat split;
        [ flag_calc | intros H; first [discriminate H | flag_calc]
        | flag_calc | intros k Hk Hd; untouched Hk Hd
        | intros k Hk Hd; untouched Hk Hd ]); try discriminate.
Qed.

(** A [ReconfigurePort] that returned went through every stage. *)
Lemma ReconfigurePort_returned h os s :
  result_of (ReconfigurePort h os s) = Returned tt ->
  exists o1 t1 o2 o3 o4 o5 s5,
    fd_ s <> -1 /\ ret (os_tcgetattr os) <> -1
    /\ setup_baud h os (raw_mode (os_termios os)) s = (Returned o1, s, t1)
    /\ setup_char_len o1 s = (Returned o2, s, [])
    /\ setup_stopbits o2 s = (Returned o3, s, [])
    /\ setup_parity h o3 s = (Returned o4, s, [])
    /\ setup_flow_control o4 s = (Returned o5, s5, [])
    /\ ReconfigurePort h os s
       = (Returned tt, set_byte_time_ns (estimate_of s5) s5,
          sys_tcgetattr (fd_ s) :: t1
            ++ [sys_tcsetattr (fd_ s) (with_polling_read o5)]).
Proof.
  unfold ReconfigurePort. run_monad.
  destruct (Z.eqb_spec (fd_ s) (-1)) as [|Hfd]; [discriminate|].
  destruct (Z.eqb_spec (ret (os_tcgetattr os)) (-1)) as [|Hget];
    [discriminate|].
  destruct (setup_baud h os (raw_mode (os_termios os)) s)
    as [[[o1| | |] s1] t1] eqn:E1; try discriminate.
  destruct (setup_baud_options _ _ _ _ _ _ _ E1) as (-> & _).
  destruct (setup_char_len o1 s) as [[[o2| | |] s2] t2] eqn:E2;
    try discriminate.
  destruct (setup_char_len_options _ _ _ _ _ E2) as (-> & -> & _).
  destruct (setup_stopbits o2 s) as [[[o3| | |] s3] t3] eqn:E3;
    try discriminate.
  destruct (setup_stopbits_options _ _ _ _ _ E3) as (-> & -> & _).
  destruct (setup_parity h o3 s) as [[[o4| | |] s4] t4] eqn:E4;
    try discriminate.
  destruct (setup_parity_options _ _ _ _ _ _ E4) as (-> & -> & _).
  destruct (setup_flow_control o4 s) as [[[o5| | |] s5] t5] eqn:E5;
    try discriminate.
  destruct (setup_flow_control_options _ _ _ _ _ E5) as (-> & _).
  intros _. exists o1, t1, o2, o3, o4, o5, s5.
  repeat split; auto.
Qed.

(** A [ReconfigurePort] that did not return stopped before [tcsetattr] and
    before any member was written. *)
Lemma ReconfigurePort_failed h os s :
  result_of (ReconfigurePort h os s) <> Returned tt ->
  state_of (ReconfigurePort h os s) = s
  /\ Forall (fun e => ~ is_tcsetattr e) (log_of (ReconfigurePort h os s)).
Proof.
  unfold ReconfigurePort. run_monad.
  destruct (Z.eqb_spec (fd_ s) (-1)) as [|Hfd]; [cbn; auto|].
  destruct (Z.eqb_spec (ret (os_tcgetattr os)) (-1)) as [|Hget].
  { cbn. intros _. split; [reflexivity|]. repeat constructor. cbn. tauto. }
  destruct (setup_baud_keeps h os (raw_mode (os_termios os)) s) as [_ K1].
  assert (Q1 : state_of (setup_baud h os (raw_mode (os_termios os)) s) = s
               /\ Forall (fun e => ~ is_tcsetattr e)
                    (log_of (setup_baud h os (raw_mode (os_termios os)) s))).
  { unfold setup_baud. run_monad.
    destruct (enumerated_baud h (baudrate_ s)); [cbn; auto|].
    destruct (custom_baud h); split_ifs; cbn;
      (split; [reflexivity | repeat constructor; cbn; tauto]). }
  destruct (setup_baud h os (raw_mode (os_termios os)) s)
    as [[[o1| e | |] s1] t1] eqn:E1; cbn in Q1; destruct Q1 as [-> Q1];
    try (cbn; intros _; split; [reflexivity|];
         constructor; [cbn; tauto | rewrite ?app_nil_r; exact Q1]).
  assert (Q : forall A (m : M A) (H : keeps (fun s => s) (fun _ => False) m),
            state_of (m s) = s /\ log_of (m s) = []).
  { intros A m H. destruct (H s) as [Hs Hl]. split; [exact Hs|].
    destruct (log_of (m s)); [reflexivity | inversion Hl; contradiction]. }
  assert (K2 : forall o, state_of (setup_char_len o s) = s
                         /\ log_of (setup_char_len o s) = []).
  { intros o. apply Q. unfold setup_char_len. repeat keeps_step. }
  assert (K3 : forall o, state_of (setup_stopbits o s) = s
                         /\ log_of (setup_stopbits o s) = []).
  { intros o. apply Q. unfold setup_stopbits. repeat keeps_step. }
  assert (K4 : forall o, state_of (setup_parity h o s) = s
                         /\ log_of (setup_parity h o s) = []).
  { intros o. apply Q. unfold setup_parity. repeat keeps_step. }
  specialize (K2 o1).
  destruct (setup_char_len o1 s) as [[[o2| e | |] s2] t2] eqn:E2;
    cbn in K2; destruct K2 as [-> ->];
    try (cbn; intros _; split; [reflexivity|];
         constructor; [cbn; tauto | rewrite ?app_nil_r; exact Q1]).
  specialize (K3 o2).
  destruct (setup_stopbits o2 s) as [[[o3| e | |] s3] t3] eqn:E3;
    cbn in K3; destruct K3 as [-> ->];
    try (cbn; intros _; split; [reflexivity|];
         constructor; [cbn; tauto | rewrite ?app_nil_r; exact Q1]).
  specialize (K4 o3).
  destruct (setup_parity h o3 s) as [[[o4| e | |] s4] t4] eqn:E4;
    cbn in K4; destruct K4 as [-> ->];
    try (cbn; intros _; split; [reflexivity|];
         constructor; [cbn; tauto | rewrite ?app_nil_r; exact Q1]).
  destruct (setup_flow_control_returns o4 s) as (o5 & s5 & E5 & _).
  rewrite E5. cbn. intros H. destruct H. reflexivity.
Qed.

Lemma programs_last t fd o o' :
  Forall (fun e => ~ is_tcsetattr e) t ->
  programs (t ++ [sys_tcsetattr fd o]) o' <-> o' = o.
Proof.
  intros Hq. unfold programs. split.
  - intros [fd' Hin]. apply in_app_or in Hin as [Hin|[Hin|[]]].
    + rewrite Forall_forall in Hq. destruct (Hq _ Hin). exact I.
    + congruence.
  - intros ->. exists fd. apply in_or_app. right. left. reflexivity.
Qed.

(** The settings a returned [ReconfigurePort] programmed, stage by stage. *)
Lemma ReconfigurePort_programmed h os s :
  result_of (ReconfigurePort h os s) = Returned tt ->
  exists o1 t1 o2 o3 o4 o5 s5,
    setup_baud h os (raw_mode (os_termios os)) s = (Returned o1, s, t1)
    /\ setup_char_len o1 s = (Returned o2, s, [])
    /\ setup_stopbits o2 s = (Returned o3, s, [])
    /\ setup_parity h o3 s = (Returned o4, s, [])
    /\ setup_flow_control o4 s = (Returned o5, s5, [])
    /\ state_of (ReconfigurePort h os s)
       = set_byte_time_ns (estimate_of s5) s5
    /\ log_of (ReconfigurePort h os s)
       = sys_tcgetattr (fd_ s) :: t1
           ++ [sys_tcsetattr (fd_ s) (with_polling_read o5)]
    /\ forall o, programs (log_of (ReconfigurePort h os s)) o
                 <-> o = with_polling_read o5.
Proof.
  intros R.
  destruct (ReconfigurePort_returned h os s R)
    as (o1 & t1 & o2 & o3 & o4 & o5 & s5 & _ & _
        & E1 & E2 & E3 & E4 & E5 & E).
  exists o1, t1, o2, o3, o4, o5, s5. rewrite E.
  cbn [state_of log_of fst snd]. repeat split; auto.
  - change (sys_tcgetattr (fd_ s) :: t1
              ++ [sys_tcsetattr (fd_ s) (with_polling_read o5)])
      with ((sys_tcgetattr (fd_ s) :: t1)
              ++ [sys_tcsetattr (fd_ s) (with_polling_read o5)]).
    apply programs_last. constructor; [cbn; tauto|].
    apply (setup_baud_options _ _ _ _ _ _ _ E1).
  - change (sys_tcgetattr (fd_ s) :: t1
              ++ [sys_tcsetattr (fd_ s) (with_polling_read o5)])
      with ((sys_tcgetattr (fd_ s) :: t1)
              ++ [sys_tcsetattr (fd_ s) (with_polling_read o5)]).
    apply programs_last. constructor; [cbn; tauto|].
    apply (setup_baud_options _ _ _ _ _ _ _ E1).
Qed.

(** What the two library calls make of the settings. *)
Lemma with_speed_settings b o :
  c_ispeed (with_speed b o) = b /\ c_ospeed (with_speed b o) = b
  /\ c_lflag (with_speed b o) = c_lflag o
  /\ c_oflag (with_speed b o) = c_oflag o
  /\ agree_outside SPEED_BITS (c_cflag (with_speed b o)) (c_cflag o)
  /\ Z.land (c_cflag (with_speed b o)) SPEED_BITS = Z.land b SPEED_BITS
  /\ agree_outside Flag.IBAUD0 (c_iflag (with_speed b o)) (c_iflag o)
  /\ Z.land (c_iflag (with_speed b o)) Flag.IBAUD0
     = (if b =? 0 then Flag.IBAUD0 else 0).
Proof.
  assert (Hsub : Z.land (Z.land b Flag.CBAUD) SPEED_BITS = Z.land b Flag.CBAUD).
  { rewrite <- Z.land_assoc. reflexivity. }
  assert (Hval : Z.land b Flag.CBAUD = Z.land b SPEED_BITS) by reflexivity.
  unfold with_speed, cfsetospeed, cfsetispeed. cbv zeta.
  destruct (b =? 0); fields; fold SPEED_BITS.
  - repeat split.
    + intros k Hk Hd.
      rewrite land_set_bits_other
        by (eapply disjoint_submask; [exact Hsub | exact Hd]).
      apply land_clear_bits_other; assumption.
    + unfold set_bits at 1.
      rewrite Z.land_lor_distr_l, land_clear_bits_same, Hsub.
      rewrite Z.lor_0_l. exact Hval.
    + intros k Hk Hd. apply land_set_bits_other. exact Hd.
    + apply land_set_bits_same.
  - repeat split.
    + intros k Hk Hd.
      rewrite land_set_bits_other
        by (eapply disjoint_submask; [exact Hsub | exact Hd]).
      rewrite land_clear_bits_other by assumption.
      rewrite land_set_bits_other
        by (eapply disjoint_submask; [exact Hsub | exact Hd]).
      apply land_clear_bits_other; assumption.
    + unfold set_bits at 1.
      rewrite Z.land_lor_distr_l, land_clear_bits_same, Hsub.
      rewrite Z.lor_0_l. exact Hval.
    + intros k Hk Hd. apply land_clear_bits_other; assumption.
    + apply land_clear_bits_same.
Qed.

Lemma setup_baud_flags h os o s o' s' t :
  setup_baud h os o s = (Returned o', s', t) ->
  c_lflag o' = c_lflag o /\ c_oflag o' = c_oflag o
  /\ agree_outside SPEED_BITS (c_cflag o') (c_cflag o)
  /\ agree_outside Flag.IBAUD0 (c_iflag o') (c_iflag o)
  /\ match enumerated_baud h (baudrate_ s) with
     | Some b =>
         Z.land (c_cflag o') SPEED_BITS = Z.land b SPEED_BITS
         /\ Z.land (c_iflag o') Flag.IBAUD0
            = (if b =? 0 then Flag.IBAUD0 else 0)
     | None => c_cflag o' = c_cflag o /\ c_iflag o' = c_iflag o
     end.
Proof.
  intros E. destruct (setup_baud_options _ _ _ _ _ _ _ E) as (_ & _ & H).
  destruct (enumerated_baud h (baudrate_ s)) as [b|].
  - destruct H as [-> _].
    destruct (with_speed_settings b o) as (_ & _ & L & O & C & Cv & I & Iv).
    repeat split; assumption.
  - destruct H as [-> _]. repeat split; intros k _ _; reflexivity.
Qed.

Lemma char_size_in_CSIZE b :
  valid_bytesize b = true ->
  Z.land (16 * (b - 5)) Flag.CSIZE = 16 * (b - 5).
Proof.
  intros H. apply valid_bytesize_range in H.
  assert (b = 5 \/ b = 6 \/ b = 7 \/ b = 8) as [->|[->|[->| ->]]] by lia;
    reflexivity.
Qed.

Lemma setup_char_len_flags o s o' s' t :
  setup_char_len o s = (Returned o', s', t) ->
  c_lflag o' = c_lflag o /\ c_oflag o' = c_oflag o
  /\ c_iflag o' = c_iflag o
  /\ c_ispeed o' = c_ispeed o /\ c_ospeed o' = c_ospeed o
  /\ Z.land (c_cflag o') Flag.CSIZE = 16 * (bytesize_ s - 5)
  /\ (forall k, 0 <= k < 2 ^ 32 -> Z.land Flag.CSIZE k = 0 ->
        Z.land (c_cflag o') k = Z.land (c_cflag o) k).
Proof.
  intros E. destruct (setup_char_len_options _ _ _ _ _ E) as (_ & _ & V & ->).
  pose proof (char_size_in_CSIZE _ V) as Hsub. fields. repeat split.
  - unfold set_bits at 1.
    rewrite Z.land_lor_distr_l, land_clear_bits_same, Hsub.
    apply Z.lor_0_l.
  - intros k Hk Hd.
    rewrite land_set_bits_other
      by (eapply disjoint_submask; [exact Hsub | exact Hd]).
    apply land_clear_bits_other; assumption.
Qed.

Lemma setup_stopbits_flags o s o' s' t :
  setup_stopbits o s = (Returned o', s', t) ->
  c_lflag o' = c_lflag o /\ c_oflag o' = c_oflag o
  /\ c_iflag o' = c_iflag o
  /\ c_ispeed o' = c_ispeed o /\ c_ospeed o' = c_ospeed o
  /\ Z.land (c_cflag o') Flag.CSTOPB
     = (if stopbits_ s =? stopbits_one then 0 else Flag.CSTOPB)
  /\ (forall k, 0 <= k < 2 ^ 32 -> Z.land Flag.CSTOPB k = 0 ->
        Z.land (c_cflag o') k = Z.land (c_cflag o) k).
Proof.
  intros E. destruct (setup_stopbits_options _ _ _ _ _ E) as (_ & _ & _ & ->).
  fields. destruct (stopbits_ s =? stopbits_one); repeat split.
  - apply land_clear_bits_same.
  - intros k Hk Hd. apply land_clear_bits_other; assumption.
  - apply land_set_bits_same.
  - intros k Hk Hd. apply land_set_bits_other; assumption.
Qed.

(** X6.  [ReconfigurePort] is all or nothing for the object and for
    [tcsetattr]: when it does not return normally no member has been
    written and no settings have been handed to [tcsetattr]; when it
    returns, [tcsetattr] was its last call and its only one.  On an object
    without a descriptor it throws before any system call. *)
Theorem ReconfigurePort_applies_all_or_nothing
    (h : host) (os : reconf_os) (s : SerialImpl) :
  (result_of (ReconfigurePort h os s) <> Returned tt ->
     state_of (ReconfigurePort h os s) = s
     /\ forall o, ~ programs (log_of (ReconfigurePort h os s)) o)
  /\ (result_of (ReconfigurePort h os s) = Returned tt ->
        exists t o,
          log_of (ReconfigurePort h os s) = t ++ [sys_tcsetattr (fd_ s) o]
          /\ Forall (fun e => ~ is_tcsetattr e) t)
  /\ (fd_ s = -1 ->
        ReconfigurePort h os s
          = (Thrown (IOException
                       "Invalid file descriptor, is the serial port open?"),
             s, [])).
Proof.
  split; [|split].
  - intros N. destruct (ReconfigurePort_failed h os s N) as [St Q].
    split; [exact St|]. intros o [fd Hin].
    rewrite Forall_forall in Q. apply (Q _ Hin). exact I.
  - intros R.
    destruct (ReconfigurePort_programmed h os s R)
      as (o1 & t1 & o2 & o3 & o4 & o5 & s5 & E1 & _ & _ & _ & _ & _ & L & _).
    exists (sys_tcgetattr (fd_ s) :: t1), (with_polling_read o5).
    split; [exact L|]. constructor; [cbn; tauto|].
    apply (setup_baud_options _ _ _ _ _ _ _ E1).
  - intros E. unfold ReconfigurePort. run_monad. rewrite E. reflexivity.
Qed.

Lemma ReconfigurePort_applies_all_or_nothing_witness :
  state_of (ReconfigurePort plain_posix willing_os
              (set_parity parity_mark (sample_port true)))
    = set_parity parity_mark (sample_port true).
Proof.
  destruct (ReconfigurePort_applies_all_or_nothing plain_posix willing_os
              (set_parity parity_mark (sample_port true))) as (H & _ & _).
  apply H. vm_compute. discriminate.
Defined.

(** X7.  The settings a successful [ReconfigurePort] hands to [tcsetattr]
    describe a raw, polling line whatever the kernel reported before:
    [VMIN] and [VTIME] are zero, canonical mode, echo, signals and extended
    processing are off, output post-processing is off, CR/NL translation,
    break ignoring, case mapping, parity marking, parity checking and
    stripping are off, and [CLOCAL] and [CREAD] are on. *)
Theorem ReconfigurePort_programs_a_raw_polling_line
    (h : host) (os : reconf_os) (s : SerialImpl) (o : termios) :
  result_of (ReconfigurePort h os s) = Returned tt ->
  programs (log_of (ReconfigurePort h os s)) o ->
  c_cc_VMIN o = 0 /\ c_cc_VTIME o = 0
  /\ Z.land (c_lflag o) LOCAL_RAW = 0
  /\ Z.land (c_oflag o) Flag.OPOST = 0
  /\ Z.land (c_iflag o) INPUT_RAW = 0
  /\ Z.land (c_iflag o) INPUT_PARITY = 0
  /\ Z.land (c_cflag o) CONTROL_LOCAL = CONTROL_LOCAL.
Proof.
  intros R P.
  destruct (ReconfigurePort_programmed h os s R)
    as (o1 & t1 & o2 & o3 & o4 & o5 & s5
        & E1 & E2 & E3 & E4 & E5 & _ & _ & Pr).
  apply Pr in P. subst o. fields.
  destruct (raw_mode_settings (os_termios os))
    as (Rl & Ro & Ri & Rc & _ & _ & _ & _).
  destruct (setup_baud_flags _ _ _ _ _ _ _ E1) as (L1 & O1 & C1 & I1 & _).
  destruct (setup_char_len_flags _ _ _ _ _ E2)
    as (L2 & O2 & I2 & _ & _ & _ & C2).
  destruct (setup_stopbits_flags _ _ _ _ _ E3)
    as (L3 & O3 & I3 & _ & _ & _ & C3).
  destruct (setup_parity_options _ _ _ _ _ _ E4)
    as (_ & _ & _ & L4 & O4 & _ & _ & Ip & I4 & C4 & _).
  destruct (setup_flow_control_options _ _ _ _ _ E5)
    as (_ & _ & _ & _ & L5 & O5 & _ & _ & _ & _ & _ & I5 & C5).
  repeat split.
  - rewrite L5, L4, L3, L2, L1. exact Rl.
  - rewrite O5, O4, O3, O2, O1. exact Ro.
  - rewrite I5 by (first [concrete_range | reflexivity]).
    rewrite I4 by (first [concrete_range | reflexivity]).
    rewrite I3, I2.
    rewrite I1 by (first [concrete_range | reflexivity]). exact Ri.
  - rewrite I5 by (first [concrete_range | reflexivity]). exact Ip.
  - rewrite C5 by (first [concrete_range | reflexivity]).
    rewrite C4 by (first [concrete_range | reflexivity]).
    rewrite C3 by (first [concrete_range | reflexivity]).
    rewrite C2 by (first [concrete_range | reflexivity]).
    rewrite C1 by (first [concrete_range | reflexivity]). exact Rc.
Qed.

Lemma ReconfigurePort_programs_a_raw_polling_line_witness :
  exists o,
    programs (log_of (ReconfigurePort linux willing_os (sample_port true))) o
    /\ c_cc_VMIN o = 0 /\ Z.land (c_lflag o) LOCAL_RAW = 0.
Proof.
  destruct (ReconfigurePort_succeeds linux willing_os (sample_port true))
    as (_ & _ & _ & o & Hin);
    [ simpl; lia | simpl; lia | reflexivity | reflexivity | reflexivity
    | reflexivity | ].
  assert (P : programs
                (log_of (ReconfigurePort linux willing_os (sample_port true))) o)
    by (eexists; exact Hin).
  exists o. split; [exact P|].
  destruct (ReconfigurePort_programs_a_raw_polling_line
              linux willing_os (sample_port true) o eq_refl P)
    as (V & _ & L & _).
  split; [exact V | exact L].
Defined.

(** X8.  The frame bits a successful [ReconfigurePort] programs follow the
    configuration: the character-size field holds the code of the byte
    size; two stop bits are programmed for every stop-bit setting but one
    (one and a half is programmed as two); parity is enabled unless it is
    none and odd for odd and mark.  The mark/space bit is set for mark and
    space, but for none, odd and even it is left as the kernel reported it:
    it is never cleared. *)
Theorem ReconfigurePort_programs_the_frame
    (h : host) (os : reconf_os) (s : SerialImpl) (o : termios) :
  result_of (ReconfigurePort h os s) = Returned tt ->
  programs (log_of (ReconfigurePort h os s)) o ->
  Z.land (c_cflag o) Flag.CSIZE = 16 * (bytesize_ s - 5)
  /\ Z.land (c_cflag o) Flag.CSTOPB
     = (if stopbits_ s =? stopbits_one then 0 else Flag.CSTOPB)
  /\ Z.land (c_cflag o) Flag.PARENB
     = (if parity_ s =? parity_none then 0 else Flag.PARENB)
  /\ Z.land (c_cflag o) Flag.PARODD
     = (if (parity_ s =? parity_odd) || (parity_ s =? parity_mark)
        then Flag.PARODD else 0)
  /\ Z.land (c_cflag o) Flag.CMSPAR
     = (if (parity_ s =? parity_mark) || (parity_ s =? parity_space)
        then Flag.CMSPAR
        else Z.land (c_cflag (os_termios os)) Flag.CMSPAR).
Proof.
  intros R P.
  destruct (ReconfigurePort_programmed h os s R)
    as (o1 & t1 & o2 & o3 & o4 & o5 & s5
        & E1 & E2 & E3 & E4 & E5 & _ & _ & Pr).
  apply Pr in P. subst o. fields.
  destruct (raw_mode_settings (os_termios os))
    as (_ & _ & _ & _ & Rc & _ & _ & _).
  destruct (setup_baud_flags _ _ _ _ _ _ _ E1) as (_ & _ & C1 & _).
  destruct (setup_char_len_flags _ _ _ _ _ E2)
    as (_ & _ & _ & _ & _ & V2 & C2).
  destruct (setup_stopbits_flags _ _ _ _ _ E3)
    as (_ & _ & _ & _ & _ & V3 & C3).
  destruct (setup_parity_options _ _ _ _ _ _ E4)
    as (_ & _ & _ & _ & _ & _ & _ & _ & _ & C4 & Ven & Vodd & Vms).
  destruct (setup_flow_control_options _ _ _ _ _ E5)
    as (_ & _ & _ & _ & _ & _ & _ & _ & _ & _ & _ & _ & C5).
  repeat split.
  - rewrite C5 by (first [concrete_range | reflexivity]).
    rewrite C4 by (first [concrete_range | reflexivity]).
    rewrite C3 by (first [concrete_range | reflexivity]). exact V2.
  - rewrite C5 by (first [concrete_range | reflexivity]).
    rewrite C4 by (first [concrete_range | reflexivity]). exact V3.
  - rewrite C5 by (first [concrete_range | reflexivity]). exact Ven.
  - rewrite C5 by (first [concrete_range | reflexivity]). exact Vodd.
  - rewrite C5 by (first [concrete_range | reflexivity]). rewrite Vms.
    destruct ((parity_ s =? parity_mark) || (parity_ s =? parity_space));
      [reflexivity|].
    rewrite C3 by (first [concrete_range | reflexivity]).
    rewrite C2 by (first [concrete_range | reflexivity]).
    rewrite C1 by (first [concrete_range | reflexivity]).
    apply Rc; first [concrete_range | reflexivity].
Qed.

Lemma ReconfigurePort_programs_the_frame_witness :
  exists o,
    programs (log_of (ReconfigurePort linux willing_os (sample_port true))) o
    /\ Z.land (c_cflag o) Flag.CSIZE = Flag.CS8
    /\ Z.land (c_cflag o) Flag.CSTOPB = 0.
Proof.
  destruct (ReconfigurePort_succeeds linux willing_os (sample_port true))
    as (_ & _ & _ & o & Hin);
    [ simpl; lia | simpl; lia | reflexivity | reflexivity | reflexivity
    | reflexivity | ].
  assert (P : programs
                (log_of (ReconfigurePort linux willing_os (sample_port true))) o)
    by (eexists; exact Hin).
  exists o. split; [exact P|].
  destruct (ReconfigurePort_programs_the_frame
              linux willing_os (sample_port true) o eq_refl P)
    as (V & St & _).
  split; [exact V | exact St].
Defined.

(** X9.  Flow control after a successful [ReconfigurePort]: for none,
    software and hardware the members [xonxoff_] and [rtscts_] become
    (false, false), (true, false) and (false, true); for any other value
    they keep what they held.  The programmed settings follow the members:
    XON/XOFF is on in both directions exactly when [xonxoff_] holds (and
    restart-on-any-character is off when it does not), RTS/CTS is on
    exactly when [rtscts_] holds. *)
Theorem ReconfigurePort_programs_flow_control
    (h : host) (os : reconf_os) (s : SerialImpl) (o : termios) :
  result_of (ReconfigurePort h os s) = Returned tt ->
  programs (log_of (ReconfigurePort h os s)) o ->
  let s' := state_of (ReconfigurePort h os s) in
  (xonxoff_ s', rtscts_ s')
    = (if flowcontrol_ s =? flowcontrol_none then (false, false)
       else if flowcontrol_ s =? flowcontrol_software then (true, false)
       else if flowcontrol_ s =? flowcontrol_hardware then (false, true)
       else (xonxoff_ s, rtscts_ s))
  /\ Z.land (c_iflag o) (Z.lor Flag.IXON Flag.IXOFF)
     = (if xonxoff_ s' then Z.lor Flag.IXON Flag.IXOFF else 0)
  /\ (xonxoff_ s' = false -> Z.land (c_iflag o) Flag.IXANY = 0)
  /\ Z.land (c_cflag o) Flag.CRTSCTS
     = (if rtscts_ s' then Flag.CRTSCTS else 0).
Proof.
  intros R P s'. subst s'.
  destruct (ReconfigurePort_programmed h os s R)
    as (o1 & t1 & o2 & o3 & o4 & o5 & s5
        & E1 & E2 & E3 & E4 & E5 & St & _ & Pr).
  apply Pr in P. subst o. rewrite St. fields.
  cbn [set_byte_time_ns xonxoff_ rtscts_].
  destruct (setup_flow_control_options _ _ _ _ _ E5)
    as (_ & _ & _ & M & _ & _ & _ & _ & X & A & Rt & _).
  repeat split; assumption.
Qed.

Lemma ReconfigurePort_programs_flow_control_witness :
  xonxoff_ (state_of (SetFlowcontrol linux willing_os flowcontrol_software
                        (sample_port true))) = true
  /\ rtscts_ (state_of (SetFlowcontrol linux willing_os flowcontrol_software
                          (sample_port true))) = false.
Proof.
  change (SetFlowcontrol linux willing_os flowcontrol_software
            (sample_port true))
    with (ReconfigurePort linux willing_os
            (set_flowcontrol flowcontrol_software (sample_port true))).
  destruct (ReconfigurePort_succeeds linux willing_os
              (set_flowcontrol flowcontrol_software (sample_port true)))
    as (_ & _ & _ & o & Hin);
    [ simpl; lia | simpl; lia | reflexivity | reflexivity | reflexivity
    | reflexivity | ].
  assert (P : programs
                (log_of (ReconfigurePort linux willing_os
                           (set_flowcontrol flowcontrol_software
                              (sample_port true)))) o)
    by (eexists; exact Hin).
  destruct (ReconfigurePort_programs_flow_control linux willing_os
              (set_flowcontrol flowcontrol_software (sample_port true)) o
              eq_refl P) as (M & _).
  split; [exact (f_equal fst M) | exact (f_equal snd M)].
Defined.

Lemma custom_speed_flags f :
  Z.land (Z.lor (Z.land f (Z.lnot Flag.ASYNC_SPD_MASK)) Flag.ASYNC_SPD_CUST)
         Flag.ASYNC_SPD_MASK
  = Flag.ASYNC_SPD_CUST.
Proof.
  rewrite Z.land_lor_distr_l, <- Z.land_assoc.
  rewrite (Z.land_comm (Z.lnot Flag.ASYNC_SPD_MASK)), Z.land_lnot_diag.
  rewrite Z.land_0_r. reflexivity.
Qed.

(** The speeds pass through every stage after the rate has been set. *)
Lemma ReconfigurePort_speeds h os s o1 t1 o2 o3 o4 o5 s5 :
  setup_baud h os (raw_mode (os_termios os)) s = (Returned o1, s, t1) ->
  setup_char_len o1 s = (Returned o2, s, []) ->
  setup_stopbits o2 s = (Returned o3, s, []) ->
  setup_parity h o3 s = (Returned o4, s, []) ->
  setup_flow_control o4 s = (Returned o5, s5, []) ->
  c_ispeed (with_polling_read o5) = c_ispeed o1
  /\ c_ospeed (with_polling_read o5) = c_ospeed o1.
Proof.
  intros E1 E2 E3 E4 E5. fields.
  destruct (setup_char_len_flags _ _ _ _ _ E2) as (_ & _ & _ & I2 & O2 & _).
  destruct (setup_stopbits_flags _ _ _ _ _ E3) as (_ & _ & _ & I3 & O3 & _).
  destruct (setup_parity_options _ _ _ _ _ _ E4)
    as (_ & _ & _ & _ & _ & I4 & O4 & _).
  destruct (setup_flow_control_options _ _ _ _ _ E5)
    as (_ & _ & _ & _ & _ & _ & I5 & O5 & _).
  split; congruence.
Qed.

(** X10.  How a successful [ReconfigurePort] programs the rate.  A rate
    with a case in the switch and a constant on the host is written into
    both speeds of the settings, with no call besides [tcgetattr] and
    [tcsetattr].  Any other rate leaves the speeds as the kernel reported
    them and goes through the host's custom-rate request before
    [tcsetattr]: on Linux the divisor is the base rate divided by the rate
    (as an [int], rounding towards zero) and the custom-speed flag
    replaces the speed field of the driver's flags. *)
Theorem ReconfigurePort_programs_the_rate
    (h : host) (os : reconf_os) (s : SerialImpl) (o : termios) :
  result_of (ReconfigurePort h os s) = Returned tt ->
  programs (log_of (ReconfigurePort h os s)) o ->
  match enumerated_baud h (baudrate_ s) with
  | Some b =>
      c_ispeed o = b /\ c_ospeed o = b
      /\ log_of (ReconfigurePort h os s)
         = [sys_tcgetattr (fd_ s); sys_tcsetattr (fd_ s) o]
  | None =>
      c_ispeed o = c_ispeed (os_termios os)
      /\ c_ospeed o = c_ospeed (os_termios os)
      /\ match custom_baud h with
         | IOSSIOSPEED_path =>
             log_of (ReconfigurePort h os s)
             = [sys_tcgetattr (fd_ s);
                sys_ioctl_IOSSIOSPEED (fd_ s) (baudrate_ s);
                sys_tcsetattr (fd_ s) o]
         | TIOCSSERIAL_path =>
             exists flags,
               log_of (ReconfigurePort h os s)
               = [sys_tcgetattr (fd_ s);
                  sys_ioctl_TIOCGSERIAL (fd_ s);
                  sys_ioctl_TIOCSSERIAL (fd_ s)
                    (Z.quot (os_baud_base os) (to_int (baudrate_ s))) flags;
                  sys_tcsetattr (fd_ s) o]
               /\ Z.land flags Flag.ASYNC_SPD_MASK = Flag.ASYNC_SPD_CUST
         | no_custom_path => False
         end
  end.
Proof.
  intros R P.
  destruct (ReconfigurePort_programmed h os s R)
    as (o1 & t1 & o2 & o3 & o4 & o5 & s5
        & E1 & E2 & E3 & E4 & E5 & _ & L & Pr).
  apply Pr in P. subst o. rewrite L.
  destruct (ReconfigurePort_speeds _ _ _ _ _ _ _ _ _ _ E1 E2 E3 E4 E5)
    as [-> ->].
  destruct (raw_mode_settings (os_termios os))
    as (_ & _ & _ & _ & _ & _ & Ri & Ro).
  destruct (setup_baud_options _ _ _ _ _ _ _ E1) as (_ & _ & H).
  destruct (enumerated_baud h (baudrate_ s)) as [b|].
  - destruct H as [-> ->].
    destruct (with_speed_settings b (raw_mode (os_termios os)))
      as (Si & So & _).
    split; [exact Si|]. split; [exact So | reflexivity].
  - destruct H as [-> H]. split; [exact Ri|]. split; [exact Ro|].
    destruct (custom_baud h); [subst t1; reflexivity | | exact H].
    subst t1. eexists. split; [reflexivity|]. apply custom_speed_flags.
Qed.

Lemma ReconfigurePort_programs_the_rate_witness :
  exists o,
    log_of (ReconfigurePort linux willing_os (sample_port true))
      = [sys_tcgetattr 3; sys_tcsetattr 3 o]
    /\ c_ispeed o = 13 /\ c_ospeed o = 13.
Proof.
  destruct (ReconfigurePort_succeeds linux willing_os (sample_port true))
    as (_ & _ & _ & o & Hin);
    [ simpl; lia | simpl; lia | reflexivity | reflexivity | reflexivity
    | reflexivity | ].
  assert (P : programs
                (log_of (ReconfigurePort linux willing_os (sample_port true))) o)
    by (eexists; exact Hin).
  exists o.
  destruct (ReconfigurePort_programs_the_rate
              linux willing_os (sample_port true) o eq_refl P)
    as (I & O & L).
  split; [exact L | split; [exact I | exact O]].
Defined.

Lemma raw_mode_frame o :
  agree_outside LOCAL_RAW (c_lflag (raw_mode o)) (c_lflag o)
  /\ agree_outside Flag.OPOST (c_oflag (raw_mode o)) (c_oflag o)
  /\ agree_outside CONTROL_LOCAL (c_cflag (raw_mode o)) (c_cflag o)
  /\ agree_outside INPUT_RAW (c_iflag (raw_mode o)) (c_iflag o).
Proof.
  destruct (raw_mode_settings o) as (_ & _ & _ & _ & C & I & _).
  unfold raw_mode. fields. repeat split; try assumption.
  - intros k Hk Hd. apply land_clear_bits_other; assumption.
  - intros k Hk Hd. apply land_clear_bits_other; assumption.
Qed.

(** X11.  A successful [ReconfigurePort] leaves every flag as [tcgetattr]
    reported it, apart from those it owns and those the library's speed
    functions rewrite.  The programmed settings agree with the kernel's on
    all local flags outside the canonical/echo/signal group, on all output
    flags but [OPOST], on all control flags outside those for local/receive,
    size, stop bits, parity, RTS/CTS and the speed bits, and on all input
    flags outside the translation, parity-check and XON/XOFF groups and the
    zero-input-speed mark.  For a rate with a constant the speed bits of
    the control flags hold that constant, and the mark is set exactly for
    the constant zero; for a custom rate the speed bits and the mark are
    left as the kernel reported them too. *)
Theorem ReconfigurePort_keeps_foreign_flags
    (h : host) (os : reconf_os) (s : SerialImpl) (o : termios) :
  result_of (ReconfigurePort h os s) = Returned tt ->
  programs (log_of (ReconfigurePort h os s)) o ->
  agree_outside LOCAL_RAW (c_lflag o) (c_lflag (os_termios os))
  /\ agree_outside Flag.OPOST (c_oflag o) (c_oflag (os_termios os))
  /\ agree_outside (Z.lor CONTROL_OWNED SPEED_BITS)
       (c_cflag o) (c_cflag (os_termios os))
  /\ agree_outside (Z.lor INPUT_OWNED Flag.IBAUD0)
       (c_iflag o) (c_iflag (os_termios os))
  /\ match enumerated_baud h (baudrate_ s) with
     | Some b =>
         Z.land (c_cflag o) SPEED_BITS = Z.land b SPEED_BITS
         /\ Z.land (c_iflag o) Flag.IBAUD0
            = (if b =? 0 then Flag.IBAUD0 else 0)
     | None =>
         agree_outside CONTROL_OWNED (c_cflag o) (c_cflag (os_termios os))
         /\ agree_outside INPUT_OWNED (c_iflag o) (c_iflag (os_termios os))
     end.
Proof.
  intros R P.
  destruct (ReconfigurePort_programmed h os s R)
    as (o1 & t1 & o2 & o3 & o4 & o5 & s5
        & E1 & E2 & E3 & E4 & E5 & _ & _ & Pr).
  apply Pr in P. subst o. fields.
  destruct (raw_mode_frame (os_termios os)) as (RL & RO & RC & RI).
  destruct (setup_baud_flags _ _ _ _ _ _ _ E1) as (L1 & O1 & C1 & I1 & B1).
  destruct (setup_char_len_flags _ _ _ _ _ E2)
    as (L2 & O2 & I2 & _ & _ & _ & C2).
  destruct (setup_stopbits_flags _ _ _ _ _ E3)
    as (L3 & O3 & I3 & _ & _ & _ & C3).
  destruct (setup_parity_options _ _ _ _ _ _ E4)
    as (_ & _ & _ & L4 & O4 & _ & _ & _ & I4 & C4 & _).
  destruct (setup_flow_control_options _ _ _ _ _ E5)
    as (_ & _ & _ & _ & L5 & O5 & _ & _ & _ & _ & _ & I5 & C5).
  assert (Late : forall k, 0 <= k < 2 ^ 32 ->
            Z.land (Z.lor Flag.CSIZE (Z.lor Flag.CSTOPB
                      (Z.lor CONTROL_PARITY Flag.CRTSCTS))) k = 0 ->
            Z.land (c_cflag o5) k = Z.land (c_cflag o1) k).
  { intros k Hk Hd.
    apply disjoint_from_lor in Hd as [D2 Hd].
    apply disjoint_from_lor in Hd as [D3 Hd].
    apply disjoint_from_lor in Hd as [D4 D5].
    rewrite (C5 k Hk D5), (C4 k Hk D4), (C3 k Hk D3). apply (C2 k Hk D2). }
  assert (LateI : forall k, 0 <= k < 2 ^ 32 ->
            Z.land (Z.lor INPUT_PARITY INPUT_XONXOFF) k = 0 ->
            Z.land (c_iflag o5) k = Z.land (c_iflag o1) k).
  { intros k Hk Hd.
    apply disjoint_from_lor in Hd as [D2 D3].
    rewrite (I5 k Hk D3), (I4 k Hk D2), I3, I2. reflexivity. }
  split; [rewrite L5, L4, L3, L2, L1; exact RL|].
  split; [rewrite O5, O4, O3, O2, O1; exact RO|].
  split; [|split].
  - intros k Hk Hd.
    apply disjoint_from_lor in Hd as [Hd DS]. unfold CONTROL_OWNED in Hd.
    apply disjoint_from_lor in Hd as [D1 Hd].
    rewrite (Late k Hk Hd), (C1 k Hk DS). apply (RC k Hk D1).
  - intros k Hk Hd.
    apply disjoint_from_lor in Hd as [Hd DS]. unfold INPUT_OWNED in Hd.
    apply disjoint_from_lor in Hd as [D1 Hd].
    rewrite (LateI k Hk Hd), (I1 k Hk DS). apply (RI k Hk D1).
  - destruct (enumerated_baud h (baudrate_ s)) as [b|].
    + destruct B1 as [Cv Iv]. split.
      * rewrite (Late SPEED_BITS) by (first [concrete_range | reflexivity]).
        exact Cv.
      * rewrite (LateI Flag.IBAUD0) by (first [concrete_range | reflexivity]).
        exact Iv.
    + destruct B1 as [Ce Ie]. split.
      * intros k Hk Hd. unfold CONTROL_OWNED in Hd.
        apply disjoint_from_lor in Hd as [D1 Hd].
        rewrite (Late k Hk Hd), Ce. apply (RC k Hk D1).
      * intros k Hk Hd. unfold INPUT_OWNED in Hd.
        apply disjoint_from_lor in Hd as [D1 Hd].
        rewrite (LateI k Hk Hd), Ie. apply (RI k Hk D1).
Qed.

Lemma ReconfigurePort_keeps_foreign_flags_witness :
  exists o,
    programs (log_of (ReconfigurePort linux used_os (sample_port true))) o
    /\ Z.land (c_cflag o) Flag.HUPCL = Flag.HUPCL
    /\ Z.land (c_cflag o) SPEED_BITS = 13.
Proof.
  destruct (ReconfigurePort_succeeds linux used_os (sample_port true))
    as (_ & _ & _ & o & Hin);
    [ simpl; lia | simpl; lia | reflexivity | reflexivity | reflexivity
    | reflexivity | ].
  assert (P : programs
                (log_of (ReconfigurePort linux used_os (sample_port true))) o)
    by (eexists; exact Hin).
  exists o. split; [exact P|].
  destruct (ReconfigurePort_keeps_foreign_flags
              linux used_os (sample_port true) o eq_refl P)
    as (_ & _ & C & _ & V & _).
  split; [|exact V].
  rewrite (C Flag.HUPCL); [reflexivity | cbv; split; congruence | reflexivity].
Defined.

(** ** Read and Write: when a call ends short *)

Section ShortTransfers.
Context {I : Type} (body : Z -> I -> M step) (size : Z).

(** A loop that returns fewer bytes than asked was left by a pass that
    broke out of it short. *)
Lemma transfer_loop_short (stop : I -> Prop) :
  (forall n it s m,
     result_of (body n it s) = Returned (Break m) -> m < size -> stop it) ->
  forall its n s r,
    result_of (transfer_loop body size its n s) = Returned r ->
    r < size -> Exists stop its.
Proof.
  intros Hbody. induction its as [|it its IH]; intros n s r;
    cbn [transfer_loop].
  - destruct (Z.ltb_spec n size); cbn; [discriminate|].
    intros [= <-] Hr. lia.
  - destruct (Z.ltb_spec n size) as [Hn|Hn].
    2:{ cbn. intros [= <-] Hr. lia. }
    unfold bind. pose proof (Hbody n it s) as Hb.
    destruct (body n it s) as [[[[m|m]| e | |] s2] t2];
      cbn [result_of fst] in *; try discriminate.
    + specialize (IH m s2 r).
      destruct (transfer_loop body size its m s2) as [[o3 s3] t3].
      cbn [result_of fst] in *. intros H Hr.
      apply Exists_cons_tl. apply IH; assumption.
    + intros [= <-] Hr. apply Exists_cons_hd. apply (Hb m eq_refl Hr).
Qed.

End ShortTransfers.

Lemma Read_iteration_idle size timer n it s :
  idle_pass timer it ->
  Read_iteration size timer n it s
    = (Returned (Continue n), s,
       [timer_remaining (Remaining timer (ri_now it));
        sys_pselect_read (fd_ s)
          (Z.min (to_uint32 (Remaining timer (ri_now it)))
                 (inter_byte_timeout (timeout_ s)))]).
Proof.
  intros [Hr Hq]. unfold Read_iteration, WaitReadable. run_monad.
  destruct (Z.leb_spec (Remaining timer (ri_now it)) 0); [lia|].
  destruct Hq as [H0|[Hneg Hint]].
  - destruct (Z.ltb_spec (ret (sel (ri_select it))) 0); [lia|].
    rewrite H0. reflexivity.
  - destruct (Z.ltb_spec (ret (sel (ri_select it))) 0); [|lia].
    rewrite Hint. reflexivity.
Qed.

Lemma Read_iteration_break size timer n it s m :
  result_of (Read_iteration size timer n it s) = Returned (Break m) ->
  m < size -> Remaining timer (ri_now it) <= 0.
Proof.
  intros H Hm.
  destruct (Z.leb_spec (Remaining timer (ri_now it)) 0) as [|Hr];
    [assumption | exfalso].
  destruct (pass_ready_or_not timer it) as [[_ Hready]|Hnot].
  - destruct (coalescing_wait_outcome size n (ri_inq it) s)
      as (tc & [Hc|[_ Hc]]).
    + rewrite (Read_iteration_ready _ _ _ _ _ _ Hr Hready Hc) in H.
      cbv zeta in H. cbn [result_of fst] in H.
      destruct (ri_read it (to_size_t (size - n)) <? 1); [discriminate|].
      destruct (Z.eqb_spec
                  (to_size_t (n + to_size_t (ri_read it (to_size_t (size - n)))))
                  size) as [E|_].
      { injection H as <-. lia. }
      destruct (to_size_t (n + to_size_t (ri_read it (to_size_t (size - n))))
                <? size); [discriminate|].
      destruct (size
                <? to_size_t (n + to_size_t (ri_read it (to_size_t (size - n)))));
        discriminate.
    + rewrite (Read_iteration_ready_but_query_failed _ _ _ _ _ _ _
                 Hr Hready Hc) in H.
      discriminate.
  - revert H. unfold Read_iteration, WaitReadable, reported_ready in *.
    run_monad.
    destruct (Z.leb_spec (Remaining timer (ri_now it)) 0); [lia|].
    destruct (Z.ltb_spec (ret (sel (ri_select it))) 0).
    { destruct (errno (sel (ri_select it)) =? EINTR); discriminate. }
    destruct (Z.eqb_spec (ret (sel (ri_select it))) 0); [discriminate|].
    destruct (sel_isset (ri_select it)) eqn:Hset; [|discriminate].
    exfalso. apply Hnot. repeat split; lia.
Qed.

(** X12.  [Read] returns fewer bytes than it was asked for only when it
    has seen the deadline pass: neither a readiness wait that times out or
    is interrupted, nor a partial transfer, ends the call. *)
Theorem Read_returns_short_only_at_the_deadline
    (size now : Z) (prefill : Z -> Z) (its : list read_iter) (s : SerialImpl)
    (n : Z) :
  let timer := MilliTimer_new now
                 (total_timeout_ms (read_timeout_constant (timeout_ s))
                    (read_timeout_multiplier (timeout_ s)) size) in
  result_of (Read size now prefill its s) = Returned n ->
  n < size ->
  Exists (fun it => expiry timer <= ri_now it) its.
Proof.
  intros timer H Hn.
  destruct (is_open_ s) eqn:Hopen.
  2:{ rewrite (Read_on_closed _ _ _ _ _ Hopen) in H. discriminate H. }
  rewrite (Read_on_open _ _ _ _ _ Hopen) in H. cbv zeta in H.
  cbn [result_of fst] in H. fold timer in H.
  apply (transfer_loop_short (Read_iteration size timer) size
           (fun it => expiry timer <= ri_now it)) in H; [exact H | | exact Hn].
  intros n' it s' m Hb Hm.
  pose proof (Read_iteration_break _ _ _ _ _ _ Hb Hm) as Hlate.
  unfold Remaining in Hlate. lia.
Qed.

Lemma Read_returns_short_only_at_the_deadline_witness :
  Exists (fun it => 1100 <= ri_now it) [pass_with 1010 1; pass_with 1200 2].
Proof.
  apply (Read_returns_short_only_at_the_deadline
           4 1000 (fun count => Z.min count 1)
           [pass_with 1010 1; pass_with 1200 2] (sample_port true) 2);
    [vm_compute; reflexivity | lia].
Defined.

Lemma passes_idle size timer its n s :
  n < size -> Forall (idle_pass timer) its ->
  passes (Read_iteration size timer) size its n s
    = (Returned (Continue n), s,
       idle_log timer (inter_byte_timeout (timeout_ s)) (fd_ s) its).
Proof.
  intros Hn. induction 1 as [|it its Hit _ IH]; cbn [passes idle_log flat_map].
  - reflexivity.
  - destruct (Z.ltb_spec n size); [|lia].
    unfold bind. rewrite (Read_iteration_idle _ _ _ _ _ Hit).
    rewrite IH. reflexivity.
Qed.

(** X13.  On a quiet line [Read] waits until the deadline.  While the
    passes of the loop find time left and their readiness waits come back
    without the descriptor being ready (timed out after the inter-byte
    timeout, or interrupted by a signal), the call is still running, has
    transferred nothing more, and has logged one timer reading and one wait
    per pass; the first pass that finds the deadline passed makes it return
    what the opportunistic transfer gave. *)
Theorem Read_waits_through_a_quiet_line
    (size now : Z) (prefill : Z -> Z) (its : list read_iter) (s : SerialImpl) :
  let total := total_timeout_ms (read_timeout_constant (timeout_ s))
                 (read_timeout_multiplier (timeout_ s)) size in
  let timer := MilliTimer_new now total in
  let waits := idle_log timer (inter_byte_timeout (timeout_ s)) (fd_ s) its in
  is_open_ s = true ->
  prefilled (prefill size) < size ->
  Forall (idle_pass timer) its ->
  Read size now prefill its s
    = (Pending, s, timer_start total :: sys_read (fd_ s) size :: waits)
  /\ forall it post,
       expiry timer <= ri_now it ->
       Read size now prefill (its ++ it :: post) s
         = (Returned (prefilled (prefill size)), s,
            timer_start total :: sys_read (fd_ s) size
              :: waits ++ [timer_remaining (Remaining timer (ri_now it))]).
Proof.
  intros total timer waits Hopen Hn Hidle.
  pose proof (passes_idle size timer its _ s Hn Hidle) as Hp.
  fold waits in Hp. split.
  - rewrite (Read_on_open _ _ _ _ _ Hopen). cbv zeta.
    fold total. fold timer. unfold Read_loop.
    rewrite <- (app_nil_r its) at 1 2 3.
    rewrite (transfer_loop_app _ _ _ _ _ _ _ _ _ Hp).
    cbn [transfer_loop]. destruct (Z.ltb_spec (prefilled (prefill size)) size);
      [|lia].
    cbn. rewrite app_nil_r. reflexivity.
  - intros it post Hlate.
    rewrite (Read_on_open _ _ _ _ _ Hopen). cbv zeta.
    fold total. fold timer.
    rewrite (Read_loop_deadline_passed size timer its it post _ _ s waits
               Hp Hn Hlate).
    reflexivity.
Qed.

Lemma Read_waits_through_a_quiet_line_witness :
  result_of
    (Read 4 1000 (fun _ => 0)
       [{| ri_now := 1010;
           ri_select := {| sel := {| ret := 0; errno := 0 |};
                           sel_isset := false |};
           ri_inq := {| inq := ok; inq_count := 0 |};
           ri_read := fun _ => 0 |};
        {| ri_now := 1020;
           ri_select := {| sel := failed EINTR; sel_isset := false |};
           ri_inq := {| inq := ok; inq_count := 0 |};
           ri_read := fun _ => 0 |}]
       (sample_port true))
  = Pending.
Proof.
  refine (f_equal (fun r => fst (fst r))
            (proj1 (Read_waits_through_a_quiet_line 4 1000 (fun _ => 0) _
                      (sample_port true) eq_refl _ _))).
  - vm_compute. reflexivity.
  - apply Forall_cons; [|apply Forall_cons; [|apply Forall_nil]].
    + split; [vm_compute; reflexivity | left; reflexivity].
    + split; [vm_compute; reflexivity
             | right; split; [simpl; lia | reflexivity]].
Defined.

Section LoopEnds.
Context {I : Type} (body : Z -> I -> M step) (size : Z).

Lemma transfer_loop_breaks pre it post n k s s1 t m s' t' :
  passes body size pre n s = (Returned (Continue k), s1, t) ->
  k < size ->
  body k it s1 = (Returned (Break m), s', t') ->
  transfer_loop body size (pre ++ it :: post) n s = (Returned m, s', t ++ t').
Proof.
  intros Hpre Hk Hb.
  rewrite (transfer_loop_app _ _ _ _ _ _ _ _ _ Hpre).
  cbn [transfer_loop]. destruct (Z.ltb_spec k size); [|lia].
  unfold bind. rewrite Hb. cbn. rewrite app_nil_r. reflexivity.
Qed.

Lemma transfer_loop_throws pre it post n k s s1 t e s' t' :
  passes body size pre n s = (Returned (Continue k), s1, t) ->
  k < size ->
  body k it s1 = (Thrown e, s', t') ->
  transfer_loop body size (pre ++ it :: post) n s = (Thrown e, s', t ++ t').
Proof.
  intros Hpre Hk Hb.
  rewrite (transfer_loop_app _ _ _ _ _ _ _ _ _ Hpre).
  cbn [transfer_loop]. destruct (Z.ltb_spec k size); [|lia].
  unfold bind. rewrite Hb. reflexivity.
Qed.

Lemma passes_continues pre it n k s s1 t m s' t' :
  passes body size pre n s = (Returned (Continue k), s1, t) ->
  k < size ->
  body k it s1 = (Returned (Continue m), s', t') ->
  passes body size (pre ++ [it]) n s = (Returned (Continue m), s', t ++ t').
Proof.
  revert n s t. induction pre as [|p pre IH]; intros n s t.
  - cbn [passes app]. unfold pure. intros [= -> -> <-] Hk Hb.
    destruct (Z.ltb_spec k size); [|lia].
    unfold bind. rewrite Hb. cbn. rewrite app_nil_r. reflexivity.
  - cbn [passes app].
    destruct (n <? size); [|unfold pure; discriminate].
    unfold bind. destruct (body n p s) as [[[[q|q]| e | |] s2] t2] eqn:Ep;
      try discriminate.
    destruct (passes body size pre q s2) as [[o3 s3] t3] eqn:E.
    intros [= -> -> <-] Hk Hb.
    rewrite (IH _ _ _ E Hk Hb). rewrite app_assoc. reflexivity.
Qed.

End LoopEnds.

Lemma Write_iteration_break length timer n it s m :
  result_of (Write_iteration length timer n it s) = Returned (Break m) ->
  m < length -> write_gives_up timer it.
Proof.
  unfold write_gives_up. intros H Hm.
  destruct (Z.leb_spec (Remaining timer (wi_now it)) 0) as [|Hr];
    [left; assumption|].
  destruct (Z.eq_dec (ret (sel (wi_select it))) 0) as [|Hnz];
    [right; assumption | exfalso].
  destruct (write_pass_ready_or_not timer it) as [[_ Hready]|Hnot].
  - rewrite (Write_iteration_ready _ _ _ _ _ Hr Hready) in H.
    cbv zeta in H. cbn [result_of fst] in H.
    destruct (wi_write it (to_size_t (length - n)) <? 1); [discriminate|].
    destruct (Z.eqb_spec
                (to_size_t (n + to_size_t (wi_write it (to_size_t (length - n)))))
                length) as [E|_].
    { injection H as <-. lia. }
    destruct (to_size_t (n + to_size_t (wi_write it (to_size_t (length - n))))
              <? length); [discriminate|].
    destruct (length
              <? to_size_t (n + to_size_t (wi_write it (to_size_t (length - n)))));
      discriminate.
  - revert H. unfold Write_iteration, reported_ready in *. run_monad.
    destruct (Z.leb_spec (Remaining timer (wi_now it)) 0); [lia|].
    destruct (Z.ltb_spec (ret (sel (wi_select it))) 0).
    { destruct (errno (sel (wi_select it)) =? EINTR); discriminate. }
    destruct (Z.eqb_spec (ret (sel (wi_select it))) 0); [contradiction|].
    destruct (Z.ltb_spec 0 (ret (sel (wi_select it)))); [|lia].
    destruct (sel_isset (wi_select it)) eqn:Hset; [|discriminate].
    exfalso. apply Hnot. repeat split; lia.
Qed.

(** X14.  [Write] returns fewer bytes than it was given only when a pass
    of its loop found the deadline passed or its readiness wait timed out;
    an interrupted wait or a partial transfer does not end the call. *)
Theorem Write_returns_short_only_after_a_timeout
    (length now : Z) (its : list write_iter) (s : SerialImpl) (n : Z) :
  let timer := MilliTimer_new now
                 (total_timeout_ms (write_timeout_constant (timeout_ s))
                    (write_timeout_multiplier (timeout_ s)) length) in
  result_of (Write length now its s) = Returned n ->
  n < length ->
  Exists (write_gives_up timer) its.
Proof.
  intros timer H Hn.
  destruct (is_open_ s) eqn:Hopen.
  2:{ revert H. unfold Write. run_monad. rewrite Hopen. discriminate. }
  rewrite (Write_on_open _ _ _ _ Hopen) in H. cbv zeta in H.
  cbn [result_of fst] in H. fold timer in H.
  apply (transfer_loop_short (Write_iteration length timer) length
           (write_gives_up timer)) in H; [exact H | | exact Hn].
  intros n' it s' m Hb Hm.
  apply (Write_iteration_break _ _ _ _ _ _ Hb Hm).
Qed.

Lemma Write_returns_short_only_after_a_timeout_witness :
  Exists (write_gives_up (MilliTimer_new 1000 100))
    [write_pass_with 1010 1; write_pass_with 1200 2].
Proof.
  apply (Write_returns_short_only_after_a_timeout
           4 1000 [write_pass_with 1010 1; write_pass_with 1200 2]
           (sample_port true) 1);
    [vm_compute; reflexivity | lia].
Defined.

(** One pass of the [Write] loop in which the descriptor is not reported
    ready. *)
Lemma Write_iteration_waited length timer n it s :
  0 < Remaining timer (wi_now it) ->
  ret (sel (wi_select it)) <= 0 ->
  Write_iteration length timer n it s
    = (if ret (sel (wi_select it)) <? 0
       then if errno (sel (wi_select it)) =? EINTR
            then Returned (Continue n)
            else Thrown (IOException_errno (errno (sel (wi_select it))))
       else Returned (Break n),
       s,
       [timer_remaining (Remaining timer (wi_now it));
        sys_pselect_write (fd_ s) (Remaining timer (wi_now it))]).
Proof.
  intros Hr Hsel. unfold Write_iteration. run_monad.
  destruct (Z.leb_spec (Remaining timer (wi_now it)) 0); [lia|].
  destruct (Z.ltb_spec (ret (sel (wi_select it))) 0).
  - destruct (errno (sel (wi_select it)) =? EINTR); reflexivity.
  - destruct (Z.eqb_spec (ret (sel (wi_select it))) 0); [reflexivity | lia].
Qed.

Lemma Write_iteration_timed_out length timer n it s :
  Remaining timer (wi_now it) <= 0 ->
  Write_iteration length timer n it s
    = (Returned (Break n), s,
       [timer_remaining (Remaining timer (wi_now it))]).
Proof.
  intros H. unfold Write_iteration. run_monad.
  destruct (Z.leb_spec (Remaining timer (wi_now it)) 0); [reflexivity | lia].
Qed.

(** X15.  How a pass of the [Write] loop that holds [k] bytes short of the
    request ends the call.  With the deadline passed [Write] returns [k]
    without waiting.  Otherwise it waits for the descriptor for exactly the
    time that remains: when the wait times out it returns [k] at once
    (it does not wait again, even with time left); when the wait fails it
    throws the I/O condition with [errno], unless it was interrupted by a
    signal, in which case the loop goes round again with [k] unchanged. *)
Theorem Write_gives_up_at_the_first_timeout
    (length now : Z) (pre : list write_iter) (it : write_iter)
    (post : list write_iter) (k : Z) (t : list event) (s : SerialImpl) :
  let total := total_timeout_ms (write_timeout_constant (timeout_ s))
                 (write_timeout_multiplier (timeout_ s)) length in
  let timer := MilliTimer_new now total in
  let run := Write length now (pre ++ it :: post) s in
  let r := Remaining timer (wi_now it) in
  let waited := [timer_remaining r; sys_pselect_write (fd_ s) r] in
  is_open_ s = true ->
  passes (Write_iteration length timer) length pre 0 s
    = (Returned (Continue k), s, t) ->
  k < length ->
  (r <= 0 ->
     run = (Returned k, s, timer_start total :: t ++ [timer_remaining r]))
  /\ (0 < r -> ret (sel (wi_select it)) = 0 ->
        run = (Returned k, s, timer_start total :: t ++ waited))
  /\ (0 < r -> ret (sel (wi_select it)) < 0 ->
        errno (sel (wi_select it)) <> EINTR ->
        run = (Thrown (IOException_errno (errno (sel (wi_select it)))), s,
               timer_start total :: t ++ waited))
  /\ (0 < r -> ret (sel (wi_select it)) < 0 ->
        errno (sel (wi_select it)) = EINTR ->
        passes (Write_iteration length timer) length (pre ++ [it]) 0 s
          = (Returned (Continue k), s, t ++ waited)).
Proof.
  intros total timer run r waited Hopen Hpre Hk. subst run.
  rewrite (Write_on_open _ _ _ _ Hopen). cbv zeta.
  fold total. fold timer. unfold Write_loop.
  split; [|split; [|split]].
  - intros Hr.
    rewrite (transfer_loop_breaks _ _ pre it post 0 k s s t k s
               [timer_remaining r] Hpre Hk
               (Write_iteration_timed_out _ _ _ _ _ Hr)).
    reflexivity.
  - intros Hr H0.
    assert (Hb : Write_iteration length timer k it s
                 = (Returned (Break k), s, waited)).
    { rewrite Write_iteration_waited by (fold r; lia).
      rewrite H0. reflexivity. }
    rewrite (transfer_loop_breaks _ _ pre it post 0 k s s t k s waited
               Hpre Hk Hb).
    reflexivity.
  - intros Hr Hneg Herr.
    assert (Hb : Write_iteration length timer k it s
                 = (Thrown (IOException_errno (errno (sel (wi_select it)))),
                    s, waited)).
    { rewrite Write_iteration_waited by (fold r; lia).
      destruct (Z.ltb_spec (ret (sel (wi_select it))) 0); [|lia].
      destruct (Z.eqb_spec (errno (sel (wi_select it))) EINTR);
        [contradiction | reflexivity]. }
    rewrite (transfer_loop_throws _ _ pre it post 0 k s s t _ s waited
               Hpre Hk Hb).
    reflexivity.
  - intros Hr Hneg Herr.
    apply (passes_continues _ _ pre it 0 k s s t k s waited Hpre Hk).
    rewrite Write_iteration_waited by (fold r; lia).
    destruct (Z.ltb_spec (ret (sel (wi_select it))) 0); [|lia].
    rewrite Herr. reflexivity.
Qed.

Lemma Write_gives_up_at_the_first_timeout_witness :
  Write 4 1000
    [write_pass_with 1010 1;
     {| wi_now := 1020;
        wi_select := {| sel := {| ret := 0; errno := 0 |};
                        sel_isset := false |};
        wi_write := fun count => count |};
     write_pass_with 1030 3]
    (sample_port true)
  = (Returned 1, sample_port true,
     [timer_start 100; timer_remaining 90; sys_pselect_write 3 90;
      sys_write 3 4; timer_remaining 80; sys_pselect_write 3 80]).
Proof.
  apply (proj1 (proj2
           (Write_gives_up_at_the_first_timeout 4 1000
              [write_pass_with 1010 1]
              {| wi_now := 1020;
                 wi_select := {| sel := {| ret := 0; errno := 0 |};
                                 sel_isset := false |};
                 wi_write := fun count => count |}
              [write_pass_with 1030 3] 1
              [timer_remaining 90; sys_pselect_write 3 90; sys_write 3 4]
              (sample_port true) eq_refl
              ltac:(vm_compute; reflexivity) ltac:(lia))));
    [vm_compute; reflexivity | reflexivity].
Defined.

(** X16.  A request that is already satisfied never waits.  When the
    opportunistic transfer at the start of [Read] yields at least the bytes
    asked for (in particular when none are asked for), [Read] returns its
    count having made that one call and read the timer not once; a [Write]
    of nothing returns zero without any system call.  This holds whatever
    the timeouts are and whatever the kernel would have answered. *)
Theorem satisfied_requests_never_wait :
  (forall size now prefill its s,
     is_open_ s = true ->
     size <= prefilled (prefill size) ->
     Read size now prefill its s
       = (Returned (prefilled (prefill size)), s,
          [timer_start
             (total_timeout_ms (read_timeout_constant (timeout_ s))
                (read_timeout_multiplier (timeout_ s)) size);
           sys_read (fd_ s) size]))
  /\ (forall length now its s,
        is_open_ s = true ->
        length <= 0 ->
        Write length now its s
          = (Returned 0, s,
             [timer_start
                (total_timeout_ms (write_timeout_constant (timeout_ s))
                   (write_timeout_multiplier (timeout_ s)) length)])).
Proof.
  split.
  - intros size now prefill its s Hopen Hfull.
    rewrite (Read_on_open _ _ _ _ _ Hopen). cbv zeta. unfold Read_loop.
    destruct its; cbn [transfer_loop];
      (destruct (Z.ltb_spec (prefilled (prefill size)) size); [lia|]);
      reflexivity.
  - intros length now its s Hopen Hnone.
    rewrite (Write_on_open _ _ _ _ Hopen). cbv zeta. unfold Write_loop.
    destruct its; cbn [transfer_loop];
      (destruct (Z.ltb_spec 0 length); [lia|]); reflexivity.
Qed.

Lemma satisfied_requests_never_wait_witness :
  Read 4 1000 (fun count => count) [pass_with 1010 1] (sample_port true)
    = (Returned 4, sample_port true, [timer_start 100; sys_read 3 4])
  /\ Write 0 1000 [write_pass_with 1010 1] (sample_port true)
     = (Returned 0, sample_port true, [timer_start 100]).
Proof.
  destruct satisfied_requests_never_wait as (HR & HW).
  split.
  - apply (HR 4 1000 (fun count => count) [pass_with 1010 1]
              (sample_port true) eq_refl).
    vm_compute. discriminate.
  - apply (HW 0 1000 [write_pass_with 1010 1] (sample_port true) eq_refl).
    lia.
Defined.

(** ** The closed port *)

(** X17.  On a port that is not open every transfer, flush, break and
    modem-line operation throws [PortNotOpenedException] before any system
    call and leaves the object as it was.  [Available] and the polling
    [WaitForChange] do not throw: they return zero and false, again without
    a system call. *)
Theorem closed_port_is_refused_before_any_system_call (s : SerialImpl) :
  is_open_ s = false ->
  (forall size now prefill its,
     Read size now prefill its s
       = (Thrown (PortNotOpenedException "Serial::read"), s, []))
  /\ (forall length now its,
        Write length now its s
          = (Thrown (PortNotOpenedException "Serial::write"), s, []))
  /\ Flush s = (Thrown (PortNotOpenedException "Serial::flush"), s, [])
  /\ FlushInput s
     = (Thrown (PortNotOpenedException "Serial::flushInput"), s, [])
  /\ FlushOutput s
     = (Thrown (PortNotOpenedException "Serial::flushOutput"), s, [])
  /\ (forall duration,
        SendBreak duration s
          = (Thrown (PortNotOpenedException "Serial::sendBreak"), s, []))
  /\ (forall level r,
        SetBreak level r s
          = (Thrown (PortNotOpenedException "Serial::setBreak"), s, []))
  /\ (forall level r,
        SetRTS level r s
          = (Thrown (PortNotOpenedException "Serial::setRTS"), s, []))
  /\ (forall level r,
        SetDTR level r s
          = (Thrown (PortNotOpenedException "Serial::setDTR"), s, []))
  /\ (forall r status,
        GetCTS r status s
          = (Thrown (PortNotOpenedException "Serial::getCTS"), s, []))
  /\ (forall r status,
        GetDSR r status s
          = (Thrown (PortNotOpenedException "Serial::getDSR"), s, []))
  /\ (forall r status,
        GetRI r status s
          = (Thrown (PortNotOpenedException "Serial::getRI"), s, []))
  /\ (forall r status,
        GetCD r status s
          = (Thrown (PortNotOpenedException "Serial::getCD"), s, []))
  /\ (forall r, Available r s = (Returned 0, s, []))
  /\ (forall its, WaitForChange_polling its s = (Returned false, s, [])).
Proof.
  intros Hclosed.
  repeat match goal with |- _ /\ _ => split end; intros;
    try (unfold Flush, FlushInput, FlushOutput, SendBreak, SetBreak, SetRTS,
           SetDTR, GetCTS, GetDSR, GetRI, GetCD;
         rewrite Hclosed; reflexivity).
  - apply Read_on_closed. exact Hclosed.
  - unfold Write. run_monad. rewrite Hclosed. reflexivity.
  - unfold Available. run_monad. rewrite Hclosed. reflexivity.
  - destruct its; cbn [WaitForChange_polling]; run_monad; rewrite Hclosed;
      reflexivity.
Qed.

Lemma closed_port_is_refused_before_any_system_call_witness :
  SetRTS true ok (sample_port false)
    = (Thrown (PortNotOpenedException "Serial::setRTS"), sample_port false, [])
  /\ Available {| inq := ok; inq_count := 7 |} (sample_port false)
     = (Returned 0, sample_port false, []).
Proof.
  destruct (closed_port_is_refused_before_any_system_call
              (sample_port false) eq_refl)
    as (_ & _ & _ & _ & _ & _ & _ & R & _ & _ & _ & _ & _ & A & _).
  split; [apply R | apply A].
Defined.

(** ** The setters *)

Lemma setter_outcome (set : SerialImpl -> SerialImpl) h os s :
  is_open_ (set s) = is_open_ s ->
  let run := (modify set ;;;
              is_open <- gets is_open_ ;;
              if is_open : bool then ReconfigurePort h os else pure tt) s in
  (is_open_ s = false -> run = (Returned tt, set s, []))
  /\ (is_open_ s = true -> run = ReconfigurePort h os (set s)).
Proof.
  intros Hopen run. subst run. run_monad. rewrite Hopen.
  split; intros E; rewrite E; [reflexivity|].
  destruct (ReconfigurePort h os (set s)) as [[o s'] t]. reflexivity.
Qed.

Lemma setter_stores (field : SerialImpl -> Z) (set : Z -> SerialImpl -> SerialImpl)
    h os :
  (forall v s, is_open_ (set v s) = is_open_ s) ->
  (forall v s, field (set v s) = v) ->
  (forall s s', configuration s' = configuration s -> field s' = field s) ->
  stores_without_rollback (gets field)
    (fun v => modify (set v) ;;;
              is_open <- gets is_open_ ;;
              if is_open : bool then ReconfigurePort h os else pure tt).
Proof.
  intros Hopen Hfield Hconf v s.
  destruct (setter_outcome (set v) h os s (Hopen v s)) as [Hclosed Hrun].
  cbv zeta in Hclosed, Hrun.
  destruct (is_open_ s) eqn:E.
  - rewrite (Hrun eq_refl). split; [|split].
    + unfold gets. cbn [result_of fst]. f_equal.
      rewrite (Hconf (set v s)); [apply Hfield|].
      apply (ReconfigurePort_keeps h os (set v s)).
    + intros H. discriminate H.
    + intros Hfail o [fd Hin].
      destruct (ReconfigurePort_failed h os (set v s) Hfail) as [_ Hno].
      rewrite Forall_forall in Hno. apply (Hno _ Hin). exact I.
  - rewrite (Hclosed eq_refl). cbn [state_of result_of log_of fst snd].
    split; [unfold gets; cbn [result_of fst]; f_equal; apply Hfield|].
    split; [auto|].
    intros H. destruct H. reflexivity.
Qed.

(** X18.  The five configuration setters store without rollback.  Each
    records its argument in its member before anything else; on a closed
    port that is all it does (it returns, and makes no system call: the
    value is used by the next [Open]); on an open port it reconfigures the
    port, and when the reconfiguration fails the member keeps the rejected
    value while nothing has been handed to [tcsetattr], so that the getter
    then reports a setting the device does not have.  [SetPort] and
    [SetTimeout] only store: they make no system call on any port. *)
Theorem setters_store_without_rollback (h : host) (os : reconf_os) :
  stores_without_rollback GetBaudrate (SetBaudrate h os)
  /\ stores_without_rollback GetBytesize (SetBytesize h os)
  /\ stores_without_rollback GetParity (SetParity h os)
  /\ stores_without_rollback GetStopbits (SetStopbits h os)
  /\ stores_without_rollback GetFlowcontrol (SetFlowcontrol h os)
  /\ (forall port s,
        SetPort port s = (Returned tt, set_port port s, [])
        /\ GetPort (set_port port s) = (Returned port, set_port port s, []))
  /\ (forall timeout s,
        SetTimeout timeout s = (Returned tt, set_timeout timeout s, [])
        /\ GetTimeout (set_timeout timeout s)
           = (Returned timeout, set_timeout timeout s, [])).
Proof.
  assert (C : forall (f : SerialImpl -> Z),
            (f = baudrate_ \/ f = bytesize_ \/ f = parity_ \/ f = stopbits_
             \/ f = flowcontrol_) ->
            forall s s', configuration s' = configuration s -> f s' = f s).
  { intros f Hf s s' H. unfold configuration in H.
    injection H as _ _ _ _ Hb Hp Hs Hst Hfl.
    destruct Hf as [->|[->|[->|[->| ->]]]]; assumption. }
  repeat match goal with |- _ /\ _ => split end.
  - apply (setter_stores baudrate_ set_baudrate); auto.
  - apply (setter_stores bytesize_ set_bytesize); auto 6.
  - apply (setter_stores parity_ set_parity); auto 6.
  - apply (setter_stores stopbits_ set_stopbits); auto 6.
  - apply (setter_stores flowcontrol_ set_flowcontrol); auto 6.
  - intros port s. split; reflexivity.
  - intros timeout s. split; reflexivity.
Qed.

Lemma setters_store_without_rollback_witness :
  result_of
    (GetBytesize (state_of (SetBytesize linux willing_os 9 (sample_port true))))
    = Returned 9
  /\ forall o,
       ~ programs (log_of (SetBytesize linux willing_os 9 (sample_port true))) o.
Proof.
  destruct (setters_store_without_rollback linux willing_os)
    as (_ & B & _).
  destruct (B 9 (sample_port true)) as (V & _ & F).
  split; [exact V|]. apply F. vm_compute. discriminate.
Defined.

(** ** What every operation maintains *)

Lemma well_formed_same s s' :
  is_open_ s' = is_open_ s -> fd_ s' = fd_ s ->
  xonxoff_ s' = xonxoff_ s -> rtscts_ s' = rtscts_ s ->
  well_formed s -> well_formed s'.
Proof.
  unfold well_formed. intros -> -> -> ->. auto.
Qed.

Lemma well_formed_closed s s' :
  is_open_ s' = false ->
  xonxoff_ s' = xonxoff_ s -> rtscts_ s' = rtscts_ s ->
  well_formed s -> well_formed s'.
Proof.
  unfold well_formed. intros -> -> -> [_ H]. split; [discriminate | exact H].
Qed.

Lemma ReconfigurePort_well_formed h os s :
  well_formed s -> well_formed (state_of (ReconfigurePort h os s)).
Proof.
  intros [Hfd Hflow].
  destruct (ReconfigurePort_keeps h os s) as [Hconf _].
  unfold configuration in Hconf.
  injection Hconf as _ Cfd Copen _ _ _ _ _ _.
  split; [rewrite Cfd, Copen; exact Hfd|].
  destruct (result_of (ReconfigurePort h os s)) as [[]| e | |] eqn:R.
  - destruct (ReconfigurePort_programmed h os s R)
      as (o1 & t1 & o2 & o3 & o4 & o5 & s5 & _ & _ & _ & _ & E5 & St & _).
    rewrite St. cbn [set_byte_time_ns xonxoff_ rtscts_].
    destruct (setup_flow_control_options _ _ _ _ _ E5)
      as (_ & _ & _ & Hm & _).
    rewrite (f_equal fst Hm : xonxoff_ s5 = _).
    rewrite (f_equal snd Hm : rtscts_ s5 = _).
    destruct (flowcontrol_ s =? flowcontrol_none); [reflexivity|].
    destruct (flowcontrol_ s =? flowcontrol_software); [reflexivity|].
    destruct (flowcontrol_ s =? flowcontrol_hardware); [reflexivity|].
    exact Hflow.
  - destruct (ReconfigurePort_failed h os s) as [-> _];
      [rewrite R; discriminate | exact Hflow].
  - destruct (ReconfigurePort_failed h os s) as [-> _];
      [rewrite R; discriminate | exact Hflow].
  - destruct (ReconfigurePort_failed h os s) as [-> _];
      [rewrite R; discriminate | exact Hflow].
Qed.

Lemma Open_interrupted_state h (r : open_reply) (rest : list open_reply)
    os s :
  port_ s <> "" -> is_open_ s = false ->
  ret r = -1 -> errno r = EINTR ->
  result_of (Open h (r :: rest) os s)
    = result_of (Open h rest os (set_fd (-1) s))
  /\ state_of (Open h (r :: rest) os s)
     = state_of (Open h rest os (set_fd (-1) s)).
Proof.
  intros Hport Hclosed Hret Herr. cbn [Open]. run_monad.
  destruct (String.eqb_spec (port_ s) "") as [|_]; [contradiction|].
  rewrite Hclosed, Hret, Herr.
  change (-1 =? -1) with true. change (EINTR =? EINTR) with true.
  cbv beta iota.
  destruct (Open h rest os (set_fd (-1) s)) as [[[[]| e | |] s'] t];
    split; reflexivity.
Qed.

Lemma Open_without_replies h os s :
  state_of (Open h [] os s) = s /\ result_of (Open h [] os s) <> Returned tt.
Proof.
  cbn [Open]. run_monad.
  destruct (String.eqb (port_ s) ""); [split; [reflexivity | discriminate]|].
  destruct (is_open_ s); split; try reflexivity; discriminate.
Qed.

(** An [Open] that returns has made the port open with a descriptor; in
    every case the object stays well formed. *)
Lemma Open_outcome h attempts os s :
  well_formed s ->
  well_formed (state_of (Open h attempts os s))
  /\ (result_of (Open h attempts os s) = Returned tt ->
      is_open_ s = false
      /\ is_open_ (state_of (Open h attempts os s)) = true
      /\ byte_time_ns_ (state_of (Open h attempts os s)) = estimate_of s).
Proof.
  revert s. induction attempts as [|r rest IH]; intros s Hwf.
  { destruct (Open_without_replies h os s) as [-> N].
    split; [exact Hwf | intros H; destruct (N H)]. }
  destruct (Open_refuses h (r :: rest) os s) as [Hempty Hopened].
  destruct (String.eqb_spec (port_ s) "") as [Hport|Hport].
  { rewrite (Hempty Hport). split; [exact Hwf | intros H; discriminate H]. }
  destruct (is_open_ s) eqn:Hclosed.
  { rewrite (Hopened Hport eq_refl).
    split; [exact Hwf | intros H; discriminate H]. }
  destruct ((ret r =? -1) && (errno r =? EINTR)) eqn:Hr.
  - apply andb_prop in Hr as [Hret Herr].
    apply Z.eqb_eq in Hret. apply Z.eqb_eq in Herr.
    destruct (Open_interrupted_state h r rest os s Hport Hclosed Hret Herr)
      as [ER ES].
    unfold open_reply in *. rewrite ER, ES.
    destruct (IH (set_fd (-1) s)) as [W R].
    { apply (well_formed_closed s); auto. }
    split; [exact W|]. intros H. destruct (R H) as (_ & O & B).
    split; [reflexivity|]. split; [exact O | exact B].
  - pose proof (Open_deciding_attempt h r rest os s Hport Hclosed Hr) as D.
    cbv zeta in D. unfold open_reply in *. rewrite D. clear D.
    destruct (Z.eqb_spec (ret r) (-1)) as [Hret|Hret].
    { cbn [state_of result_of fst snd].
      split; [apply (well_formed_closed s); auto | intros H; discriminate H]. }
    assert (W0 : well_formed (set_fd (ret r) s))
      by (apply (well_formed_closed s); auto).
    pose proof (ReconfigurePort_well_formed h os _ W0) as [Wfd Wflow].
    destruct (ReconfigurePort_keeps h os (set_fd (ret r) s)) as [Hconf _].
    pose proof (ReconfigurePort_updates_estimate h os (set_fd (ret r) s))
      as Hest.
    unfold configuration in Hconf.
    injection Hconf as _ Cfd Copen _ _ _ _ _ _.
    cbn [set_fd fd_ is_open_] in Cfd, Copen.
    destruct (result_of (ReconfigurePort h os (set_fd (ret r) s)))
      as [[]| e | |] eqn:R;
      cbn [state_of result_of fst snd].
    + split.
      * split; [cbn [set_is_open fd_]; intros _; rewrite Cfd; exact Hret
               | exact Wflow].
      * intros _. split; [reflexivity|]. split; [reflexivity|].
        cbn [set_is_open byte_time_ns_]. apply (Hest eq_refl).
    + split; [split; [rewrite Copen, Hclosed; discriminate | exact Wflow]
             | intros H; discriminate H].
    + split; [split; [rewrite Copen, Hclosed; discriminate | exact Wflow]
             | intros H; discriminate H].
    + split; [split; [rewrite Copen, Hclosed; discriminate | exact Wflow]
             | intros H; discriminate H].
Qed.

Lemma Close_well_formed os s :
  well_formed s -> well_formed (state_of (Close os s)).
Proof.
  intros Hwf. destruct (is_open_ s) eqn:E.
  - destruct (Z.eq_dec (fd_ s) (-1)) as [F|F].
    + rewrite (Close_without_handle os s E F).
      apply (well_formed_closed s); auto.
    + destruct (Z.eq_dec (ret os) 0) as [R|R].
      * rewrite (Close_released os s E F R).
        apply (well_formed_closed s); auto.
      * rewrite (Close_failed os s E F R). exact Hwf.
  - rewrite (Close_on_closed os s E). exact Hwf.
Qed.

Lemma WaitForChange_polling_well_formed its s :
  well_formed s -> well_formed (state_of (WaitForChange_polling its s)).
Proof.
  revert s. induction its as [|it its IH]; intros s Hwf;
    cbn [WaitForChange_polling]; run_monad.
  - destruct (is_open_ s); exact Hwf.
  - destruct (is_open_ s); [|exact Hwf].
    destruct (ret (pi_TIOCMGET it) =? -1); [exact Hwf|].
    destruct (line_asserted (pi_status it)); [exact Hwf|].
    destruct (pi_closed_meanwhile it).
    + specialize (IH (set_is_open false (set_fd (-1) s))).
      destruct (WaitForChange_polling its (set_is_open false (set_fd (-1) s)))
        as [[o s'] t].
      apply IH. apply (well_formed_closed s); auto.
    + specialize (IH s Hwf).
      destruct (WaitForChange_polling its s) as [[o s'] t]. exact IH.
Qed.

Lemma setter_well_formed (set : SerialImpl -> SerialImpl) h os s :
  (forall s, is_open_ (set s) = is_open_ s) ->
  (forall s, fd_ (set s) = fd_ s) ->
  (forall s, xonxoff_ (set s) = xonxoff_ s) ->
  (forall s, rtscts_ (set s) = rtscts_ s) ->
  well_formed s ->
  well_formed
    (state_of ((modify set ;;;
                is_open <- gets is_open_ ;;
                if is_open : bool then ReconfigurePort h os else pure tt) s)).
Proof.
  intros Ho Hf Hx Hr Hwf.
  assert (W : well_formed (set s))
    by (apply (well_formed_same s); auto).
  destruct (setter_outcome set h os s (Ho s)) as [Hclosed Hrun].
  cbv zeta in Hclosed, Hrun.
  destruct (is_open_ s) eqn:E.
  - rewrite (Hrun eq_refl). apply ReconfigurePort_well_formed. exact W.
  - rewrite (Hclosed eq_refl). exact W.
Qed.

(** X19.  Every object the class can reach is well formed: a port marked
    open has a descriptor (so reconfiguring an open port never fails for
    want of one), and software and hardware handshake are never selected
    together.  The constructor's initial members are well formed, and
    [Open], [Close], the destructor, [ReconfigurePort], the setters,
    [Read], [Write] and [WaitForChange] keep the object well formed
    whatever the kernel answers and however they end. *)
Theorem operations_keep_the_object_well_formed :
  (forall port baudrate bytesize parity stopbits flowcontrol timeout byte_time,
     well_formed (initial_object port baudrate bytesize parity stopbits
                    flowcontrol timeout byte_time))
  /\ forall s, well_formed s ->
       (forall h attempts os, well_formed (state_of (Open h attempts os s)))
       /\ (forall os_close, well_formed (state_of (Close os_close s)))
       /\ (forall os_close,
             well_formed (state_of (SerialImpl_destructor os_close s)))
       /\ (forall h os, well_formed (state_of (ReconfigurePort h os s)))
       /\ (forall h os v, well_formed (state_of (SetBaudrate h os v s)))
       /\ (forall h os v, well_formed (state_of (SetBytesize h os v s)))
       /\ (forall h os v, well_formed (state_of (SetParity h os v s)))
       /\ (forall h os v, well_formed (state_of (SetStopbits h os v s)))
       /\ (forall h os v, well_formed (state_of (SetFlowcontrol h os v s)))
       /\ (forall port, well_formed (state_of (SetPort port s)))
       /\ (forall timeout, well_formed (state_of (SetTimeout timeout s)))
       /\ (forall size now prefill its,
             well_formed (state_of (Read size now prefill its s)))
       /\ (forall length now its,
             well_formed (state_of (Write length now its s)))
       /\ (forall h its iwait,
             well_formed (state_of (WaitForChange h its iwait s))).
Proof.
  split.
  { intros. split; [discriminate | reflexivity]. }
  intros s Hwf.
  repeat match goal with |- _ /\ _ => split end; intros.
  - apply Open_outcome. exact Hwf.
  - apply Close_well_formed. exact Hwf.
  - apply Close_well_formed. exact Hwf.
  - apply ReconfigurePort_well_formed. exact Hwf.
  - apply (setter_well_formed (set_baudrate v)); auto.
  - apply (setter_well_formed (set_bytesize v)); auto.
  - apply (setter_well_formed (set_parity v)); auto.
  - apply (setter_well_formed (set_stopbits v)); auto.
  - apply (setter_well_formed (set_flowcontrol v)); auto.
  - exact Hwf.
  - exact Hwf.
  - rewrite (proj1 (Read_keeps size now prefill its s)). exact Hwf.
  - rewrite (proj1 (Write_keeps length now its s)). exact Hwf.
  - unfold WaitForChange. destruct (has_TIOCMIWAIT h).
    + assert (K : keeps (fun s => s) any_event (WaitForChange_native iwait))
        by (unfold WaitForChange_native, any_event; repeat keeps_step).
      rewrite (proj1 (K s)). exact Hwf.
    + apply WaitForChange_polling_well_formed. exact Hwf.
Qed.

Lemma operations_keep_the_object_well_formed_witness :
  well_formed
    (state_of (Open linux [interrupted; {| ret := 5; errno := 0 |}] willing_os
                 (sample_port false))).
Proof.
  destruct operations_keep_the_object_well_formed as [_ H].
  destruct (H (sample_port false)) as (O & _).
  - split; [discriminate | reflexivity].
  - apply O.
Defined.

(** X20.  The constructor opens exactly the ports that have a name.  With
    an empty name it makes no system call and leaves a closed object.  With
    a name it runs [Open]; when it returns the port is open and the byte
    time holds the estimate for the constructor's arguments, so the value
    the initialiser list left indeterminate is gone before any transfer can
    use it (transfers are refused on a closed port). *)
Theorem constructor_opens_exactly_named_ports
    (h : host) (attempts : list open_reply) (os : reconf_os)
    (port : string) (baudrate bytesize parity stopbits flowcontrol : Z)
    (default_timeout : Timeout) (indeterminate : Z) :
  let s0 := initial_object port baudrate bytesize parity stopbits flowcontrol
              default_timeout indeterminate in
  let run := SerialImpl_constructor h attempts os s0 in
  (port = "" -> run = (Returned tt, s0, []))
  /\ (port <> "" -> run = Open h attempts os s0)
  /\ (result_of run = Returned tt ->
        result_of (IsOpen (state_of run))
          = Returned (negb (String.eqb port ""))
        /\ (port <> "" ->
              byte_time_ns_ (state_of run)
              = byte_time_estimate baudrate bytesize parity stopbits)).
Proof.
  intros s0 run.
  assert (Hnamed : port <> "" -> run = Open h attempts os s0).
  { intros Hport. subst run. unfold SerialImpl_constructor. run_monad.
    cbn [s0 initial_object port_].
    destruct (String.eqb_spec port "") as [|_]; [contradiction|].
    cbn [negb]. fold s0.
    destruct (Open h attempts os s0) as [[o s'] t]. reflexivity. }
  assert (Hempty : port = "" -> run = (Returned tt, s0, [])).
  { intros ->. reflexivity. }
  split; [exact Hempty|]. split; [exact Hnamed|].
  destruct (String.eqb_spec port "") as [Hport|Hport].
  - rewrite (Hempty Hport). intros _. split; [reflexivity | contradiction].
  - rewrite (Hnamed Hport). intros R.
    destruct (Open_outcome h attempts os s0) as [_ H].
    { split; [discriminate | reflexivity]. }
    destruct (H R) as (_ & O & B).
    split; [unfold IsOpen, gets; cbn [result_of fst]; rewrite O; reflexivity|].
    intros _. exact B.
Qed.

Lemma constructor_opens_exactly_named_ports_witness :
  result_of
    (IsOpen
       (state_of
          (SerialImpl_constructor linux [{| ret := 3; errno := 0 |}] willing_os
             (initial_object "/dev/ttyS0" 9600 eightbits parity_none
                stopbits_one flowcontrol_none (sample_timeout 100) 12345))))
  = Returned true.
Proof.
  apply (proj1 (proj2 (proj2
           (constructor_opens_exactly_named_ports linux
              [{| ret := 3; errno := 0 |}] willing_os "/dev/ttyS0" 9600
              eightbits parity_none stopbits_one flowcontrol_none
              (sample_timeout 100) 12345))
           ltac:(vm_compute; reflexivity))).
Defined.

(** ** The modem status lines *)

Lemma getters_read_levels r status s :
  is_open_ s = true -> ret r <> -1 ->
  line_asserted status = true
  <-> (line_result (GetCTS r status s) = Returned true
       \/ line_result (GetDSR r status s) = Returned true
       \/ line_result (GetRI r status s) = Returned true
       \/ line_result (GetCD r status s) = Returned true).
Proof.
  intros Hopen Hr. unfold GetCTS, GetDSR, GetRI, GetCD, line_asserted.
  rewrite Hopen. cbn [negb].
  destruct (Z.eqb_spec (ret r) (-1)) as [|_]; [contradiction|].
  cbn [line_result fst].
  destruct (Z.land status Flag.TIOCM_CTS =? 0),
           (Z.land status Flag.TIOCM_DSR =? 0),
           (Z.land status Flag.TIOCM_RI =? 0),
           (Z.land status Flag.TIOCM_CD =? 0); cbn [negb orb];
    (split; [intros H; first [discriminate H | tauto]
            | intros H; first [reflexivity | decompose [or] H; discriminate]]).
Qed.

(** X21.  Without [TIOCMIWAIT], [WaitForChange] reports levels, not
    changes.  On an open port whose status query works, its first pass
    returns true at once, after that single query, exactly when one of
    [GetCTS], [GetDSR], [GetRI], [GetCD] would read its line asserted in the
    same status word; no line has to change.  Otherwise that pass sleeps a
    millisecond and the loop goes on. *)
Theorem polling_WaitForChange_reports_levels
    (it : poll_iter) (rest : list poll_iter) (r : sysret) (s : SerialImpl) :
  is_open_ s = true ->
  ret (pi_TIOCMGET it) <> -1 ->
  ret r <> -1 ->
  let asserted :=
    line_result (GetCTS r (pi_status it) s) = Returned true
    \/ line_result (GetDSR r (pi_status it) s) = Returned true
    \/ line_result (GetRI r (pi_status it) s) = Returned true
    \/ line_result (GetCD r (pi_status it) s) = Returned true in
  (asserted ->
     WaitForChange_polling (it :: rest) s
       = (Returned true, s, [sys_ioctl_TIOCMGET (fd_ s)]))
  /\ (~ asserted ->
        exists log,
          log_of (WaitForChange_polling (it :: rest) s)
            = sys_ioctl_TIOCMGET (fd_ s) :: sys_usleep 1000 :: log).
Proof.
  intros Hopen Hq Hr asserted.
  pose proof (getters_read_levels r (pi_status it) s Hopen Hr) as L.
  fold asserted in L.
  cbn [WaitForChange_polling]. run_monad. rewrite Hopen.
  destruct (Z.eqb_spec (ret (pi_TIOCMGET it)) (-1)) as [|_]; [contradiction|].
  destruct (line_asserted (pi_status it)).
  - split; [reflexivity|]. intros N. destruct N. apply L. reflexivity.
  - split.
    + intros A. apply L in A. discriminate A.
    + intros _. destruct (pi_closed_meanwhile it).
      * destruct (WaitForChange_polling rest
                    (set_is_open false (set_fd (-1) s))) as [[o s'] t].
        eexists. reflexivity.
      * destruct (WaitForChange_polling rest s) as [[o s'] t].
        eexists. reflexivity.
Qed.

Lemma polling_WaitForChange_reports_levels_witness :
  WaitForChange_polling
    [{| pi_TIOCMGET := ok; pi_status := Flag.TIOCM_CD;
        pi_closed_meanwhile := false |}]
    (sample_port true)
  = (Returned true, sample_port true, [sys_ioctl_TIOCMGET 3]).
Proof.
  apply (proj1 (polling_WaitForChange_reports_levels
                  {| pi_TIOCMGET := ok; pi_status := Flag.TIOCM_CD;
                     pi_closed_meanwhile := false |} [] ok (sample_port true)
                  eq_refl ltac:(simpl; lia) ltac:(simpl; lia))).
  right. right. right. reflexivity.
Defined.

(** ** When ReconfigurePort returns *)




(** ** The transfer that completes a request *)

Lemma coalescing_wait_passes size k it s :
  (1 < size -> inter_byte_timeout (timeout_ s) = Timeout_max ->
   ret (inq (ri_inq it)) <> -1) ->
  exists tc, coalescing_wait size k (ri_inq it) s = (Returned tt, s, tc).
Proof.
  intros Hq.
  destruct (Z.ltb_spec 1 size) as [H1|H1];
    [|exists []; apply coalescing_wait_skipped; lia].
  destruct (Z.eq_dec (inter_byte_timeout (timeout_ s)) Timeout_max)
    as [Hmax|Hmax];
    [|exists []; apply coalescing_wait_skipped; auto].
  destruct (coalescing_wait_outcome size k (ri_inq it) s)
    as (tc & [Hc|[Hq' _]]); [eauto|].
  destruct (Hq H1 Hmax Hq').
Qed.

(** X23.  The transfer that fills the request ends the call with the full
    count.  When the loop of [Read] (or of [Write]) holds [k] bytes, finds
    time left and the descriptor ready, and the transfer of the missing
    [size - k] bytes is complete, the call returns [size] at once, with the
    object unchanged; in [Write] the pass logs the timer reading, the wait
    for the remaining time and the transfer, and nothing after them. *)
Theorem transfer_that_fills_the_request_ends_the_call :
  (forall size now prefill pre it post k t s,
     let timer := MilliTimer_new now
                    (total_timeout_ms (read_timeout_constant (timeout_ s))
                       (read_timeout_multiplier (timeout_ s)) size) in
     let run := Read size now prefill (pre ++ it :: post) s in
     is_open_ s = true ->
     passes (Read_iteration size timer) size pre (prefilled (prefill size)) s
       = (Returned (Continue k), s, t) ->
     0 <= k < size -> size < UINT64_MOD ->
     0 < Remaining timer (ri_now it) -> reported_ready (ri_select it) ->
     (1 < size -> inter_byte_timeout (timeout_ s) = Timeout_max ->
      ret (inq (ri_inq it)) <> -1) ->
     ri_read it (size - k) = size - k ->
     result_of run = Returned size /\ state_of run = s)
  /\ (forall length now pre it post k t s,
        let total := total_timeout_ms (write_timeout_constant (timeout_ s))
                       (write_timeout_multiplier (timeout_ s)) length in
        let timer := MilliTimer_new now total in
        is_open_ s = true ->
        passes (Write_iteration length timer) length pre 0 s
          = (Returned (Continue k), s, t) ->
        0 <= k < length -> length < UINT64_MOD ->
        0 < Remaining timer (wi_now it) -> reported_ready (wi_select it) ->
        wi_write it (length - k) = length - k ->
        Write length now (pre ++ it :: post) s
          = (Returned length, s,
             timer_start total
               :: t ++ [timer_remaining (Remaining timer (wi_now it));
                        sys_pselect_write (fd_ s) (Remaining timer (wi_now it));
                        sys_write (fd_ s) (length - k)])).
Proof.
  split.
  - intros size now prefill pre it post k t s timer run
      Hopen Hpre Hk Hsize Hr Hready Hq Hfull. subst run.
    rewrite (Read_on_open _ _ _ _ _ Hopen). cbv zeta.
    cbn [result_of state_of fst snd]. fold timer. unfold Read_loop.
    destruct (coalescing_wait_passes size k it s Hq) as (tc & Hc).
    pose proof (Read_iteration_ready _ _ _ _ _ _ Hr Hready Hc) as Hb.
    cbv zeta in Hb.
    rewrite (to_size_t_small (size - k)) in Hb by lia.
    rewrite Hfull in Hb.
    rewrite (to_size_t_small (size - k)) in Hb by lia.
    replace (k + (size - k)) with size in Hb by lia.
    rewrite (to_size_t_small size) in Hb by lia.
    destruct (Z.ltb_spec (size - k) 1); [lia|].
    rewrite Z.eqb_refl in Hb.
    rewrite (transfer_loop_breaks _ _ pre it post _ k s s t size s _
               Hpre (proj2 Hk) Hb).
    split; reflexivity.
  - intros length now pre it post k t s total timer
      Hopen Hpre Hk Hsize Hr Hready Hfull.
    rewrite (Write_on_open _ _ _ _ Hopen). cbv zeta.
    fold total. fold timer. unfold Write_loop.
    pose proof (Write_iteration_ready length timer k it s Hr Hready) as Hb.
    cbv zeta in Hb.
    rewrite (to_size_t_small (length - k)) in Hb by lia.
    rewrite Hfull in Hb.
    rewrite (to_size_t_small (length - k)) in Hb by lia.
    replace (k + (length - k)) with length in Hb by lia.
    rewrite (to_size_t_small length) in Hb by lia.
    destruct (Z.ltb_spec (length - k) 1); [lia|].
    rewrite Z.eqb_refl in Hb.
    rewrite (transfer_loop_breaks _ _ pre it post _ k s s t length s _
               Hpre (proj2 Hk) Hb).
    reflexivity.
Qed.

Lemma transfer_that_fills_the_request_ends_the_call_witness :
  result_of (Read 4 1000 (fun count => Z.min count 1)
               [pass_with 1010 1; pass_with 1020 2] (sample_port true))
    = Returned 4
  /\ result_of (Write 4 1000 [write_pass_with 1010 1; write_pass_with 1020 3]
                  (sample_port true))
     = Returned 4.
Proof.
  destruct transfer_that_fills_the_request_ends_the_call as (HR & HW).
  split.
  - apply (HR 4 1000 (fun count => Z.min count 1)
              [pass_with 1010 1] (pass_with 1020 2) [] 2
              [timer_remaining 90; sys_pselect_read 3 90; sys_ioctl_TIOCINQ 3;
               sys_pselect_sleep 2083320; sys_read 3 3]
              (sample_port true));
      [ reflexivity | vm_compute; reflexivity | lia
      | unfold UINT64_MOD; simpl; lia | vm_compute; reflexivity
      | split; [simpl; lia | reflexivity] | intros _ _; simpl; lia
      | reflexivity ].
  - refine (f_equal (fun r => fst (fst r))
              (HW 4 1000 [write_pass_with 1010 1] (write_pass_with 1020 3) [] 1
                  [timer_remaining 90; sys_pselect_write 3 90; sys_write 3 4]
                  (sample_port true) eq_refl _ _ _ _ _ _));
      [ vm_compute; reflexivity | lia | unfold UINT64_MOD; simpl; lia
      | vm_compute; reflexivity | split; [simpl; lia | reflexivity]
      | reflexivity ].
Defined.
